(** * Registry dashboard: retention engine and scan scheduler

    A shallow embedding of [registry.RunRetention] / [processRepository]
    (package registry) and of the scan scheduler (package tasks), together
    with the properties of the two engines.

    Conventions.
    - Go's [int], [int64] and [time.Duration] are [Z]; the one place where
      the code multiplies two 64-bit values ([time.Duration(interval) *
      time.Hour]) wraps with [gotime.wrap64].
    - [float64] is Rocq's primitive binary64 float, so [Duration.Hours] and
      the conversion [int(...)] compute what the Go program computes.
    - The registry server, the regexp package, the SQL connection and the
      scanner are outside the repository; they enter as interfaces
      ([registry.Client], [RegexpPkg]) or as explicit oracles.
    - Side effects are recorded in a trace of events that is threaded
      through the calls next to the state they act on. *)

From Stdlib Require Import ZArith List String Ascii Lia.
From Stdlib Require Import PrimFloat FloatOps Uint63 SpecFloat DecimalString.
From stdpp Require Import base option list strings gmap sorting.

Local Open Scope Z_scope.

(** Go's [(T, error)] results: the error carries its message. *)
Inductive result (A : Type) : Type :=
| Ok (a : A)
| Err (msg : string).
Arguments Ok {A} a.
Arguments Err {A} msg.

(** ** Package time (the part the two engines use) *)
Module gotime.

(** A [time.Time] is the number of nanoseconds since Go's zero instant
    (January 1, year 1, 00:00:00 UTC); [IsZero] tests for that instant. *)
Definition Time : Type := Z.
Definition Duration : Type := Z.

Definition minDuration : Duration := - 2 ^ 63.
Definition maxDuration : Duration := 2 ^ 63 - 1.

Definition Hour : Duration := 3600000000000.

(** Two's-complement wrap-around of a 64-bit signed product or sum. *)
Definition wrap64 (z : Z) : Z := (z + 2 ^ 63) mod 2 ^ 64 - 2 ^ 63.

Definition IsZero (t : Time) : bool := t =? 0.
Definition After (t u : Time) : bool := u <? t.
Definition Add (t : Time) (d : Duration) : Time := t + d.

(** [t.Sub(u)] saturates at the ends of the [Duration] range. *)
Definition Sub (t u : Time) : Duration :=
  if t - u <? minDuration then minDuration
  else if maxDuration <? t - u then maxDuration
  else t - u.

(** [float64(n)] for a 64-bit integer [n]. *)
Definition float_of_Z (z : Z) : float :=
  if z <? 0 then PrimFloat.opp (PrimFloat.of_uint63 (Uint63.of_Z (- z)))
  else PrimFloat.of_uint63 (Uint63.of_Z z).

(** [func (d Duration) Hours() float64]:
    [hour := d / Hour; nsec := d % Hour;
     return float64(hour) + float64(nsec)/(60*60*1e9)]. *)
Definition Hours (d : Duration) : float :=
  let hour := Z.quot d Hour in
  let nsec := Z.rem d Hour in
  PrimFloat.add (float_of_Z hour)
                (PrimFloat.div (float_of_Z nsec) (float_of_Z 3600000000000)).

(** The conversion [int(f)] truncates toward zero. For NaN and the
    infinities Go leaves the result to the implementation; the value
    chosen here is what amd64 produces, and no call in this file reaches
    that case. *)
Definition int_of_float (f : float) : Z :=
  match Prim2SF f with
  | S754_finite s m e =>
      let v := if 0 <=? e then Z.pos m * 2 ^ e else Z.pos m / 2 ^ (- e) in
      if s then - v else v
  | S754_zero _ => 0
  | _ => - 2 ^ 63
  end.

End gotime.

(** ** Package fmt: the verb [%d] *)
Module fmt.
Definition itoa (n : Z) : string := NilZero.string_of_int (Z.to_int n).
End fmt.

(** ** Package regexp, as an interface

    [Compile] either yields a compiled expression or fails with a message;
    [MatchString] is the unanchored match of the compiled expression. *)
Class RegexpPkg : Type := {
  Regexp : Type;
  Compile : string -> result Regexp;
  MatchString : Regexp -> string -> bool
}.

(** ** Package models *)
Module models.

Module Registry.
Record t : Type := mk {
  ID : Z; Name : string; URL : string; Username : string;
  Password : string; Insecure : bool;
  CreatedAt : gotime.Time; UpdatedAt : gotime.Time }.
End Registry.

Module RetentionPolicy.
Record t : Type := mk {
  ID : Z; RegistryID : Z;
  KeepLastCount : Z; KeepDays : Z; DryRun : bool;
  LastRunAt : gotime.Time;
  FilterRepos : string; ExcludeRepos : string; ExcludeTags : string }.
End RetentionPolicy.

Module ScanPolicy.
Record t : Type := mk {
  ID : Z; RegistryID : Z; Enabled : bool; IntervalHours : Z;
  NextRunAt : gotime.Time; LastRunAt : gotime.Time;
  FilterRepos : string; FilterTags : string }.
End ScanPolicy.

Module VulnerabilityScan.
Record t : Type := mk {
  ID : Z; RegistryID : Z; Repository : string; Tag : string;
  Digest : string; Status : string; Summary : string; Report : string;
  ScannedAt : gotime.Time }.
End VulnerabilityScan.

Module RetentionLog.
Record t : Type := mk {
  Repository : string; Tag : string; Digest : string;
  Created : gotime.Time; Action : string; Reason : string }.
End RetentionLog.

End models.

(** ** Package registry: the retention engine *)
Module registry.
Import models.

(** The five calls of [*Client] that the engines make. The registry
    server is a state [W]; the four reads are functions of it and
    [DeleteManifest] changes it. [ListRepositories] and [ListTags] give
    the names of the [models.Repository] and [models.Tag] values. *)
Record Client (W : Type) : Type := {
  ListRepositories : W -> result (list string);
  ListTags : W -> string -> result (list string);
  GetImageCreated : W -> string -> string -> result gotime.Time;
  GetDigestForTag : W -> string -> string -> result string;
  DeleteManifest : W -> string -> string -> W * option string
}.
Arguments ListRepositories {W} _ _.
Arguments ListTags {W} _ _ _.
Arguments GetImageCreated {W} _ _ _ _.
Arguments GetDigestForTag {W} _ _ _ _.
Arguments DeleteManifest {W} _ _ _ _.

(** What a run does to the outside: the [DeleteManifest] calls it issues
    and the lines it writes with [log.Printf], in program order. *)
Inductive Event : Type :=
| DeleteCall (repoName digest : string)
| LogLine (line : string).

Record Env (W : Type) : Type := { world : W; trace : list Event }.
Arguments world {W} _.
Arguments trace {W} _.

Definition emit {W} (ev : Event) (e : Env W) : Env W :=
  {| world := world e; trace := trace e ++ [ev] |}.

Definition is_delete (ev : Event) : bool :=
  match ev with DeleteCall _ _ => true | LogLine _ => false end.

(** The [DeleteManifest] calls of a trace. *)
Definition deletes (tr : list Event) : list Event := List.filter is_delete tr.

Module imageInfo.
Record t : Type := mk {
  Tag : string; Digest : string; Created : gotime.Time; Protected : bool }.
End imageInfo.

Record tagDecision : Type := {
  img : imageInfo.t; keep : bool; reason : string }.

Section Retention.
Context {W : Type} `{RegexpPkg}.

(** [if pattern != "" { re, err = regexp.Compile(pattern); if err != nil
    { log.Printf(prefix, err) } }]: the variable stays [nil] for an
    empty pattern and after a failed compilation. *)
Definition compileLogged (prefix pattern : string) (e : Env W)
  : option Regexp * Env W :=
  if String.eqb pattern EmptyString then (None, e)
  else match Compile pattern with
       | Ok re => (Some re, e)
       | Err msg => (None, emit (LogLine (prefix +:+ msg)) e)
       end.

(** The value of the variable after that block. *)
Definition compiled (pattern : string) : option Regexp :=
  if String.eqb pattern EmptyString then None
  else match Compile pattern with
       | Ok re => Some re
       | Err _ => None
       end.

(** [re != nil && cond(re)]. *)
Definition notNilAnd (re : option Regexp) (cond : Regexp -> bool) : bool :=
  match re with
  | Some r => cond r
  | None => false
  end.

(** The body of one fetch goroutine: the tag is appended to [images]
    only when both the creation time and the digest were fetched. *)
Definition fetchTag (client : Client W) (w : W) (repoName : string)
    (excludeTagRe : option Regexp) (t : string) : option imageInfo.t :=
  let isProtected :=
    notNilAnd excludeTagRe (fun re => MatchString re t) in
  match GetImageCreated client w repoName t with
  | Err _ => None
  | Ok created =>
      match GetDigestForTag client w repoName t with
      | Err _ => None
      | Ok digest => Some (imageInfo.mk t digest created isProtected)
      end
  end.

Definition fetchImages (client : Client W) (w : W) (repoName : string)
    (excludeTagRe : option Regexp) (tags : list string)
  : list imageInfo.t :=
  omap (fetchTag client w repoName excludeTagRe) tags.

(** [int(age.Hours() / 24)]. *)
Definition wholeDays (age : gotime.Duration) : Z :=
  gotime.int_of_float
    (PrimFloat.div (gotime.Hours age) (gotime.float_of_Z 24)).

(** [days := int(age.Hours() / 24)] with [age := now.Sub(img.Created)]. *)
Definition days (now created : gotime.Time) : Z :=
  wholeDays (gotime.Sub now created).

(** [wholeDays] on an age of [h] whole hours: in [Hours], [hour] is [h]
    and [nsec] is zero. *)
Definition wholeDaysOfHours (h : Z) : Z :=
  gotime.int_of_float
    (PrimFloat.div
       (PrimFloat.add (gotime.float_of_Z h)
          (PrimFloat.div (gotime.float_of_Z 0)
             (gotime.float_of_Z 3600000000000)))
       (gotime.float_of_Z 24)).

(** An age of [m] days counts [m] whole days, for the [fuel] values of [m]
    from [n] on. *)
Fixpoint countsDays (fuel : nat) (n : Z) : bool :=
  match fuel with
  | O => true
  | S fuel => (wholeDaysOfHours (24 * n) =? n) && countsDays fuel (n + 1)
  end.

(** The number of whole days in the largest [Duration]. *)
Definition maxDays : Z := 106751.

(** Rule 1: Keep Last Count. *)
Definition ruleKeepLast (policy : RetentionPolicy.t) (i : nat)
    (st : bool * string) : bool * string :=
  if 0 <? RetentionPolicy.KeepLastCount policy then
    if Z.of_nat i <? RetentionPolicy.KeepLastCount policy then
      (true, "within last "
             +:+ fmt.itoa (RetentionPolicy.KeepLastCount policy)
             +:+ " images")
    else st
  else st.

(** Rule 2: Keep Days. *)
Definition ruleKeepDays (policy : RetentionPolicy.t) (now : gotime.Time)
    (im : imageInfo.t) (st : bool * string) : bool * string :=
  if 0 <? RetentionPolicy.KeepDays policy then
    if days now (imageInfo.Created im) <? RetentionPolicy.KeepDays policy
    then
      if st.1 then
        (st.1, st.2 +:+ " AND newer than "
                    +:+ fmt.itoa (RetentionPolicy.KeepDays policy)
                    +:+ " days")
      else
        (true, "newer than "
               +:+ fmt.itoa (RetentionPolicy.KeepDays policy)
               +:+ " days")
    else st
  else st.

(** Rule 3: Whitelist (override). *)
Definition ruleWhitelist (im : imageInfo.t) (st : bool * string)
  : bool * string :=
  if imageInfo.Protected im then
    if String.eqb st.2 "default keep" then (true, "matches whitelist tag")
    else (true, st.2 +:+ " AND matches whitelist")
  else st.

(** Safety: if no policy set, keep everything. *)
Definition ruleNoPolicy (policy : RetentionPolicy.t) (st : bool * string)
  : bool * string :=
  if (RetentionPolicy.KeepLastCount policy <=? 0)
     && (RetentionPolicy.KeepDays policy <=? 0)
  then (true, "no policy set")
  else st.

(** The body of the first loop for the image at index [i]. *)
Definition evaluateTag (policy : RetentionPolicy.t) (now : gotime.Time)
    (i : nat) (im : imageInfo.t) : tagDecision :=
  let st := (false, "default keep") in
  let st := ruleKeepLast policy i st in
  let st := ruleKeepDays policy now im st in
  let st := ruleWhitelist im st in
  let st := ruleNoPolicy policy st in
  {| img := im; keep := st.1; reason := st.2 |}.

(** Pass 1: Evaluate Rules. [keptDigests] is the Go [map[string]bool];
    reading a missing key gives [false]. *)
Fixpoint evaluateRules (policy : RetentionPolicy.t) (now : gotime.Time)
    (i : nat) (images : list imageInfo.t) (keptDigests : gmap string bool)
  : list tagDecision * gmap string bool :=
  match images with
  | [] => ([], keptDigests)
  | im :: rest =>
      let d := evaluateTag policy now i im in
      let keptDigests :=
        if keep d then <[imageInfo.Digest im := true]> keptDigests
        else keptDigests in
      let '(ds, kept) := evaluateRules policy now (S i) rest keptDigests in
      (d :: ds, kept)
  end.

Definition isKept (keptDigests : gmap string bool) (digest : string)
  : bool :=
  default false (keptDigests !! digest).

(** The body of the second loop for one decision. *)
Definition executeAction (client : Client W) (repoName : string)
    (policy : RetentionPolicy.t) (keptDigests : gmap string bool)
    (d : tagDecision) (e : Env W) : RetentionLog.t * Env W :=
  let mkLog action reason :=
    RetentionLog.mk repoName (imageInfo.Tag (img d))
      (imageInfo.Digest (img d)) (imageInfo.Created (img d))
      action reason in
  if keep d then (mkLog "kept" (reason d), e)
  else if isKept keptDigests (imageInfo.Digest (img d)) then
    (mkLog "kept" "digest shared with retained tag", e)
  else if RetentionPolicy.DryRun policy then
    (mkLog "would_delete" "exceeds retention limits", e)
  else
    let e := emit (DeleteCall repoName (imageInfo.Digest (img d))) e in
    match DeleteManifest client (world e) repoName
            (imageInfo.Digest (img d)) with
    | (w, Some msg) =>
        (mkLog "error_delete" ("failed to delete: " +:+ msg),
         {| world := w; trace := trace e |})
    | (w, None) =>
        (mkLog "deleted" "exceeds retention limits",
         {| world := w; trace := trace e |})
    end.

(** Pass 2: Execute actions. *)
Fixpoint executeActions (client : Client W) (repoName : string)
    (policy : RetentionPolicy.t) (keptDigests : gmap string bool)
    (decisions : list tagDecision) (e : Env W)
  : list RetentionLog.t * Env W :=
  match decisions with
  | [] => ([], e)
  | d :: rest =>
      let '(l, e) := executeAction client repoName policy keptDigests d e in
      let '(ls, e) :=
        executeActions client repoName policy keptDigests rest e in
      (l :: ls, e)
  end.

(** The entry of a tag that is not deleted. *)
Definition logOf (repoName : string) (im : imageInfo.t)
    (action reason : string) : RetentionLog.t :=
  RetentionLog.mk repoName (imageInfo.Tag im) (imageInfo.Digest im)
    (imageInfo.Created im) action reason.

(** The decisions for which pass 2 calls [DeleteManifest]. *)
Definition toDelete (policy : RetentionPolicy.t)
    (keptDigests : gmap string bool) (d : tagDecision) : bool :=
  negb (keep d) && negb (isKept keptDigests (imageInfo.Digest (img d)))
  && negb (RetentionPolicy.DryRun policy).

(** Either fetch of the goroutine for tag [t] returns an error. *)
Definition fetchFails (client : Client W) (w : W) (repoName t : string)
  : Prop :=
  (exists msg, GetImageCreated client w repoName t = Err msg)
  \/ (exists msg, GetDigestForTag client w repoName t = Err msg).




(** [arrange] returns the images it is given, in some order. *)
Definition permutes (arrange : list imageInfo.t -> list imageInfo.t) : Prop :=
  forall images, arrange images ≡ₚ images.

(** Two states of a run that differ in log lines only. *)
Definition sameEffects (e1 e2 : Env W) : Prop :=
  world e1 = world e2 /\ deletes (trace e1) = deletes (trace e2).

Section Repository.

(** The goroutines append to [images] in the order in which they
    finish and [sort.Slice] is not stable, so the program fixes the
    order of [images] after the sort only up to ties and scheduling.
    [arrange] stands for "collect, then sort.Slice by Created
    descending" in one call; [sortNewestFirst] below is one such
    function. *)
Variable arrange : list imageInfo.t -> list imageInfo.t.

(** The sorted candidates of a repository. *)
Definition candidates (client : Client W) (w : W) (repoName : string)
    (excludeTagRe : option Regexp) (tags : list string)
  : list imageInfo.t :=
  arrange (fetchImages client w repoName excludeTagRe tags).

(** [processRepository]; [now] is the reading of [time.Now()] taken
    after the sort. *)
Definition processRepository (client : Client W) (repoName : string)
    (policy : RetentionPolicy.t) (now : gotime.Time) (e : Env W)
  : result (list RetentionLog.t) * Env W :=
  match ListTags client (world e) repoName with
  | Err msg => (Err msg, e)
  | Ok tags =>
      if (length tags =? 0)%nat then (Ok [], e)
      else
        let '(excludeTagRe, e) :=
          compileLogged "⚠️ Invalid ExcludeTags regex: "
            (RetentionPolicy.ExcludeTags policy) e in
        let images :=
          candidates client (world e) repoName excludeTagRe tags in
        let '(decisions, keptDigests) :=
          evaluateRules policy now 0 images ∅ in
        let '(logs, e) :=
          executeActions client repoName policy keptDigests decisions e in
        (Ok logs, e)
  end.

End Repository.

(** The loop of [RunRetention] over the repositories; [clock k] is the
    reading of [time.Now()] and [arrangeAt k] the order of the candidates
    while the [k]-th repository is processed. *)
Fixpoint processRepos
    (arrangeAt : nat -> list imageInfo.t -> list imageInfo.t)
    (client : Client W) (policy : RetentionPolicy.t)
    (filterRepoRe excludeRepoRe : option Regexp)
    (clock : nat -> gotime.Time) (k : nat) (repos : list string)
    (e : Env W) : list RetentionLog.t * Env W :=
  match repos with
  | [] => ([], e)
  | repo :: rest =>
      let continue :=
        processRepos arrangeAt client policy filterRepoRe excludeRepoRe
          clock (S k) rest in
      if notNilAnd filterRepoRe (fun re => negb (MatchString re repo))
      then continue e
      else if notNilAnd excludeRepoRe (fun re => MatchString re repo)
      then continue e
      else
        match processRepository (arrangeAt k) client repo policy (clock k) e
        with
        | (Err msg, e) =>
            continue
              (emit (LogLine ("⚠️ Error processing repo " +:+ repo
                              +:+ ": " +:+ msg)) e)
        | (Ok repoLogs, e) =>
            let '(logs, e) := continue e in
            (repoLogs ++ logs, e)
        end
  end.

(** [NewClient] builds the client of a registry connection. *)
Variable NewClient : string -> string -> string -> bool -> Client W.

Definition NewClientFromRegistry (r : Registry.t) : Client W :=
  NewClient (Registry.URL r) (Registry.Username r) (Registry.Password r)
    (Registry.Insecure r).

(** [RunRetention] executes the retention policy for a registry. *)
Definition RunRetention
    (arrangeAt : nat -> list imageInfo.t -> list imageInfo.t)
    (reg : Registry.t) (policy : RetentionPolicy.t)
    (clock : nat -> gotime.Time) (e : Env W)
  : result (list RetentionLog.t) * Env W :=
  let client := NewClientFromRegistry reg in
  match ListRepositories client (world e) with
  | Err msg => (Err ("failed to list repositories: " +:+ msg), e)
  | Ok repos =>
      let '(filterRepoRe, e) :=
        compileLogged "⚠️ Invalid FilterRepos regex: "
          (RetentionPolicy.FilterRepos policy) e in
      let '(excludeRepoRe, e) :=
        compileLogged "⚠️ Invalid ExcludeRepos regex: "
          (RetentionPolicy.ExcludeRepos policy) e in
      let '(logs, e) :=
        processRepos arrangeAt client policy filterRepoRe excludeRepoRe
          clock 0 repos e in
      (Ok logs, e)
  end.

End Retention.

(** ** Reading a log *)

(** The entries that record a [DeleteManifest] call, and the call an
    entry stands for. *)
Definition isDeletion (l : RetentionLog.t) : bool :=
  String.eqb (RetentionLog.Action l) "deleted"
  || String.eqb (RetentionLog.Action l) "error_delete".

Definition deleteCallOf (l : RetentionLog.t) : Event :=
  DeleteCall (RetentionLog.Repository l) (RetentionLog.Digest l).

(** The four values of [Action]. *)
Definition knownAction (l : RetentionLog.t) : Prop :=
  RetentionLog.Action l = "kept" \/ RetentionLog.Action l = "would_delete"
  \/ RetentionLog.Action l = "deleted"
  \/ RetentionLog.Action l = "error_delete".

(** Both fetches of the goroutine for tag [t] succeed. *)
Definition fetched {W : Type} (client : Client W) (w : W)
    (repoName t : string) : bool :=
  match GetImageCreated client w repoName t,
        GetDigestForTag client w repoName t with
  | Ok _, Ok _ => true
  | _, _ => false
  end.

(** The entry that pass 2 writes for a decision. *)
Definition entryOf (repoName : string) (policy : RetentionPolicy.t)
    (keptDigests : gmap string bool) (d : tagDecision) (l : RetentionLog.t)
  : Prop :=
  RetentionLog.Repository l = repoName
  /\ RetentionLog.Tag l = imageInfo.Tag (img d)
  /\ RetentionLog.Digest l = imageInfo.Digest (img d)
  /\ RetentionLog.Created l = imageInfo.Created (img d)
  /\ knownAction l
  /\ isDeletion l = toDelete policy keptDigests d.

(** An entry [lp] of a dry run announces the entry [lq] of a run that
    deletes: the two name the same image, and either [lp] says
    "would_delete" where [lq] records a deletion, or both are the same
    "kept" entry. *)
Definition previews (lp lq : RetentionLog.t) : Prop :=
  RetentionLog.Repository lp = RetentionLog.Repository lq
  /\ RetentionLog.Tag lp = RetentionLog.Tag lq
  /\ RetentionLog.Digest lp = RetentionLog.Digest lq
  /\ RetentionLog.Created lp = RetentionLog.Created lq
  /\ ((RetentionLog.Action lp = "would_delete" /\ isDeletion lq = true)
      \/ (RetentionLog.Action lp = "kept" /\ lq = lp)).

(** A repository of the listing that passes both repository filters. *)
Definition inScope `{RegexpPkg} (policy : RetentionPolicy.t)
    (repos : list string) (repo : string) : Prop :=
  In repo repos
  /\ (forall re, compiled (RetentionPolicy.FilterRepos policy) = Some re ->
        MatchString re repo = true)
  /\ (forall re, compiled (RetentionPolicy.ExcludeRepos policy) = Some re ->
        MatchString re repo = false).

End registry.


(** ** Package database: the tables the scheduler works on *)
Module database.
Import models.

(** The state behind [db.conn]: the rows of the three tables, the
    AUTOINCREMENT counter of [vuln_scans], and [faults], the outcomes of
    the SQL statements still to come ([Some msg]: the driver reports
    [msg]); once the list is used up every statement succeeds. Rows hold
    values of the column types, so [rows.Scan] succeeds on each of them,
    and a stored time is read back as it was written. The progress lines
    that [SaveScan] prints with [fmt.Printf] are left out. *)
Record DB : Type := {
  registries : list Registry.t;
  scan_policies : list ScanPolicy.t;
  vuln_scans : list VulnerabilityScan.t;
  vuln_scans_seq : Z;
  faults : list (option string) }.

(** One [Query], [QueryRow] or [Exec] on the connection. *)
Definition statement (db : DB) : option string * DB :=
  match faults db with
  | [] => (None, db)
  | f :: fs =>
      (f, {| registries := registries db;
             scan_policies := scan_policies db;
             vuln_scans := vuln_scans db;
             vuln_scans_seq := vuln_scans_seq db;
             faults := fs |})
  end.

(** [SELECT ... FROM scan_policies WHERE enabled=1]. *)
Definition ListEnabledScanPolicies (db : DB)
  : result (list ScanPolicy.t) * DB :=
  match statement db with
  | (Some msg, db) => (Err msg, db)
  | (None, db) => (Ok (List.filter ScanPolicy.Enabled (scan_policies db)), db)
  end.

Definition setRunTime (id : Z) (lastRun nextRun : gotime.Time)
    (p : ScanPolicy.t) : ScanPolicy.t :=
  if ScanPolicy.ID p =? id then
    ScanPolicy.mk (ScanPolicy.ID p) (ScanPolicy.RegistryID p)
      (ScanPolicy.Enabled p) (ScanPolicy.IntervalHours p)
      nextRun lastRun
      (ScanPolicy.FilterRepos p) (ScanPolicy.FilterTags p)
  else p.

(** [UPDATE scan_policies SET last_run_at=?, next_run_at=? WHERE id=?]. *)
Definition UpdatePolicyRunTime (db : DB) (id : Z)
    (lastRun nextRun : gotime.Time) : option string * DB :=
  match statement db with
  | (Some msg, db) => (Some msg, db)
  | (None, db) =>
      (None, {| registries := registries db;
                scan_policies :=
                  List.map (setRunTime id lastRun nextRun) (scan_policies db);
                vuln_scans := vuln_scans db;
                vuln_scans_seq := vuln_scans_seq db;
                faults := faults db |})
  end.

(** [SELECT ... FROM registries WHERE id = ?]. *)
Definition GetRegistry (db : DB) (id : Z) : result Registry.t * DB :=
  match statement db with
  | (Some msg, db) => (Err msg, db)
  | (None, db) =>
      match List.find (fun r => Registry.ID r =? id) (registries db) with
      | Some r => (Ok r, db)
      | None => (Err "sql: no rows in result set", db)
      end
  end.

Definition sameImage (s r : VulnerabilityScan.t) : bool :=
  (VulnerabilityScan.RegistryID r =? VulnerabilityScan.RegistryID s)
  && String.eqb (VulnerabilityScan.Repository r)
       (VulnerabilityScan.Repository s)
  && String.eqb (VulnerabilityScan.Tag r) (VulnerabilityScan.Tag s).

Definition withID (id : Z) (s : VulnerabilityScan.t) : VulnerabilityScan.t :=
  VulnerabilityScan.mk id
    (VulnerabilityScan.RegistryID s) (VulnerabilityScan.Repository s)
    (VulnerabilityScan.Tag s) (VulnerabilityScan.Digest s)
    (VulnerabilityScan.Status s) (VulnerabilityScan.Summary s)
    (VulnerabilityScan.Report s) (VulnerabilityScan.ScannedAt s).

(** [UPDATE vuln_scans SET digest=?, status=?, summary=?, report=?,
    scanned_at=? WHERE id=?] on one row. *)
Definition updateScan (id : Z) (s r : VulnerabilityScan.t)
  : VulnerabilityScan.t :=
  if VulnerabilityScan.ID r =? id then
    VulnerabilityScan.mk (VulnerabilityScan.ID r)
      (VulnerabilityScan.RegistryID r) (VulnerabilityScan.Repository r)
      (VulnerabilityScan.Tag r) (VulnerabilityScan.Digest s)
      (VulnerabilityScan.Status s) (VulnerabilityScan.Summary s)
      (VulnerabilityScan.Report s) (VulnerabilityScan.ScannedAt s)
  else r.

Definition setScans (db : DB) (rows : list VulnerabilityScan.t) (seq : Z)
  : DB :=
  {| registries := registries db;
     scan_policies := scan_policies db;
     vuln_scans := rows;
     vuln_scans_seq := seq;
     faults := faults db |}.

(** [SELECT ... FROM registries ORDER BY created_at DESC]; [listed] puts
    the rows in the order of the result, which the statement fixes up to
    ties of [created_at]. *)
Definition ListRegistries (listed : list Registry.t -> list Registry.t)
    (db : DB) : result (list Registry.t) * DB :=
  match statement db with
  | (Some msg, db) => (Err msg, db)
  | (None, db) => (Ok (listed (registries db)), db)
  end.

(** [SaveScan] saves or updates a scan result; the returned record is
    [*s] after the call (its [ID] is assigned through the pointer). *)
Definition SaveScan (db : DB) (s : VulnerabilityScan.t)
  : option string * VulnerabilityScan.t * DB :=
  match statement db with
  | (Some msg, db) => (Some msg, s, db)
  | (None, db) =>
      match List.find (sameImage s) (vuln_scans db) with
      | Some row =>
          let id := VulnerabilityScan.ID row in
          match statement db with
          | (Some msg, db) => (Some msg, withID id s, db)
          | (None, db) =>
              (None, withID id s,
               setScans db (List.map (updateScan id s) (vuln_scans db))
                 (vuln_scans_seq db))
          end
      | None =>
          match statement db with
          | (Some msg, db) => (Some msg, s, db)
          | (None, db) =>
              let id := vuln_scans_seq db + 1 in
              (None, withID id s,
               setScans db (vuln_scans db ++ [withID id s]) id)
          end
      end
  end.

(** ** The other statements on [vuln_scans] and [scan_policies] *)

Definition hasKey (registryID : Z) (repo tag : string)
    (r : VulnerabilityScan.t) : bool :=
  (VulnerabilityScan.RegistryID r =? registryID)
  && String.eqb (VulnerabilityScan.Repository r) repo
  && String.eqb (VulnerabilityScan.Tag r) tag.

(** [GetScan] returns the latest scan for an image: the first row of
    [SELECT ... FROM vuln_scans WHERE registry_id=? AND repository=? AND
    tag=?], or the error of [QueryRow(...).Scan]. *)
Definition GetScan (db : DB) (registryID : Z) (repo tag : string)
  : result VulnerabilityScan.t * DB :=
  match statement db with
  | (Some msg, db) => (Err msg, db)
  | (None, db) =>
      match List.find (hasKey registryID repo tag) (vuln_scans db) with
      | Some r => (Ok r, db)
      | None => (Err "sql: no rows in result set", db)
      end
  end.

Definition setPolicies (db : DB) (rows : list ScanPolicy.t) : DB :=
  {| registries := registries db;
     scan_policies := rows;
     vuln_scans := vuln_scans db;
     vuln_scans_seq := vuln_scans_seq db;
     faults := faults db |}.

(** [ON CONFLICT(registry_id) DO UPDATE SET enabled, interval_hours,
    next_run_at, filter_repos, filter_tags] on one row. *)
Definition upsertPolicy (p r : ScanPolicy.t) : ScanPolicy.t :=
  if ScanPolicy.RegistryID r =? ScanPolicy.RegistryID p then
    ScanPolicy.mk (ScanPolicy.ID r) (ScanPolicy.RegistryID r)
      (ScanPolicy.Enabled p) (ScanPolicy.IntervalHours p)
      (ScanPolicy.NextRunAt p) (ScanPolicy.LastRunAt r)
      (ScanPolicy.FilterRepos p) (ScanPolicy.FilterTags p)
  else r.

(** [SaveScanPolicy] creates or updates a policy; [rowid] is the id the
    engine gives to a row it inserts. *)
Definition SaveScanPolicy (rowid : Z) (db : DB) (p : ScanPolicy.t)
  : option string * DB :=
  match statement db with
  | (Some msg, db) => (Some msg, db)
  | (None, db) =>
      if existsb
           (fun r => ScanPolicy.RegistryID r =? ScanPolicy.RegistryID p)
           (scan_policies db)
      then (None, setPolicies db (List.map (upsertPolicy p) (scan_policies db)))
      else
        (None,
         setPolicies db
           (scan_policies db
            ++ [ScanPolicy.mk rowid (ScanPolicy.RegistryID p)
                  (ScanPolicy.Enabled p) (ScanPolicy.IntervalHours p)
                  (ScanPolicy.NextRunAt p) (ScanPolicy.LastRunAt p)
                  (ScanPolicy.FilterRepos p) (ScanPolicy.FilterTags p)]))
  end.

(** [GetScanPolicy] returns the policy for a registry, or the default
    [{RegistryID: registryID, IntervalHours: 24, FilterTags: "latest"}]
    if not set. *)
Definition GetScanPolicy (db : DB) (registryID : Z)
  : result ScanPolicy.t * DB :=
  match statement db with
  | (Some msg, db) => (Err msg, db)
  | (None, db) =>
      match List.find (fun r => ScanPolicy.RegistryID r =? registryID)
              (scan_policies db) with
      | Some r => (Ok r, db)
      | None =>
          (Ok (ScanPolicy.mk 0 registryID false 24 0 0 EmptyString "latest"),
           db)
      end
  end.

(** Each image has at most one row, ids are unique and none exceeds the
    AUTOINCREMENT counter. *)
Definition scanKeyOf (r : VulnerabilityScan.t) : Z * string * string :=
  (VulnerabilityScan.RegistryID r, VulnerabilityScan.Repository r,
   VulnerabilityScan.Tag r).

Definition scansWellFormed (db : DB) : Prop :=
  List.NoDup (List.map scanKeyOf (vuln_scans db))
  /\ List.NoDup (List.map VulnerabilityScan.ID (vuln_scans db))
  /\ forall r, In r (vuln_scans db) ->
       VulnerabilityScan.ID r <= vuln_scans_seq db.

(** ** The table [retention_policies] *)

(** The connection state together with the rows of [retention_policies];
    [last_run_at] is the zero time while the column is NULL. *)
Record PolicyDB : Type := {
  conn : DB;
  retention_policies : list RetentionPolicy.t }.

Definition withConn (pdb : PolicyDB) (db : DB) : PolicyDB :=
  {| conn := db; retention_policies := retention_policies pdb |}.

(** The policy returned when the registry has no row. *)
Definition defaultRetentionPolicy (registryID : Z) : RetentionPolicy.t :=
  RetentionPolicy.mk 0 registryID 5 0 true 0 EmptyString EmptyString
    "^latest$|^main$|^master$".

(** [GetRetentionPolicy] retrieves the retention policy for a registry. *)
Definition GetRetentionPolicy (pdb : PolicyDB) (registryID : Z)
  : result RetentionPolicy.t * PolicyDB :=
  match statement (conn pdb) with
  | (Some msg, db) => (Err msg, withConn pdb db)
  | (None, db) =>
      match List.find
              (fun r => RetentionPolicy.RegistryID r =? registryID)
              (retention_policies pdb) with
      | Some r => (Ok r, withConn pdb db)
      | None => (Ok (defaultRetentionPolicy registryID), withConn pdb db)
      end
  end.

(** [ON CONFLICT(registry_id) DO UPDATE SET keep_last_count, keep_days,
    dry_run, filter_repos, exclude_repos, exclude_tags] on one row. *)
Definition upsertRetention (p r : RetentionPolicy.t) : RetentionPolicy.t :=
  if RetentionPolicy.RegistryID r =? RetentionPolicy.RegistryID p then
    RetentionPolicy.mk (RetentionPolicy.ID r) (RetentionPolicy.RegistryID r)
      (RetentionPolicy.KeepLastCount p) (RetentionPolicy.KeepDays p)
      (RetentionPolicy.DryRun p) (RetentionPolicy.LastRunAt r)
      (RetentionPolicy.FilterRepos p) (RetentionPolicy.ExcludeRepos p)
      (RetentionPolicy.ExcludeTags p)
  else r.

(** [SaveRetentionPolicy] saves or updates a retention policy; [rowid] is
    the id the engine gives to a row it inserts. *)
Definition SaveRetentionPolicy (rowid : Z) (pdb : PolicyDB)
    (p : RetentionPolicy.t) : option string * PolicyDB :=
  match statement (conn pdb) with
  | (Some msg, db) => (Some msg, withConn pdb db)
  | (None, db) =>
      if existsb
           (fun r => RetentionPolicy.RegistryID r
                     =? RetentionPolicy.RegistryID p)
           (retention_policies pdb)
      then
        (None,
         {| conn := db;
            retention_policies :=
              List.map (upsertRetention p) (retention_policies pdb) |})
      else
        (None,
         {| conn := db;
            retention_policies :=
              retention_policies pdb
              ++ [RetentionPolicy.mk rowid (RetentionPolicy.RegistryID p)
                    (RetentionPolicy.KeepLastCount p)
                    (RetentionPolicy.KeepDays p) (RetentionPolicy.DryRun p)
                    0 (RetentionPolicy.FilterRepos p)
                    (RetentionPolicy.ExcludeRepos p)
                    (RetentionPolicy.ExcludeTags p)] |})
  end.

Definition setLastRun (registryID : Z) (stamp : gotime.Time)
    (r : RetentionPolicy.t) : RetentionPolicy.t :=
  if RetentionPolicy.RegistryID r =? registryID then
    RetentionPolicy.mk (RetentionPolicy.ID r) (RetentionPolicy.RegistryID r)
      (RetentionPolicy.KeepLastCount r) (RetentionPolicy.KeepDays r)
      (RetentionPolicy.DryRun r) stamp
      (RetentionPolicy.FilterRepos r) (RetentionPolicy.ExcludeRepos r)
      (RetentionPolicy.ExcludeTags r)
  else r.

(** [UPDATE retention_policies SET last_run_at = CURRENT_TIMESTAMP WHERE
    registry_id = ?]; [stamp] is the engine's CURRENT_TIMESTAMP. *)
Definition UpdateRetentionLastRun (pdb : PolicyDB) (registryID : Z)
    (stamp : gotime.Time) : option string * PolicyDB :=
  match statement (conn pdb) with
  | (Some msg, db) => (Some msg, withConn pdb db)
  | (None, db) =>
      (None,
       {| conn := db;
          retention_policies :=
            List.map (setLastRun registryID stamp)
              (retention_policies pdb) |})
  end.

End database.

(** ** Package tasks: the scan scheduler *)
Module tasks.
Import models database.

Record ScanJob : Type := {
  RegistryURL : string; RegistryID : Z; Repo : string; Tag : string }.

(** What the scheduler does to the outside, in program order. *)
Inductive Event : Type :=
| LogLine (line : string)
| UpdatePolicyRunTimeCall (id : Z) (lastRun nextRun : gotime.Time)
| GoTriggerPolicy (p : ScanPolicy.t)
| Send (job : ScanJob)
| SaveScanCall (s : VulnerabilityScan.t)
| ScanImageCall (registryURL repo tag : string).

(** [p.NextRunAt.IsZero() || now.After(p.NextRunAt)]. *)
Definition isDue (now : gotime.Time) (p : ScanPolicy.t) : bool :=
  gotime.IsZero (ScanPolicy.NextRunAt p)
  || gotime.After now (ScanPolicy.NextRunAt p).

(** [interval := p.IntervalHours; if interval < 1 { interval = 24 }]. *)
Definition intervalOf (p : ScanPolicy.t) : Z :=
  if ScanPolicy.IntervalHours p <? 1 then 24 else ScanPolicy.IntervalHours p.

(** [next := now.Add(time.Duration(interval) * time.Hour)]: the product is
    a 64-bit multiplication. *)
Definition nextRun (now : gotime.Time) (p : ScanPolicy.t) : gotime.Time :=
  gotime.Add now (gotime.wrap64 (intervalOf p * gotime.Hour)).

(** The loop of [checkSchedules] over the loaded policies. *)
Fixpoint checkLoop (now : gotime.Time) (policies : list ScanPolicy.t)
    (db : DB) : DB * list Event :=
  match policies with
  | [] => (db, [])
  | p :: rest =>
      if isDue now p then
        let next := nextRun now p in
        let '(_, db) := UpdatePolicyRunTime db (ScanPolicy.ID p) now next in
        let '(db, evs) := checkLoop now rest db in
        (db,
         LogLine ("⏰ Triggering scheduled scan for registry "
                  +:+ fmt.itoa (ScanPolicy.RegistryID p))
         :: UpdatePolicyRunTimeCall (ScanPolicy.ID p) now next
         :: GoTriggerPolicy p
         :: evs)
      else checkLoop now rest db
  end.

(** [checkSchedules] checks DB for due policies; [now] is the reading of
    [time.Now()]. *)
Definition checkSchedules (now : gotime.Time) (db : DB) : DB * list Event :=
  match ListEnabledScanPolicies db with
  | (Err msg, db) => (db, [LogLine ("Scheduler DB Error: " +:+ msg)])
  | (Ok policies, db) => checkLoop now policies db
  end.

(** The policies whose dispatch a tick started. *)
Definition triggered (evs : list Event) : list ScanPolicy.t :=
  omap (fun ev => match ev with GoTriggerPolicy p => Some p | _ => None end)
    evs.

(** The largest [IntervalHours] whose product with [time.Hour] fits a
    [Duration]. *)
Definition maxIntervalHours : Z := 2562047.

(** In the events of a tick every dispatch comes right after the call
    that stores the run times of the policy. *)
Definition storedBeforeDispatch (now : gotime.Time) (evs : list Event)
  : Prop :=
  forall pre p post,
    evs = pre ++ GoTriggerPolicy p :: post ->
    exists pre',
      pre = pre' ++ [UpdatePolicyRunTimeCall (ScanPolicy.ID p) now
                       (nextRun now p)].

(** The row after the updates for the policies [ps], in order. *)
Definition stamped (now : gotime.Time) (ps : list ScanPolicy.t)
    (q : ScanPolicy.t)
  : ScanPolicy.t :=
  fold_left
    (fun q p => setRunTime (ScanPolicy.ID p) now (nextRun now p) q) ps q.

Section Dispatch.
Context {W : Type} `{RegexpPkg}.
Variable NewClient : string -> string -> string -> bool -> registry.Client W.

(** Each [select] between the send on [s.jobChan] and
    [time.After(2 * time.Second)] is represented by its outcome:
    [ready n] tells whether the [n]-th send of this dispatch went through
    before the timer fired. *)
Variable ready : nat -> bool.

Definition mkJob (reg : Registry.t) (repoName tag : string) : ScanJob :=
  {| RegistryURL := Registry.URL reg; RegistryID := Registry.ID reg;
     Repo := repoName; Tag := tag |}.

(** The inner loop of [triggerPolicy] over the tags of a repository. *)
Fixpoint queueTags (reg : Registry.t) (repoName : string)
    (tags : list string) (n : nat) (count : Z)
  : nat * Z * list Event :=
  match tags with
  | [] => (n, count, [])
  | tag :: rest =>
      if ready n then
        let '(n', count', evs) :=
          queueTags reg repoName rest (S n) (count + 1) in
        (n', count', Send (mkJob reg repoName tag) :: evs)
      else
        let '(n', count', evs) := queueTags reg repoName rest (S n) count in
        (n', count',
         LogLine ("⚠️ Scheduler job queue full, skipping "
                  +:+ repoName +:+ ":" +:+ tag) :: evs)
  end.

(** The outer loop of [triggerPolicy] over the repositories. *)
Fixpoint queueRepos (client : registry.Client W) (w : W) (reg : Registry.t)
    (filterRe : option Regexp) (repos : list string) (n : nat) (count : Z)
  : Z * list Event :=
  match repos with
  | [] => (count, [])
  | repoName :: rest =>
      if registry.notNilAnd filterRe (fun re => negb (MatchString re repoName))
      then queueRepos client w reg filterRe rest n count
      else
        match registry.ListTags client w repoName with
        | Err _ => queueRepos client w reg filterRe rest n count
        | Ok tags =>
            let '(n, count, evs) := queueTags reg repoName tags n count in
            let '(count, evs') :=
              queueRepos client w reg filterRe rest n count in
            (count, evs ++ evs')
        end
  end.

(** [triggerPolicy], run against the registry state [w]. *)
Definition triggerPolicy (p : ScanPolicy.t) (w : W) (db : DB)
  : DB * list Event :=
  match GetRegistry db (ScanPolicy.RegistryID p) with
  | (Err _, db) =>
      (db, [LogLine ("❌ Scheduler: Registry "
                     +:+ fmt.itoa (ScanPolicy.RegistryID p)
                     +:+ " not found")])
  | (Ok reg, db) =>
      let client :=
        NewClient (Registry.URL reg) (Registry.Username reg)
          (Registry.Password reg) (Registry.Insecure reg) in
      match registry.ListRepositories client w with
      | Err msg =>
          (db, [LogLine ("❌ Scheduler: Failed to list repos for registry "
                         +:+ fmt.itoa (ScanPolicy.RegistryID p)
                         +:+ ": " +:+ msg)])
      | Ok repos =>
          let compiled :=
            if String.eqb (ScanPolicy.FilterRepos p) EmptyString then Ok None
            else match Compile (ScanPolicy.FilterRepos p) with
                 | Ok re => Ok (Some re)
                 | Err msg => Err msg
                 end in
          match compiled with
          | Err msg =>
              (db, [LogLine ("⚠️ Scheduler: Invalid filter regex for policy "
                             +:+ fmt.itoa (ScanPolicy.ID p)
                             +:+ ": " +:+ msg)])
          | Ok filterRe =>
              let '(count, evs) :=
                queueRepos client w reg filterRe repos 0 0 in
              (db, evs ++
                   [LogLine ("✅ Scheduler queued " +:+ fmt.itoa count
                             +:+ " images for registry "
                             +:+ fmt.itoa (ScanPolicy.RegistryID p))])
          end
      end
  end.

(** The jobs a dispatch put on the queue. *)
Definition sent (evs : list Event) : list ScanJob :=
  omap (fun ev => match ev with Send j => Some j | _ => None end) evs.

End Dispatch.

Section Worker.
Context {X : Type}.

(** [scanner.ScanImage] runs an external tool; [X] is whatever that tool
    depends on. *)
Variable ScanImage :
  X -> string -> string -> string -> result (string * string) * X.

Definition dquote : string := String (ascii_of_nat 34) EmptyString.

(** [scan.Status = "failed";
     scan.Report = fmt.Sprintf(`{"error": "%s"}`, err.Error())] and
    [scan.Status = "completed"; scan.Report = report;
     scan.Summary = summary], followed by [scan.ScannedAt = time.Now()]. *)
Definition withOutcome (r : result (string * string)) (t : gotime.Time)
    (scan : VulnerabilityScan.t) : VulnerabilityScan.t :=
  let '(status, summary, report) :=
    match r with
    | Err msg =>
        ("failed", VulnerabilityScan.Summary scan,
         "{" +:+ dquote +:+ "error" +:+ dquote +:+ ": " +:+ dquote
             +:+ msg +:+ dquote +:+ "}")
    | Ok (report, summary) => ("completed", summary, report)
    end in
  VulnerabilityScan.mk (VulnerabilityScan.ID scan)
    (VulnerabilityScan.RegistryID scan) (VulnerabilityScan.Repository scan)
    (VulnerabilityScan.Tag scan) (VulnerabilityScan.Digest scan)
    status summary report t.

(** The record created for a job: [RegistryID], [Repository] and [Tag]
    of the job, [Status: "scanning"], [ScannedAt: time.Now()]. *)
Definition newScan (job : ScanJob) (t : gotime.Time) : VulnerabilityScan.t :=
  VulnerabilityScan.mk 0 (RegistryID job) (Repo job) (Tag job)
    EmptyString "scanning" EmptyString EmptyString t.

(** The body of the worker loop for one job; [t1] and [t2] are the two
    readings of [time.Now()]. *)
Definition workerJob (job : ScanJob) (t1 t2 : gotime.Time) (st : DB * X)
  : DB * X * list Event :=
  let '(db, x) := st in
  let scan := newScan job t1 in
  match SaveScan db scan with
  | (Some msg, _, db) =>
      (db, x, [SaveScanCall scan; LogLine ("Worker DB Error: " +:+ msg)])
  | (None, scan', db) =>
      let '(r, x) := ScanImage x (RegistryURL job) (Repo job) (Tag job) in
      let final := withOutcome r t2 scan' in
      match SaveScan db final with
      | (Some msg, _, db) =>
          (db, x,
           [SaveScanCall scan;
            ScanImageCall (RegistryURL job) (Repo job) (Tag job);
            SaveScanCall final;
            LogLine ("Worker DB Error saving result: " +:+ msg)])
      | (None, _, db) =>
          (db, x,
           [SaveScanCall scan;
            ScanImageCall (RegistryURL job) (Repo job) (Tag job);
            SaveScanCall final])
      end
  end.

(** [for job := range s.jobChan]: the jobs this worker receives, in
    order; the [k]-th job reads the clock at [clock (2k)] and
    [clock (2k+1)]. *)
Fixpoint workerLoop (clock : nat -> gotime.Time) (k : nat)
    (jobs : list ScanJob) (st : DB * X) : DB * X * list Event :=
  match jobs with
  | [] => (st, [])
  | job :: rest =>
      let '(st, evs) :=
        workerJob job (clock (2 * k)%nat) (clock (2 * k + 1)%nat) st in
      let '(st, evs') := workerLoop clock (S k) rest st in
      (st, evs ++ evs')
  end.

Definition worker (id : Z) (clock : nat -> gotime.Time)
    (jobs : list ScanJob) (st : DB * X) : DB * X * list Event :=
  let '(st, evs) := workerLoop clock 0 jobs st in
  (st, LogLine ("👷 Scan Worker " +:+ fmt.itoa id +:+ " started") :: evs).

End Worker.

(** ** The ticker and what a dispatch may queue *)




(** The jobs among [jobs] whose send went through, the first send being
    the [n]-th of the dispatch. *)
Fixpoint delivered (ready : nat -> bool) (n : nat) (jobs : list ScanJob)
  : list ScanJob :=
  match jobs with
  | [] => []
  | job :: rest =>
      if ready n then job :: delivered ready (S n) rest
      else delivered ready (S n) rest
  end.

(** Two rows that differ in [last_run_at] and [next_run_at] only. *)
Definition sameSchedule (p q : ScanPolicy.t) : Prop :=
  ScanPolicy.ID q = ScanPolicy.ID p
  /\ ScanPolicy.RegistryID q = ScanPolicy.RegistryID p
  /\ ScanPolicy.Enabled q = ScanPolicy.Enabled p
  /\ ScanPolicy.IntervalHours q = ScanPolicy.IntervalHours p
  /\ ScanPolicy.FilterRepos q = ScanPolicy.FilterRepos p
  /\ ScanPolicy.FilterTags q = ScanPolicy.FilterTags p.

Section Eligible.
Context {W : Type} `{RegexpPkg}.

(** The jobs of the listed tags of the repositories that pass the
    filter, in the order of the two loops of [triggerPolicy]. *)
Definition eligibleJobs (client : registry.Client W) (w : W)
    (reg : Registry.t) (filterRe : option Regexp) (repos : list string)
  : list ScanJob :=
  flat_map
    (fun repoName =>
       if registry.notNilAnd filterRe
            (fun re => negb (MatchString re repoName))
       then []
       else match registry.ListTags client w repoName with
            | Err _ => []
            | Ok tags => List.map (mkJob reg repoName) tags
            end)
    repos.

End Eligible.

End tasks.


(** ** Package scanner: the summary of a trivy report *)
Module scanner.

(** Summary counts per severity. *)
Record SeveritySummary : Type := {
  Critical : Z; High : Z; Medium : Z; Low : Z; Unknown : Z }.

Record TrivyVulnerability : Type := {
  VulnerabilityID : string; PkgName : string; InstalledVersion : string;
  FixedVersion : string; Severity : string; Title : string;
  Description : string }.

Record TrivyResult : Type := {
  Target : string; Vulnerabilities : list TrivyVulnerability }.

Record TrivyReport : Type := { Results : list TrivyResult }.

(** The [switch v.Severity] of [parseSummary]. *)
Definition tally (sum : SeveritySummary) (v : TrivyVulnerability)
  : SeveritySummary :=
  if String.eqb (Severity v) "CRITICAL" then
    {| Critical := Critical sum + 1; High := High sum; Medium := Medium sum;
       Low := Low sum; Unknown := Unknown sum |}
  else if String.eqb (Severity v) "HIGH" then
    {| Critical := Critical sum; High := High sum + 1; Medium := Medium sum;
       Low := Low sum; Unknown := Unknown sum |}
  else if String.eqb (Severity v) "MEDIUM" then
    {| Critical := Critical sum; High := High sum; Medium := Medium sum + 1;
       Low := Low sum; Unknown := Unknown sum |}
  else if String.eqb (Severity v) "LOW" then
    {| Critical := Critical sum; High := High sum; Medium := Medium sum;
       Low := Low sum + 1; Unknown := Unknown sum |}
  else
    {| Critical := Critical sum; High := High sum; Medium := Medium sum;
       Low := Low sum; Unknown := Unknown sum + 1 |}.

(** The two loops over [report.Results] and [res.Vulnerabilities]. *)
Definition summarize (report : TrivyReport) : SeveritySummary :=
  fold_left
    (fun sum res => fold_left tally (Vulnerabilities res) sum)
    (Results report)
    {| Critical := 0; High := 0; Medium := 0; Low := 0; Unknown := 0 |}.

Definition quoted (s : string) : string :=
  String (ascii_of_nat 34) s +:+ String (ascii_of_nat 34) EmptyString.

(** [json.Marshal(sum)]: the fields in the order of the struct. *)
Definition marshal (sum : SeveritySummary) : string :=
  "{" +:+ quoted "Critical" +:+ ":" +:+ fmt.itoa (Critical sum)
  +:+ "," +:+ quoted "High" +:+ ":" +:+ fmt.itoa (High sum)
  +:+ "," +:+ quoted "Medium" +:+ ":" +:+ fmt.itoa (Medium sum)
  +:+ "," +:+ quoted "Low" +:+ ":" +:+ fmt.itoa (Low sum)
  +:+ "," +:+ quoted "Unknown" +:+ ":" +:+ fmt.itoa (Unknown sum)
  +:+ "}".

Section Parse.

(** [json.Unmarshal([]byte(jsonStr), &report)]. *)
Variable Unmarshal : string -> result TrivyReport.

Definition parseSummary (jsonStr : string) : result string :=
  match Unmarshal jsonStr with
  | Err msg => Err msg
  | Ok report => Ok (marshal (summarize report))
  end.

End Parse.

(** The number of vulnerabilities of a report with the severity [sev]. *)
Definition countSeverity (sev : string) (report : TrivyReport) : Z :=
  Z.of_nat
    (length
       (List.filter (fun v => String.eqb (Severity v) sev)
          (flat_map Vulnerabilities (Results report)))).

(** The number of vulnerabilities of a report. *)
Definition findings (report : TrivyReport) : Z :=
  Z.of_nat (length (flat_map Vulnerabilities (Results report))).

Definition total (sum : SeveritySummary) : Z :=
  Critical sum + High sum + Medium sum + Low sum + Unknown sum.

End scanner.

(** ** Package handlers: the retention endpoint *)
Module handlers.
Import models database.

(** What the handler writes: [successResponse] with the log, or
    [errorResponse] with a status and a message. *)
Inductive Response (A : Type) : Type :=
| successResponse (data : A)
| errorResponse (status : Z) (err : string).
Arguments successResponse {A} data.
Arguments errorResponse {A} status err.

Definition withDryRun (dryRun : bool) (p : RetentionPolicy.t)
  : RetentionPolicy.t :=
  RetentionPolicy.mk (RetentionPolicy.ID p) (RetentionPolicy.RegistryID p)
    (RetentionPolicy.KeepLastCount p) (RetentionPolicy.KeepDays p)
    dryRun (RetentionPolicy.LastRunAt p)
    (RetentionPolicy.FilterRepos p) (RetentionPolicy.ExcludeRepos p)
    (RetentionPolicy.ExcludeTags p).

(** Override dry_run if provided in query param. *)
Definition overrideDryRun (dryRunStr : string) (p : RetentionPolicy.t)
  : RetentionPolicy.t :=
  if String.eqb dryRunStr "true" then withDryRun true p
  else if String.eqb dryRunStr "false" then withDryRun false p
  else p.

Section RunRetention.
Context {W : Type} `{RegexpPkg}.
Variable NewClient : string -> string -> string -> bool -> registry.Client W.

(** [strconv.ParseInt(idStr, 10, 64)]. *)
Variable ParseInt : string -> result Z.

(** [RunRetention] executes the retention policy: [idStr] is the path
    value "id", [dryRunStr] the query parameter "dry_run", [stamp] the
    CURRENT_TIMESTAMP of the update of [last_run_at]. *)
Definition RunRetention (idStr dryRunStr : string)
    (arrangeAt : nat -> list registry.imageInfo.t
                 -> list registry.imageInfo.t)
    (clock : nat -> gotime.Time) (stamp : gotime.Time)
    (st : PolicyDB * registry.Env W)
  : Response (list RetentionLog.t) * (PolicyDB * registry.Env W) :=
  let '(pdb, e) := st in
  match ParseInt idStr with
  | Err _ => (errorResponse 400 "Invalid registry ID", (pdb, e))
  | Ok id =>
      match GetRetentionPolicy pdb id with
      | (Err _, pdb) => (errorResponse 500 "Failed to load policy", (pdb, e))
      | (Ok policy, pdb) =>
          let policy := overrideDryRun dryRunStr policy in
          match GetRegistry (conn pdb) id with
          | (Err _, db) =>
              (errorResponse 404 "Registry not found", (withConn pdb db, e))
          | (Ok reg, db) =>
              let pdb := withConn pdb db in
              match registry.RunRetention NewClient arrangeAt reg policy
                      clock e with
              | (Err msg, e) =>
                  (errorResponse 500 ("Retention run failed: " +:+ msg),
                   (pdb, e))
              | (Ok logs, e) =>
                  let pdb :=
                    if RetentionPolicy.DryRun policy then pdb
                    else (UpdateRetentionLastRun pdb id stamp).2 in
                  (successResponse logs, (pdb, e))
              end
          end
      end
  end.

End RunRetention.

(** ** The scan endpoint *)

Record ScanRequest : Type := {
  RegistryID : Z; Repository : string; Tag : string; Digest : string;
  Scanner : string }.

Section TriggerScan.
Context {X : Type}.

(** The two scanners run external tools; [X] is whatever they depend
    on. [mergeScanData] rewrites JSON text. *)
Variable ScanImage ScanImageOSV :
  X -> string -> string -> string -> result (string * string) * X.
Variable mergeScanData : string -> string -> string -> string.
Variable listed : list Registry.t -> list Registry.t.

(** The record a request creates. *)
Definition requested (req : ScanRequest) (t : gotime.Time)
  : VulnerabilityScan.t :=
  VulnerabilityScan.mk 0 (RegistryID req) (Repository req) (Tag req)
    (Digest req) "scanning" EmptyString EmptyString t.

(** [TriggerScan] initiates a vulnerability scan: [body] is the decoded
    request and [t] the reading of [time.Now()]. Next to the response
    and the tables it returns the arguments of the goroutine it starts,
    if it starts one; the response is taken to be written before the
    goroutine changes the record. *)
Definition TriggerScan (body : result ScanRequest) (t : gotime.Time)
    (db : DB)
  : Response VulnerabilityScan.t * DB
    * option (VulnerabilityScan.t * string * string) :=
  match body with
  | Err _ => (errorResponse 400 "Invalid request body", db, None)
  | Ok req =>
      match ListRegistries listed db with
      | (Err _, db) => (errorResponse 500 "Database error", db, None)
      | (Ok registries, db) =>
          match List.find (fun reg => Registry.ID reg =? RegistryID req)
                  registries with
          | None => (errorResponse 404 "Registry not found", db, None)
          | Some reg =>
              match SaveScan db (requested req t) with
              | (Some msg, _, db) =>
                  (errorResponse 500
                     ("Failed to create scan record: " +:+ msg), db, None)
              | (None, scan, db) =>
                  (successResponse scan, db,
                   Some (scan, Registry.URL reg, Scanner req))
              end
          end
      end
  end.

(** The key under which the goroutine files the result. *)
Definition scannerKey (scannerType : string) : string :=
  if String.eqb scannerType "osv" then scannerType
  else if String.eqb scannerType EmptyString then "trivy"
  else scannerType.

Definition errorJson (msg : string) : string :=
  "{" +:+ tasks.dquote +:+ "error" +:+ tasks.dquote +:+ ": "
  +:+ tasks.dquote +:+ msg +:+ tasks.dquote +:+ "}".

Definition unknownZero : string :=
  "{" +:+ tasks.dquote +:+ "Unknown" +:+ tasks.dquote +:+ ":0}".

(** The record after the scan, given what [GetScan] returned. *)
Definition merged (r : result (string * string))
    (existing : result VulnerabilityScan.t) (scannerType : string)
    (t : gotime.Time) (s : VulnerabilityScan.t) : VulnerabilityScan.t :=
  let '(existingReport, existingSummary) :=
    match existing with
    | Ok e => (VulnerabilityScan.Report e, VulnerabilityScan.Summary e)
    | Err _ => (EmptyString, EmptyString)
    end in
  let '(status, summary, report) :=
    match r with
    | Err msg =>
        (if negb (String.eqb existingReport EmptyString)
            && negb (String.eqb existingReport "{}")
         then "completed" else "failed",
         mergeScanData existingSummary scannerType unknownZero,
         mergeScanData existingReport scannerType (errorJson msg))
    | Ok (report, summary) =>
        ("completed",
         mergeScanData existingSummary scannerType summary,
         mergeScanData existingReport scannerType report)
    end in
  VulnerabilityScan.mk (VulnerabilityScan.ID s)
    (VulnerabilityScan.RegistryID s) (VulnerabilityScan.Repository s)
    (VulnerabilityScan.Tag s) (VulnerabilityScan.Digest s)
    status summary report t.

(** The goroutine of [TriggerScan]: scan, fetch the existing scan to
    merge, save the result; [t] is its reading of [time.Now()]. It
    returns the record as it is after the last save. *)
Definition scanRoutine (s : VulnerabilityScan.t)
    (regURL scannerType : string) (t : gotime.Time) (st : DB * X)
  : VulnerabilityScan.t * (DB * X) :=
  let '(db, x) := st in
  let '(r, x) :=
    if String.eqb scannerType "osv"
    then ScanImageOSV x regURL (VulnerabilityScan.Repository s)
           (VulnerabilityScan.Tag s)
    else ScanImage x regURL (VulnerabilityScan.Repository s)
           (VulnerabilityScan.Tag s) in
  let '(existing, db) :=
    GetScan db (VulnerabilityScan.RegistryID s)
      (VulnerabilityScan.Repository s) (VulnerabilityScan.Tag s) in
  let '(_, s, db) :=
    SaveScan db (merged r existing (scannerKey scannerType) t s) in
  (s, (db, x)).

End TriggerScan.

End handlers.

(** ** Instances on which the model runs

    One sorting function, a regexp engine for alternatives of literals,
    and a registry held in memory. *)
Module fixtures.
Import models registry.

(** [newerFirst a b]: [a] may precede [b] in a list sorted by [Created]
    descending. *)
Definition newerFirst (a b : imageInfo.t) : Prop :=
  imageInfo.Created b <= imageInfo.Created a.

#[export] Instance newerFirst_dec (a b : imageInfo.t)
  : Decision (newerFirst a b) :=
  Z_le_dec (imageInfo.Created b) (imageInfo.Created a).

(** Fetches finish in the order of the tag list and the sort is stable. *)
Definition sortNewestFirst (images : list imageInfo.t) : list imageInfo.t :=
  merge_sort newerFirst images.

(** A regular expression of the form [a1|...|an] where each [ai] is a
    literal, optionally anchored with [^] and [$]. *)
Record literalAlt : Type := {
  atStart : bool; atEnd : bool; body : string }.

Definition isMeta (c : ascii) : bool :=
  existsb (Ascii.eqb c) (list_ascii_of_string "()[]{}*+?\.^$|").

Fixpoint splitOn (sep : ascii) (s : string) : list string :=
  match s with
  | EmptyString => [EmptyString]
  | String c rest =>
      match splitOn sep rest with
      | [] => [String c EmptyString]
      | cur :: more =>
          if Ascii.eqb c sep then EmptyString :: cur :: more
          else String c cur :: more
      end
  end.

Definition stripStart (s : string) : bool * string :=
  match s with
  | String "^"%char rest => (true, rest)
  | _ => (false, s)
  end.

Definition stripEnd (s : string) : bool * string :=
  match List.rev (list_ascii_of_string s) with
  | "$"%char :: r => (true, string_of_list_ascii (List.rev r))
  | _ => (false, s)
  end.

Definition parseAlt (s : string) : option literalAlt :=
  let '(st, s1) := stripStart s in
  let '(en, s2) := stripEnd s1 in
  if existsb isMeta (list_ascii_of_string s2) then None
  else Some {| atStart := st; atEnd := en; body := s2 |}.

Definition parseAll (pattern : string) : option (list literalAlt) :=
  mapM parseAlt (splitOn "|"%char pattern).

Definition hasSuffix (suffix s : string) : bool :=
  String.prefix (string_of_list_ascii (List.rev (list_ascii_of_string suffix)))
                (string_of_list_ascii (List.rev (list_ascii_of_string s))).

Definition contains (sub s : string) : bool :=
  match sub with
  | EmptyString => true
  | _ => match String.index 0 sub s with Some _ => true | None => false end
  end.

Definition matchAlt (s : string) (a : literalAlt) : bool :=
  match atStart a, atEnd a with
  | true, true => String.eqb (body a) s
  | true, false => String.prefix (body a) s
  | false, true => hasSuffix (body a) s
  | false, false => contains (body a) s
  end.

#[export] Instance literalRegexp : RegexpPkg := {|
  Regexp := list literalAlt;
  Compile pattern :=
    match parseAll pattern with
    | Some alts => Ok alts
    | None => Err ("error parsing regexp: `" +:+ pattern +:+ "`")
    end;
  MatchString re s := existsb (matchAlt s) re
|}.

(** A registry in memory: per repository, the tag listing (or the error
    of listing it); per tag, what the two fetches return. *)
Record tagEntry : Type := {
  name : string;
  created : result gotime.Time;
  digest : result string }.

Definition memRegistry : Type := list (string * result (list tagEntry)).

Definition findRepo (w : memRegistry) (repoName : string)
  : result (list tagEntry) :=
  match List.find (fun r => String.eqb r.1 repoName) w with
  | Some r => r.2
  | None => Err "registry returned status 404: "
  end.

Definition findTag (w : memRegistry) (repoName tag : string)
  : result tagEntry :=
  match findRepo w repoName with
  | Err msg => Err msg
  | Ok entries =>
      match List.find (fun t => String.eqb (name t) tag) entries with
      | Some t => Ok t
      | None => Err "registry returned status 404: "
      end
  end.

Definition hasDigest (d : string) (t : tagEntry) : bool :=
  match digest t with
  | Ok d' => String.eqb d' d
  | Err _ => false
  end.

Definition deleteIn (repoName d : string)
    (r : string * result (list tagEntry)) : string * result (list tagEntry) :=
  match r.2 with
  | Ok entries =>
      if String.eqb r.1 repoName
      then (r.1, Ok (List.filter (fun t => negb (hasDigest d t)) entries))
      else r
  | Err _ => r
  end.

Definition memClient : Client memRegistry := {|
  ListRepositories w := Ok (List.map fst w);
  ListTags w repoName :=
    match findRepo w repoName with
    | Ok entries => Ok (List.map name entries)
    | Err msg => Err msg
    end;
  GetImageCreated w repoName tag :=
    match findTag w repoName tag with
    | Ok t => created t
    | Err msg => Err msg
    end;
  GetDigestForTag w repoName tag :=
    match findTag w repoName tag with
    | Ok t => digest t
    | Err msg => Err msg
    end;
  DeleteManifest w repoName d :=
    match findRepo w repoName with
    | Ok entries =>
        if existsb (hasDigest d) entries
        then (List.map (deleteIn repoName d) w, None)
        else (w, Some "registry returned status 404: ")
    | Err msg => (w, Some msg)
    end
|}.

Definition memNewClient (url username password : string) (insecure : bool)
  : Client memRegistry := memClient.

Definition localRegistry : Registry.t :=
  Registry.mk 1 "local" "http://localhost:5000" EmptyString EmptyString
    false 0 0.

Definition day : Z := 24 * gotime.Hour.

(** An instant in late 2026, in nanoseconds since the zero instant. *)
Definition today : gotime.Time := 739918 * day.

Definition entry (tag : string) (ageDays : Z) (d : string) : tagEntry :=
  {| name := tag; created := Ok (today - ageDays * day); digest := Ok d |}.

Definition policyOf (keepLast keepDays : Z) (dryRun : bool)
    (filterRepos excludeRepos excludeTags : string) : RetentionPolicy.t :=
  RetentionPolicy.mk 1 1 keepLast keepDays dryRun 0
    filterRepos excludeRepos excludeTags.

Definition start (w : memRegistry) : Env memRegistry :=
  {| world := w; trace := [] |}.

(** Five images of one repository, newest first: v5 ... v1. *)
Definition fiveTags : memRegistry :=
  [("app", Ok [entry "v1" 50 "sha256:01"; entry "v2" 40 "sha256:02";
               entry "v3" 30 "sha256:03"; entry "v4" 20 "sha256:04";
               entry "v5" 10 "sha256:05"])].

(** Tag "old" shares its digest with the protected tag "latest". *)
Definition sharedDigest : memRegistry :=
  [("app", Ok [entry "latest" 40 "sha256:aa"; entry "old" 30 "sha256:aa";
               entry "new" 1 "sha256:bb"])].

(** The creation time of "broken" cannot be fetched. *)
Definition brokenTag : memRegistry :=
  [("app", Ok [entry "v1" 50 "sha256:01";
               {| name := "broken"; created := Err "blob fetch failed";
                  digest := Ok "sha256:02" |};
               entry "v3" 30 "sha256:03"])].

Definition emptyDB : database.DB :=
  {| database.registries := [localRegistry];
     database.scan_policies := [];
     database.vuln_scans := [];
     database.vuln_scans_seq := 0;
     database.faults := [] |}.

Definition withPolicies (ps : list ScanPolicy.t) : database.DB :=
  {| database.registries := [localRegistry];
     database.scan_policies := ps;
     database.vuln_scans := [];
     database.vuln_scans_seq := 0;
     database.faults := [] |}.

Definition withFaults (fs : list (option string)) : database.DB :=
  {| database.registries := [localRegistry];
     database.scan_policies := [];
     database.vuln_scans := [];
     database.vuln_scans_seq := 0;
     database.faults := fs |}.

Definition scanPolicyOf (intervalHours : Z) (filterRepos : string)
  : ScanPolicy.t :=
  ScanPolicy.mk 1 1 true intervalHours 0 0 filterRepos "latest".

Definition sharedPolicy : RetentionPolicy.t :=
  policyOf 0 7 false EmptyString EmptyString "^latest$".

Definition noPolicy : RetentionPolicy.t :=
  policyOf 0 0 false EmptyString EmptyString EmptyString.

Definition dryPolicy : RetentionPolicy.t :=
  policyOf 2 0 true EmptyString EmptyString EmptyString.

Definition weekPolicy : RetentionPolicy.t :=
  policyOf 0 7 true EmptyString EmptyString EmptyString.

Definition dailyPolicy : ScanPolicy.t := scanPolicyOf 0 EmptyString.

Definition overflowPolicy : ScanPolicy.t := scanPolicyOf 2562048 EmptyString.


Definition job1 : tasks.ScanJob :=
  {| tasks.RegistryURL := "http://localhost:5000"; tasks.RegistryID := 1;
     tasks.Repo := "app"; tasks.Tag := "v1" |}.

(** A scanner that reports nothing. *)
Definition noScanner (x : unit) (url repo tag : string)
  : result (string * string) * unit :=
  (Ok ("{}", "{}"), x).

(** One image, created a nanosecond less than 171 days ago. *)
Definition almost171 : memRegistry :=
  [("app", Ok [{| name := "old"; created := Ok (today - (171 * day - 1));
                  digest := Ok "sha256:01" |}])].

(** The creation time of "latest" cannot be fetched; its digest can, and
    it is the digest of "v1". *)
Definition sharedWithBroken : memRegistry :=
  [("app", Ok [{| name := "latest"; created := Err "blob fetch failed";
                  digest := Ok "sha256:01" |};
               entry "v1" 50 "sha256:01"; entry "v2" 1 "sha256:02"])].

(** Keep the last two images, for real. *)
Definition lastTwoPolicy : RetentionPolicy.t :=
  policyOf 2 0 false EmptyString EmptyString EmptyString.

(** Three repositories; the policy below is for those whose name
    contains "app" and does not end in "old". *)
Definition threeRepos : memRegistry :=
  [("app", Ok [entry "v1" 50 "sha256:01"; entry "v2" 40 "sha256:02"]);
   ("app-old", Ok [entry "v1" 90 "sha256:0a"; entry "v2" 80 "sha256:0b"]);
   ("lib", Ok [entry "v1" 50 "sha256:11"; entry "v2" 5 "sha256:12"])].

Definition scopedPolicy : RetentionPolicy.t :=
  policyOf 1 0 false "app" "old$" EmptyString.


(** A policy that ran today, and the same policy as a client edits it. *)
Definition ranPolicy : ScanPolicy.t :=
  ScanPolicy.mk 1 1 true 24 (today + 24 * gotime.Hour) today EmptyString
    "latest".

Definition editedPolicy : ScanPolicy.t :=
  ScanPolicy.mk 0 1 true 6 0 0 "^app$" EmptyString.

Definition oneScan : database.DB :=
  {| database.registries := [localRegistry];
     database.scan_policies := [];
     database.vuln_scans :=
       [VulnerabilityScan.mk 1 1 "app" "v1" "sha256:01" "completed" "{}"
          "{}" today];
     database.vuln_scans_seq := 1;
     database.faults := [] |}.

(** The queue is full at the third send. *)
Definition busyAtThird (n : nat) : bool := negb (n =? 2)%nat.

(** A parser of decimal numbers. *)
Definition parseInt (s : string) : result Z :=
  match NilZero.int_of_string s with
  | Some d => Ok (Z.of_int d)
  | None => Err "invalid syntax"
  end.

Definition policyDB (rows : list RetentionPolicy.t) : database.PolicyDB :=
  {| database.conn := emptyDB; database.retention_policies := rows |}.

Definition minute : Z := 60000000000.

(** app:v1 has a stored report. *)
Definition scannedBefore : database.DB :=
  {| database.registries := [localRegistry];
     database.scan_policies := [];
     database.vuln_scans :=
       [VulnerabilityScan.mk 1 1 "app" "v1" "sha256:01" "completed"
          "[2]" "[1]" today];
     database.vuln_scans_seq := 1;
     database.faults := [] |}.

Definition scanRequest : handlers.ScanRequest :=
  {| handlers.RegistryID := 1; handlers.Repository := "app";
     handlers.Tag := "v1"; handlers.Digest := "sha256:01";
     handlers.Scanner := "osv" |}.

(** A stand-in for the merge: the three texts side by side. *)
Definition sideBySide (original key new : string) : string :=
  original +:+ "|" +:+ key +:+ "|" +:+ new.

(** A scanner that fails. *)
Definition brokenScanner (x : unit) (url repo tag : string)
  : result (string * string) * unit :=
  (Err "exit status 1", x).

End fixtures.


(** * Properties of the retention engine *)

Section RetentionFacts.
Import models registry.
Context {W : Type} `{RegexpPkg}.

Implicit Types (client : Client W) (policy : RetentionPolicy.t).
Implicit Types (e : Env W) (d : tagDecision) (im : imageInfo.t).
Implicit Types (keptDigests : gmap string bool).
Implicit Types (arrange : list imageInfo.t -> list imageInfo.t).
Implicit Types (arrangeAt : nat -> list imageInfo.t -> list imageInfo.t).

Lemma compileLogged_fst prefix pattern e :
  (compileLogged prefix pattern e).1 = compiled pattern.
Proof.
  unfold compileLogged, compiled.
  destruct (String.eqb pattern EmptyString); [done|].
  by destruct (Compile pattern).
Qed.

Lemma compileLogged_world prefix pattern e :
  world (compileLogged prefix pattern e).2 = world e.
Proof.
  unfold compileLogged.
  destruct (String.eqb pattern EmptyString); [done|].
  by destruct (Compile pattern).
Qed.

Lemma deletes_app (tr1 tr2 : list Event) :
  deletes (tr1 ++ tr2) = deletes tr1 ++ deletes tr2.
Proof. apply List.filter_app. Qed.

Lemma compileLogged_deletes prefix pattern e :
  deletes (trace (compileLogged prefix pattern e).2) = deletes (trace e).
Proof.
  unfold compileLogged.
  destruct (String.eqb pattern EmptyString); [done|].
  destruct (Compile pattern); [done|].
  simpl. rewrite deletes_app. simpl. by rewrite app_nil_r.
Qed.

(** ** Pass 1 *)

Lemma evaluateRules_cons policy now i im rest keptDigests :
  evaluateRules policy now i (im :: rest) keptDigests
  = let d := evaluateTag policy now i im in
    let r := evaluateRules policy now (S i) rest
               (if keep d then <[imageInfo.Digest im:=true]> keptDigests
                else keptDigests) in
    (d :: r.1, r.2).
Proof. simpl. by destruct (evaluateRules _ _ _ rest _). Qed.

Lemma evaluateTag_img policy now i im : img (evaluateTag policy now i im) = im.
Proof. done. Qed.

(** The decisions are the images, each evaluated at its index. *)
Lemma evaluateRules_decisions policy now images i keptDigests :
  (evaluateRules policy now i images keptDigests).1
  = imap (fun k im => evaluateTag policy now (i + k) im) images.
Proof.
  revert i keptDigests.
  induction images as [|im rest IH]; intros i keptDigests; [done|].
  rewrite evaluateRules_cons. cbn [fst imap]. f_equal.
  - by rewrite Nat.add_0_r.
  - rewrite IH. apply imap_ext. intros k x _. simpl. f_equal. lia.
Qed.

Lemma isKept_insert keptDigests (a b : string) :
  isKept (<[a:=true]> keptDigests) b = true
  <-> a = b \/ isKept keptDigests b = true.
Proof.
  unfold isKept. destruct (decide (a = b)) as [->|Hne].
  - rewrite lookup_insert_eq. simpl. tauto.
  - rewrite lookup_insert_ne by done. intuition congruence.
Qed.

(** A digest is in [keptDigests] after the pass exactly when it was there
    before or some image with that digest was marked keep. *)
Lemma evaluateRules_kept policy now images i keptDigests (digest : string) :
  isKept (evaluateRules policy now i images keptDigests).2 digest = true
  <-> isKept keptDigests digest = true
      \/ exists k im, images !! k = Some im
           /\ keep (evaluateTag policy now (i + k) im) = true
           /\ imageInfo.Digest im = digest.
Proof.
  revert i keptDigests.
  induction images as [|im rest IH]; intros i keptDigests.
  - simpl. split; [by left|]. intros [?|(k & x & Hk & _)]; [done|].
    by rewrite lookup_nil in Hk.
  - rewrite evaluateRules_cons. cbn [snd]. rewrite IH. clear IH.
    split.
    + intros [Hk|(k & x & Hk & Hkeep & Hd)].
      * destruct (keep (evaluateTag policy now i im)) eqn:Hkeep.
        -- apply isKept_insert in Hk as [Heq|Hk]; [|by left].
           right. exists 0%nat, im. rewrite Nat.add_0_r. done.
        -- by left.
      * right. exists (S k), x. split; [done|].
        by replace (i + S k)%nat with (S i + k)%nat by lia.
    + intros [Hk|(k & x & Hk & Hkeep & Hd)].
      * left. destruct (keep (evaluateTag policy now i im)); [|done].
        apply isKept_insert. by right.
      * destruct k as [|k]; simpl in Hk.
        -- injection Hk as ->. rewrite Nat.add_0_r in Hkeep.
           left. rewrite Hkeep. apply isKept_insert. by left.
        -- right. exists k, x. split; [done|].
           by replace (S i + k)%nat with (i + S k)%nat by lia.
Qed.

(** ** Pass 2 *)

Lemma executeAction_static client repoName policy keptDigests d e :
  toDelete policy keptDigests d = false ->
  executeAction client repoName policy keptDigests d e
  = (logOf repoName (img d)
       (if keep d then "kept"
        else if isKept keptDigests (imageInfo.Digest (img d)) then "kept"
        else "would_delete")
       (if keep d then reason d
        else if isKept keptDigests (imageInfo.Digest (img d))
        then "digest shared with retained tag"
        else "exceeds retention limits"), e).
Proof.
  unfold toDelete, executeAction, logOf.
  destruct (keep d); [done|].
  destruct (isKept keptDigests _); [done|].
  by destruct (RetentionPolicy.DryRun policy).
Qed.

Lemma executeAction_delete client repoName policy keptDigests d e :
  toDelete policy keptDigests d = true ->
  exists action reason w,
    executeAction client repoName policy keptDigests d e
    = (logOf repoName (img d) action reason,
       {| world := w;
          trace := trace e
                   ++ [DeleteCall repoName (imageInfo.Digest (img d))] |})
    /\ (action = "deleted" \/ action = "error_delete").
Proof.
  unfold toDelete, executeAction, logOf.
  destruct (keep d); [done|].
  destruct (isKept keptDigests _); [done|].
  destruct (RetentionPolicy.DryRun policy); [done|]. intros _. simpl.
  destruct (DeleteManifest client (world e) repoName _) as [w [msg|]];
    eauto 10.
Qed.

Lemma executeAction_meta client repoName policy keptDigests d e :
  exists action reason,
    (executeAction client repoName policy keptDigests d e).1
    = logOf repoName (img d) action reason.
Proof.
  destruct (toDelete policy keptDigests d) eqn:Hdel.
  - destruct (executeAction_delete client repoName policy keptDigests d e Hdel)
      as (a & r & w & -> & _). eauto.
  - rewrite executeAction_static by done. eauto.
Qed.

Lemma executeActions_length client repoName policy keptDigests ds e :
  length (executeActions client repoName policy keptDigests ds e).1
  = length ds.
Proof.
  revert e. induction ds as [|d rest IH]; intros e; simpl; [done|].
  destruct (executeAction _ _ _ _ d e) as [l e1].
  specialize (IH e1).
  destruct (executeActions _ _ _ _ rest e1) as [ls e2]. simpl in *. lia.
Qed.

(** Entry [k] of the log is the entry written for decision [k]. *)
Lemma executeActions_lookup client repoName policy keptDigests ds e k d :
  ds !! k = Some d ->
  exists e0,
    (executeActions client repoName policy keptDigests ds e).1 !! k
    = Some (executeAction client repoName policy keptDigests d e0).1.
Proof.
  revert e k. induction ds as [|d' rest IH]; intros e k Hk; [done|].
  simpl.
  destruct (executeAction _ _ _ _ d' e) as [l e1] eqn:E1.
  specialize (IH e1).
  destruct (executeActions _ _ _ _ rest e1) as [ls e2]. simpl in *.
  destruct k as [|k]; simpl in *.
  - injection Hk as ->. exists e. by rewrite E1.
  - by apply IH.
Qed.

(** The events of pass 2 are the [DeleteManifest] calls for the decisions
    in [toDelete], in order. *)
Lemma executeActions_trace client repoName policy keptDigests ds e :
  trace (executeActions client repoName policy keptDigests ds e).2
  = trace e
    ++ List.map (fun d => DeleteCall repoName (imageInfo.Digest (img d)))
         (List.filter (toDelete policy keptDigests) ds).
Proof.
  revert e. induction ds as [|d rest IH]; intros e; simpl.
  - by rewrite app_nil_r.
  - destruct (executeAction _ _ _ _ d e) as [l e1] eqn:E1.
    specialize (IH e1).
    destruct (executeActions _ _ _ _ rest e1) as [ls e2]. simpl in *.
    rewrite IH. destruct (toDelete policy keptDigests d) eqn:Hdel.
    + destruct (executeAction_delete client repoName policy keptDigests d e Hdel)
        as (a & r & w & Heq & _).
      rewrite Heq in E1. injection E1 as <- <-. simpl.
      by rewrite <- app_assoc.
    + rewrite executeAction_static in E1 by done. by injection E1 as <- <-.
Qed.

(** Without a decision in [toDelete], pass 2 leaves the registry and the
    trace as they are. *)
Lemma executeActions_frame client repoName policy keptDigests ds e :
  List.filter (toDelete policy keptDigests) ds = [] ->
  (executeActions client repoName policy keptDigests ds e).2 = e.
Proof.
  revert e. induction ds as [|d rest IH]; intros e Hnone; simpl; [done|].
  simpl in Hnone. destruct (toDelete policy keptDigests d) eqn:Hdel; [done|].
  rewrite executeAction_static by done.
  specialize (IH e Hnone).
  destruct (executeActions _ _ _ _ rest e) as [ls e2]. by simpl in *.
Qed.

(** ** [processRepository] *)

Lemma compileLogged_trace prefix pattern e :
  exists lines,
    (compileLogged prefix pattern e).2
    = {| world := world e; trace := trace e ++ List.map LogLine lines |}.
Proof.
  unfold compileLogged.
  destruct (String.eqb pattern EmptyString).
  - exists []. destruct e. simpl. by rewrite app_nil_r.
  - destruct (Compile pattern) as [re|msg].
    + exists []. destruct e. simpl. by rewrite app_nil_r.
    + by exists [prefix +:+ msg].
Qed.

Lemma permutes_nil arrange : permutes arrange -> arrange [] = [].
Proof. intros Hp. apply Permutation_nil. symmetry. apply Hp. Qed.

Lemma processRepository_err arrange client repoName policy now e msg e' :
  processRepository arrange client repoName policy now e = (Err msg, e') ->
  e' = e.
Proof.
  unfold processRepository.
  destruct (ListTags client (world e) repoName) as [tags|m]; [|congruence].
  destruct (length tags =? 0)%nat; [congruence|].
  destruct (compileLogged _ _ e) as [re e1].
  destruct (evaluateRules _ _ _ _ _) as [ds kept].
  by destruct (executeActions _ _ _ _ ds e1).
Qed.

(** A successful call lists the tags, possibly logs the invalid
    [ExcludeTags] pattern, and runs the two passes on the candidates. *)
Lemma processRepository_ok arrange client repoName policy now e logs e' :
  permutes arrange ->
  processRepository arrange client repoName policy now e = (Ok logs, e') ->
  exists tags lines,
    ListTags client (world e) repoName = Ok tags
    /\ let images :=
         candidates arrange client (world e) repoName
           (compiled (RetentionPolicy.ExcludeTags policy)) tags in
       let r := evaluateRules policy now 0 images ∅ in
       let e1 := {| world := world e;
                    trace := trace e ++ List.map LogLine lines |} in
       (logs, e') = executeActions client repoName policy r.2 r.1 e1.
Proof.
  intros Hperm. unfold processRepository.
  destruct (ListTags client (world e) repoName) as [tags|m]; [|congruence].
  destruct (length tags =? 0)%nat eqn:Hlen.
  - intros [= <- <-]. exists tags, [].
    split; [done|]. apply Nat.eqb_eq, nil_length_inv in Hlen as ->.
    unfold candidates. simpl. rewrite permutes_nil by done. simpl.
    destruct e. simpl. by rewrite app_nil_r.
  - pose proof (compileLogged_fst "⚠️ Invalid ExcludeTags regex: "
                  (RetentionPolicy.ExcludeTags policy) e) as Hfst.
    destruct (compileLogged_trace "⚠️ Invalid ExcludeTags regex: "
                (RetentionPolicy.ExcludeTags policy) e) as [lines Hsnd].
    destruct (compileLogged _ _ e) as [re e1]. simpl in Hfst, Hsnd.
    subst re e1. cbn [world].
    destruct (evaluateRules _ _ _ _ _) as [ds kept] eqn:Ev.
    destruct (executeActions _ _ _ _ ds _) as [ls e2] eqn:E.
    intros [= <- <-]. exists tags, lines. split; [done|].
    cbn zeta. by rewrite Ev.
Qed.

Lemma lookup_decision policy now images keptDigests k im :
  images !! k = Some im ->
  (evaluateRules policy now 0 images keptDigests).1 !! k
  = Some (evaluateTag policy now k im).
Proof.
  intros Hk. rewrite evaluateRules_decisions, list_lookup_imap, Hk. done.
Qed.

Lemma decision_inv policy now images keptDigests d :
  In d (evaluateRules policy now 0 images keptDigests).1 ->
  exists k im, images !! k = Some im /\ d = evaluateTag policy now k im.
Proof.
  rewrite evaluateRules_decisions. intros Hin.
  apply list_elem_of_In, list_elem_of_lookup in Hin as [k Hk].
  rewrite list_lookup_imap in Hk.
  destruct (images !! k) as [im|] eqn:E; [|done].
  injection Hk as <-. eauto.
Qed.

Lemma kept_of_keep policy now images k im :
  images !! k = Some im ->
  keep (evaluateTag policy now k im) = true ->
  isKept (evaluateRules policy now 0 images ∅).2 (imageInfo.Digest im) = true.
Proof. intros Hk Hkeep. apply evaluateRules_kept. right. eauto. Qed.

Lemma not_kept_of_unshared policy now images (digest : string) :
  (forall j imj, images !! j = Some imj ->
     keep (evaluateTag policy now j imj) = true ->
     imageInfo.Digest imj <> digest) ->
  isKept (evaluateRules policy now 0 images ∅).2 digest = false.
Proof.
  intros Hno. apply not_true_is_false. intros Hk.
  apply evaluateRules_kept in Hk as [Hk|(j & imj & Hj & Hkeep & Hd)].
  - unfold isKept in Hk. by rewrite lookup_empty in Hk.
  - by eapply Hno.
Qed.

(** What a successful call returns, entry by entry, and what it emits. *)
Lemma processRepository_run arrange client repoName policy now e tags logs e' :
  permutes arrange ->
  processRepository arrange client repoName policy now e = (Ok logs, e') ->
  ListTags client (world e) repoName = Ok tags ->
  let images :=
    candidates arrange client (world e) repoName
      (compiled (RetentionPolicy.ExcludeTags policy)) tags in
  let r := evaluateRules policy now 0 images ∅ in
  length logs = length images
  /\ (forall k im, images !! k = Some im ->
        exists e0,
          logs !! k
          = Some (executeAction client repoName policy r.2
                    (evaluateTag policy now k im) e0).1)
  /\ (exists lines,
        trace e'
        = trace e ++ List.map LogLine lines
          ++ List.map
               (fun d => DeleteCall repoName (imageInfo.Digest (img d)))
               (List.filter (toDelete policy r.2) r.1))
  /\ (List.filter (toDelete policy r.2) r.1 = [] -> world e' = world e).
Proof.
  intros Hperm Hrun Htags.
  destruct (processRepository_ok _ _ _ _ _ _ _ _ Hperm Hrun)
    as (tags' & lines & Htags' & Hexec).
  rewrite Htags in Htags'. injection Htags' as <-.
  cbn zeta in *.
  set (images := candidates arrange client (world e) repoName _ tags) in *.
  set (r := evaluateRules policy now 0 images ∅) in *.
  set (e1 := {| world := world e; trace := trace e ++ _ |}) in *.
  assert (logs = (executeActions client repoName policy r.2 r.1 e1).1) as Hl
    by (by rewrite <- Hexec).
  assert (e' = (executeActions client repoName policy r.2 r.1 e1).2) as He
    by (by rewrite <- Hexec).
  repeat split.
  - rewrite Hl, executeActions_length. unfold r.
    by rewrite evaluateRules_decisions, length_imap.
  - intros k im Hk. rewrite Hl.
    apply executeActions_lookup. by apply lookup_decision.
  - exists lines. rewrite He, executeActions_trace. unfold e1. simpl.
    by rewrite <- app_assoc.
  - intros Hnone. rewrite He, executeActions_frame by done. done.
Qed.

Lemma sameEffects_refl e : sameEffects e e.
Proof. by split. Qed.

Lemma sameEffects_trans e1 e2 e3 :
  sameEffects e1 e2 -> sameEffects e2 e3 -> sameEffects e1 e3.
Proof. intros [? ?] [? ?]. split; congruence. Qed.

Lemma sameEffects_log (line : string) e :
  sameEffects (emit (LogLine line) e) e.
Proof.
  split; [done|]. simpl. rewrite deletes_app. simpl. by rewrite app_nil_r.
Qed.

Lemma sameEffects_compileLogged prefix pattern e :
  sameEffects (compileLogged prefix pattern e).2 e.
Proof.
  split; [apply compileLogged_world | apply compileLogged_deletes].
Qed.

Lemma deletes_log_lines (lines : list string) :
  deletes (List.map LogLine lines) = [].
Proof. by induction lines. Qed.

Lemma filter_none {A} (f : A -> bool) (l : list A) :
  (forall x, In x l -> f x = false) -> List.filter f l = [].
Proof.
  induction l as [|x l IH]; intros Hf; [done|]. simpl.
  rewrite Hf by (by left). apply IH. intros y Hy. apply Hf. by right.
Qed.

(** A call in which no decision is in [toDelete] has no effect but log
    lines. *)
Lemma processRepository_quiet arrange client repoName policy now e logs e' :
  permutes arrange ->
  processRepository arrange client repoName policy now e = (Ok logs, e') ->
  (forall keptDigests k im,
     toDelete policy keptDigests (evaluateTag policy now k im) = false) ->
  sameEffects e' e.
Proof.
  intros Hperm Hrun Hnone.
  destruct (processRepository_ok _ _ _ _ _ _ _ _ Hperm Hrun)
    as (tags & lines & Htags & _).
  destruct (processRepository_run _ _ _ _ _ _ _ _ _ Hperm Hrun Htags)
    as (_ & _ & [lines' Htr] & Hw).
  cbn zeta in *.
  set (r := evaluateRules policy now 0 _ ∅) in *.
  assert (List.filter (toDelete policy r.2) r.1 = []) as Hf.
  { apply filter_none. intros d Hd.
    apply decision_inv in Hd as (k & im & _ & ->). apply Hnone. }
  split; [by apply Hw|].
  rewrite Htr, Hf. simpl. rewrite app_nil_r, deletes_app, deletes_log_lines.
  by rewrite app_nil_r.
Qed.

(** The loop over the repositories preserves what every call preserves. *)
Lemma processRepos_preserves (Q : RetentionLog.t -> Prop) arrangeAt client
    policy (filterRepoRe excludeRepoRe : option Regexp) clock :
  (forall k repoName now e logs e',
     processRepository (arrangeAt k) client repoName policy now e
     = (Ok logs, e') ->
     Forall Q logs /\ sameEffects e' e) ->
  forall repos k e logs e',
    processRepos arrangeAt client policy filterRepoRe excludeRepoRe
      clock k repos e = (logs, e') ->
    Forall Q logs /\ sameEffects e' e.
Proof.
  intros Hcall repos.
  induction repos as [|repo rest IH]; intros k e logs e'; simpl.
  - intros [= <- <-]. split; [constructor | apply sameEffects_refl].
  - destruct (notNilAnd filterRepoRe _); [apply IH|].
    destruct (notNilAnd excludeRepoRe _); [apply IH|].
    destruct (processRepository (arrangeAt k) client repo policy (clock k) e)
      as [[repoLogs|msg] e1] eqn:E.
    + destruct (processRepos _ _ _ _ _ _ _ rest e1) as [ls e2] eqn:E2.
      intros [= <- <-].
      destruct (Hcall _ _ _ _ _ _ E) as [HQ1 Hs1].
      destruct (IH _ _ _ _ E2) as [HQ2 Hs2].
      split; [by apply Forall_app | by eapply sameEffects_trans].
    + apply processRepository_err in E as ->. intros Hrest.
      destruct (IH _ _ _ _ Hrest) as [HQ Hs]. split; [done|].
      eapply sameEffects_trans; [exact Hs | apply sameEffects_log].
Qed.

Variable NewClient : string -> string -> string -> bool -> Client W.

Lemma RunRetention_preserves (Q : RetentionLog.t -> Prop) arrangeAt reg
    policy clock e r e' :
  (forall k repoName now e logs e',
     processRepository (arrangeAt k) (NewClientFromRegistry NewClient reg)
       repoName policy now e = (Ok logs, e') ->
     Forall Q logs /\ sameEffects e' e) ->
  RunRetention NewClient arrangeAt reg policy clock e = (r, e') ->
  sameEffects e' e /\ forall logs, r = Ok logs -> Forall Q logs.
Proof.
  intros Hcall. unfold RunRetention.
  destruct (ListRepositories _ (world e)) as [repos|msg].
  - pose proof (sameEffects_compileLogged "⚠️ Invalid FilterRepos regex: "
                  (RetentionPolicy.FilterRepos policy) e) as Hs1.
    destruct (compileLogged _ (RetentionPolicy.FilterRepos policy) e)
      as [fre e1]. simpl in Hs1.
    pose proof (sameEffects_compileLogged "⚠️ Invalid ExcludeRepos regex: "
                  (RetentionPolicy.ExcludeRepos policy) e1) as Hs2.
    destruct (compileLogged _ (RetentionPolicy.ExcludeRepos policy) e1)
      as [ere e2]. simpl in Hs2.
    destruct (processRepos _ _ _ _ _ _ _ repos e2) as [logs e3] eqn:E.
    intros [= <- <-].
    destruct (processRepos_preserves Q _ _ _ _ _ _ Hcall _ _ _ _ _ E)
      as [HQ Hs3].
    split.
    + eapply sameEffects_trans; [exact Hs3|].
      eapply sameEffects_trans; [exact Hs2 | exact Hs1].
    + by intros ? [= <-].
  - intros [= <- <-]. split; [apply sameEffects_refl | done].
Qed.

(** ** The rules *)

Lemma evaluateTag_no_policy policy now i im :
  RetentionPolicy.KeepLastCount policy <= 0 ->
  RetentionPolicy.KeepDays policy <= 0 ->
  evaluateTag policy now i im
  = {| img := im; keep := true; reason := "no policy set" |}.
Proof.
  intros HN HD. unfold evaluateTag, ruleNoPolicy.
  apply Z.leb_le in HN, HD. by rewrite HN, HD.
Qed.

Lemma ruleKeepLast_fires policy i st :
  0 < RetentionPolicy.KeepLastCount policy ->
  ruleKeepLast policy i st
  = if Z.of_nat i <? RetentionPolicy.KeepLastCount policy
    then (true, "within last "
                +:+ fmt.itoa (RetentionPolicy.KeepLastCount policy)
                +:+ " images")
    else st.
Proof. intros HN. unfold ruleKeepLast. apply Z.ltb_lt in HN. by rewrite HN. Qed.

Lemma ruleKeepDays_off policy now im st :
  RetentionPolicy.KeepDays policy <= 0 -> ruleKeepDays policy now im st = st.
Proof.
  intros HD. unfold ruleKeepDays.
  by destruct (Z.ltb_spec 0 (RetentionPolicy.KeepDays policy)); [lia|].
Qed.

Lemma ruleNoPolicy_off policy st :
  0 < RetentionPolicy.KeepLastCount policy
  \/ 0 < RetentionPolicy.KeepDays policy ->
  ruleNoPolicy policy st = st.
Proof.
  intros Hpos. unfold ruleNoPolicy.
  destruct (Z.leb_spec (RetentionPolicy.KeepLastCount policy) 0);
    destruct (Z.leb_spec (RetentionPolicy.KeepDays policy) 0);
    simpl; try done; lia.
Qed.

(** ** The claims about the retention engine *)

(** C1 — shared-digest safety. In a call of [processRepository], a
    candidate that pass 1 marks not-keep and whose digest is the digest of
    a candidate marked keep gets the entry [kept] / "digest shared with
    retained tag", and the call issues no [DeleteManifest] for that
    digest in the repository. *)
Theorem shared_digest_is_kept arrange client repoName policy now e tags logs
    e' kA kB imA imB :
  permutes arrange ->
  processRepository arrange client repoName policy now e = (Ok logs, e') ->
  ListTags client (world e) repoName = Ok tags ->
  let images :=
    candidates arrange client (world e) repoName
      (compiled (RetentionPolicy.ExcludeTags policy)) tags in
  images !! kA = Some imA ->
  keep (evaluateTag policy now kA imA) = true ->
  images !! kB = Some imB ->
  keep (evaluateTag policy now kB imB) = false ->
  imageInfo.Digest imA = imageInfo.Digest imB ->
  logs !! kB
  = Some (logOf repoName imB "kept" "digest shared with retained tag")
  /\ exists evs,
       trace e' = trace e ++ evs
       /\ ~ In (DeleteCall repoName (imageInfo.Digest imB)) evs.
Proof.
  intros Hperm Hrun Htags images HA HkeepA HB HkeepB Hdig.
  destruct (processRepository_run _ _ _ _ _ _ _ _ _ Hperm Hrun Htags)
    as (_ & Hlog & [lines Htr] & _).
  fold images in Hlog, Htr.
  set (r := evaluateRules policy now 0 images ∅) in Hlog, Htr |- *.
  assert (isKept r.2 (imageInfo.Digest imB) = true) as Hshared.
  { rewrite <- Hdig. by eapply kept_of_keep. }
  split.
  - destruct (Hlog _ _ HB) as [e0 ->]. f_equal.
    rewrite executeAction_static.
    + rewrite evaluateTag_img, HkeepB, Hshared. done.
    + unfold toDelete. rewrite evaluateTag_img, Hshared.
      by rewrite andb_false_r.
  - eexists. split; [exact Htr|]. intros Hin.
    apply in_app_or in Hin as [Hin|Hin].
    + apply in_map_iff in Hin as (? & ? & _). done.
    + apply in_map_iff in Hin as (d & [= Hd] & Hf).
      apply filter_In in Hf as [_ Hdel]. unfold toDelete in Hdel.
      rewrite Hd, Hshared in Hdel. by rewrite andb_false_r in Hdel.
Qed.

(** C2 — fail-safe default. With [KeepLastCount <= 0] and
    [KeepDays <= 0], every candidate of every processed repository gets
    the entry [kept] / "no policy set", and a whole run changes nothing
    in the registry and issues no [DeleteManifest]. *)
Theorem no_policy_keeps_every_tag policy :
  RetentionPolicy.KeepLastCount policy <= 0 ->
  RetentionPolicy.KeepDays policy <= 0 ->
  (forall arrange client repoName now e tags logs e',
     permutes arrange ->
     processRepository arrange client repoName policy now e = (Ok logs, e') ->
     ListTags client (world e) repoName = Ok tags ->
     let images :=
       candidates arrange client (world e) repoName
         (compiled (RetentionPolicy.ExcludeTags policy)) tags in
     length logs = length images
     /\ forall k im, images !! k = Some im ->
          logs !! k = Some (logOf repoName im "kept" "no policy set"))
  /\ (forall arrangeAt reg clock e r e',
       (forall k, permutes (arrangeAt k)) ->
       RunRetention NewClient arrangeAt reg policy clock e = (r, e') ->
       world e' = world e
       /\ deletes (trace e') = deletes (trace e)
       /\ forall logs l, r = Ok logs -> In l logs ->
            RetentionLog.Action l = "kept"
            /\ RetentionLog.Reason l = "no policy set").
Proof.
  intros HN HD.
  assert (forall arrange client repoName now e tags logs e',
     permutes arrange ->
     processRepository arrange client repoName policy now e = (Ok logs, e') ->
     ListTags client (world e) repoName = Ok tags ->
     length logs
     = length (candidates arrange client (world e) repoName
                 (compiled (RetentionPolicy.ExcludeTags policy)) tags)
     /\ forall k im,
          candidates arrange client (world e) repoName
            (compiled (RetentionPolicy.ExcludeTags policy)) tags !! k
          = Some im ->
          logs !! k = Some (logOf repoName im "kept" "no policy set"))
    as Hrepo.
  { intros arrange client repoName now e tags logs e' Hperm Hrun Htags.
    destruct (processRepository_run _ _ _ _ _ _ _ _ _ Hperm Hrun Htags)
      as (Hlen & Hlog & _ & _).
    split; [done|]. intros k im Hk.
    destruct (Hlog _ _ Hk) as [e0 ->]. f_equal.
    rewrite evaluateTag_no_policy by done.
    by rewrite executeAction_static. }
  split; [exact Hrepo|].
  intros arrangeAt reg clock e r e' Hperm Hrun.
  eapply (RunRetention_preserves
            (fun l => RetentionLog.Action l = "kept"
                      /\ RetentionLog.Reason l = "no policy set"))
    in Hrun as ([Hw Hd] & HQ).
  - split; [done|]. split; [done|].
    intros logs l -> Hin. specialize (HQ _ eq_refl).
    rewrite List.Forall_forall in HQ. by apply HQ.
  - intros k repoName now e0 logs e0' Hcall. split.
    + destruct (processRepository_ok _ _ _ _ _ _ _ _ (Hperm k) Hcall)
        as (tags & _ & Htags & _).
      destruct (Hrepo _ _ _ _ _ _ _ _ (Hperm k) Hcall Htags) as [Hlen Hlog].
      apply List.Forall_forall. intros l Hin.
      apply list_elem_of_In, list_elem_of_lookup in Hin as [i Hi].
      assert (i < length logs)%nat as Hlt by (by eapply lookup_lt_Some).
      rewrite Hlen in Hlt. apply lookup_lt_is_Some in Hlt as [im Him].
      rewrite (Hlog _ _ Him) in Hi. by injection Hi as <-.
    + eapply processRepository_quiet; [apply (Hperm k) | done |].
      intros kd i im. rewrite evaluateTag_no_policy by done. done.
Qed.

(** C3 — dry run. With [DryRun = true], a candidate that no rule keeps
    and whose digest no kept candidate shares gets the entry
    [would_delete] / "exceeds retention limits"; a whole run issues no
    [DeleteManifest] and leaves the registry as it was. *)
Theorem dry_run_deletes_nothing policy :
  RetentionPolicy.DryRun policy = true ->
  (forall arrange client repoName now e tags logs e' k im,
     permutes arrange ->
     processRepository arrange client repoName policy now e = (Ok logs, e') ->
     ListTags client (world e) repoName = Ok tags ->
     let images :=
       candidates arrange client (world e) repoName
         (compiled (RetentionPolicy.ExcludeTags policy)) tags in
     images !! k = Some im ->
     keep (evaluateTag policy now k im) = false ->
     (forall j imj, images !! j = Some imj ->
        keep (evaluateTag policy now j imj) = true ->
        imageInfo.Digest imj <> imageInfo.Digest im) ->
     logs !! k
     = Some (logOf repoName im "would_delete" "exceeds retention limits"))
  /\ (forall arrangeAt reg clock e r e',
       (forall k, permutes (arrangeAt k)) ->
       RunRetention NewClient arrangeAt reg policy clock e = (r, e') ->
       world e' = world e /\ deletes (trace e') = deletes (trace e)).
Proof.
  intros Hdry. split.
  - intros arrange client repoName now e tags logs e' k im Hperm Hrun Htags
      images Hk Hkeep Hunshared.
    subst images.
    destruct (processRepository_run _ _ _ _ _ _ _ _ _ Hperm Hrun Htags)
      as (_ & Hlog & _ & _).
    destruct (Hlog _ _ Hk) as [e0 ->]. f_equal.
    rewrite executeAction_static.
    + rewrite evaluateTag_img, Hkeep.
      by rewrite (not_kept_of_unshared _ _ _ _ Hunshared).
    + unfold toDelete. by rewrite Hdry, andb_false_r.
  - intros arrangeAt reg clock e r e' Hperm Hrun.
    eapply (RunRetention_preserves (fun _ => True)) in Hrun as (Hs & _).
    + exact Hs.
    + intros k repoName now e0 logs e0' Hcall. split.
      * by apply List.Forall_forall.
      * eapply processRepository_quiet; [apply (Hperm k) | done |].
        intros kd i im. unfold toDelete. by rewrite Hdry, andb_false_r.
Qed.

(** C4 — keep last N. With [KeepLastCount = N > 0], rule 1 marks the
    candidate at index [k] of the sorted list exactly when [k < N], with
    the reason "within last N images". When no other rule applies
    ([KeepDays <= 0], no protected candidate), the candidates at indices
    below [N] get the entry [kept] with that reason and all others are
    marked not-keep. *)
Theorem keep_last_keeps_first_N arrange client repoName policy now e tags
    logs e' :
  let N := RetentionPolicy.KeepLastCount policy in
  let within := "within last " +:+ fmt.itoa N +:+ " images" in
  0 < N ->
  permutes arrange ->
  processRepository arrange client repoName policy now e = (Ok logs, e') ->
  ListTags client (world e) repoName = Ok tags ->
  let images :=
    candidates arrange client (world e) repoName
      (compiled (RetentionPolicy.ExcludeTags policy)) tags in
  forall k im, images !! k = Some im ->
    ruleKeepLast policy k (false, "default keep")
    = (if Z.of_nat k <? N then (true, within) else (false, "default keep"))
    /\ (RetentionPolicy.KeepDays policy <= 0 ->
        (forall im', In im' images -> imageInfo.Protected im' = false) ->
        evaluateTag policy now k im
        = {| img := im;
             keep := Z.of_nat k <? N;
             reason := if Z.of_nat k <? N then within else "default keep" |}
        /\ (Z.of_nat k < N ->
            logs !! k = Some (logOf repoName im "kept" within))).
Proof.
  intros N within HN Hperm Hrun Htags images k im Hk.
  split; [by apply ruleKeepLast_fires|].
  intros HD Hprot.
  assert (evaluateTag policy now k im
          = {| img := im;
               keep := Z.of_nat k <? N;
               reason := if Z.of_nat k <? N then within else "default keep" |})
    as Heval.
  { unfold evaluateTag.
    rewrite ruleNoPolicy_off by (by left).
    rewrite ruleKeepDays_off by done.
    rewrite ruleKeepLast_fires by done. fold N within.
    unfold ruleWhitelist. rewrite Hprot.
    - by destruct (Z.of_nat k <? N).
    - apply list_elem_of_In, list_elem_of_lookup. eauto. }
  split; [done|]. intros Hlt.
  destruct (processRepository_run _ _ _ _ _ _ _ _ _ Hperm Hrun Htags)
    as (_ & Hlog & _ & _).
  destruct (Hlog _ _ Hk) as [e0 ->]. f_equal.
  rewrite Heval. apply Z.ltb_lt in Hlt. rewrite Hlt.
  rewrite executeAction_static; [done|].
  unfold toDelete. done.
Qed.

(** ** The age rule *)

Lemma Sub_back (now : gotime.Time) (age : gotime.Duration) :
  gotime.minDuration <= age <= gotime.maxDuration ->
  gotime.Sub now (now - age) = age.
Proof.
  intros Hr. unfold gotime.Sub.
  replace (now - (now - age)) with age by lia.
  destruct (Z.ltb_spec age gotime.minDuration); [lia|].
  destruct (Z.ltb_spec gotime.maxDuration age); [lia|]. done.
Qed.

Lemma days_back (now : gotime.Time) (age : gotime.Duration) :
  gotime.minDuration <= age <= gotime.maxDuration ->
  days now (now - age) = wholeDays age.
Proof. intros Hr. unfold days. by rewrite Sub_back. Qed.

Lemma wholeDays_hours (h : Z) :
  wholeDays (h * gotime.Hour) = wholeDaysOfHours h.
Proof.
  unfold wholeDays, wholeDaysOfHours, gotime.Hours.
  rewrite Z.quot_mul, Z.rem_mul by (unfold gotime.Hour; lia). done.
Qed.

Lemma countsDays_spec fuel n :
  countsDays fuel n = true ->
  forall m, n <= m < n + Z.of_nat fuel -> wholeDaysOfHours (24 * m) = m.
Proof.
  revert n. induction fuel as [|fuel IH]; intros n Hc m Hm; [lia|].
  cbn [countsDays] in Hc. apply andb_true_iff in Hc as [Hn Hrest].
  destruct (decide (m = n)) as [->|Hne].
  - by apply Z.eqb_eq.
  - apply (IH (n + 1)); [done | lia].
Qed.

Lemma countsDays_all : countsDays (Z.to_nat (maxDays + 1)) 0 = true.
Proof. vm_cast_no_check (eq_refl true). Qed.

(** An age of [n] whole days counts [n] days, over the whole range of
    [Duration]. *)
Lemma wholeDays_exact (n : Z) :
  0 <= n <= maxDays -> wholeDays (n * (24 * gotime.Hour)) = n.
Proof.
  intros Hn.
  replace (n * (24 * gotime.Hour)) with (24 * n * gotime.Hour) by lia.
  rewrite wholeDays_hours. apply (countsDays_spec _ _ countsDays_all).
  rewrite Z2Nat.id by (unfold maxDays; lia). lia.
Qed.

Lemma ruleKeepLast_skips policy i st :
  ~ Z.of_nat i < RetentionPolicy.KeepLastCount policy ->
  ruleKeepLast policy i st = st.
Proof.
  intros Hk. unfold ruleKeepLast.
  destruct (0 <? RetentionPolicy.KeepLastCount policy); [|done].
  by destruct (Z.ltb_spec (Z.of_nat i) (RetentionPolicy.KeepLastCount policy)).
Qed.

Lemma ruleKeepDays_fires policy now im st :
  0 < RetentionPolicy.KeepDays policy ->
  (ruleKeepDays policy now im st).1
  = st.1 || (days now (imageInfo.Created im)
             <? RetentionPolicy.KeepDays policy).
Proof.
  intros HD. destruct st as [b r]. unfold ruleKeepDays.
  apply Z.ltb_lt in HD. rewrite HD. simpl.
  destruct (days now _ <? _); destruct b; done.
Qed.

Lemma ruleKeepDays_skips policy now im st :
  (days now (imageInfo.Created im) <? RetentionPolicy.KeepDays policy)
  = false ->
  ruleKeepDays policy now im st = st.
Proof.
  intros Hd. unfold ruleKeepDays. rewrite Hd.
  by destruct (0 <? RetentionPolicy.KeepDays policy).
Qed.

Lemma ruleWhitelist_keeps im st :
  st.1 = true -> (ruleWhitelist im st).1 = true.
Proof.
  intros Hst. unfold ruleWhitelist.
  destruct (imageInfo.Protected im); [|done].
  by destruct (String.eqb st.2 "default keep").
Qed.

Lemma ruleNoPolicy_keeps policy st :
  st.1 = true -> (ruleNoPolicy policy st).1 = true.
Proof.
  intros Hst. unfold ruleNoPolicy.
  by destruct (_ && _).
Qed.

(** The age rule on ages of whole days. With [KeepDays > 0], rule 2
    keeps the candidates whose count [int(age.Hours() / 24)] is below
    [KeepDays]. With [KeepDays = 7] a candidate created 6 days before
    [now] is kept, and one created 8 days before [now] that rule 1 and
    the whitelist do not keep is marked not-keep. A candidate created
    exactly [n] days before [now] counts [n] whole days, so that rule 2
    keeps it exactly when [n < KeepDays]. *)
Theorem keep_days_counts_whole_days policy now k im :
  0 < RetentionPolicy.KeepDays policy ->
  (forall st,
     (ruleKeepDays policy now im st).1
     = st.1 || (days now (imageInfo.Created im)
                <? RetentionPolicy.KeepDays policy))
  /\ (RetentionPolicy.KeepDays policy = 7 ->
      (imageInfo.Created im = now - 6 * (24 * gotime.Hour) ->
       keep (evaluateTag policy now k im) = true)
      /\ (imageInfo.Created im = now - 8 * (24 * gotime.Hour) ->
          ~ Z.of_nat k < RetentionPolicy.KeepLastCount policy ->
          imageInfo.Protected im = false ->
          keep (evaluateTag policy now k im) = false))
  /\ (forall n, 0 <= n <= maxDays ->
        imageInfo.Created im = now - n * (24 * gotime.Hour) ->
        days now (imageInfo.Created im) = n
        /\ (ruleKeepDays policy now im (false, "default keep")).1
           = (n <? RetentionPolicy.KeepDays policy)).
Proof.
  intros HD.
  assert (forall n, 0 <= n <= maxDays ->
            imageInfo.Created im = now - n * (24 * gotime.Hour) ->
            days now (imageInfo.Created im) = n) as Hdays.
  { intros n Hn ->. rewrite days_back.
    - by apply wholeDays_exact.
    - unfold gotime.minDuration, gotime.maxDuration, gotime.Hour, maxDays in *.
      lia. }
  split; [intros st; by apply ruleKeepDays_fires|]. split.
  - intros H7. split.
    + intros Hc. unfold evaluateTag. cbn [keep].
      apply ruleNoPolicy_keeps, ruleWhitelist_keeps.
      rewrite ruleKeepDays_fires by done.
      rewrite (Hdays 6), H7 by (done || (unfold maxDays; lia)).
      apply orb_true_r.
    + intros Hc Hlast Hprot. unfold evaluateTag. cbn [keep].
      rewrite ruleNoPolicy_off by (by right).
      unfold ruleWhitelist. rewrite Hprot.
      rewrite ruleKeepDays_skips, ruleKeepLast_skips; [done..|].
      by rewrite (Hdays 8), H7 by (done || (unfold maxDays; lia)).
  - intros n Hn Hc. split; [by apply Hdays|].
    rewrite ruleKeepDays_fires by done. by rewrite (Hdays n).
Qed.

(** ** Tags whose fetch fails *)

Lemma fetchTag_Some client w repoName re t im :
  fetchTag client w repoName re t = Some im ->
  imageInfo.Tag im = t /\ ~ fetchFails client w repoName t.
Proof.
  unfold fetchTag, fetchFails.
  destruct (GetImageCreated client w repoName t) as [created|m]; [|done].
  destruct (GetDigestForTag client w repoName t) as [digest|m]; [|done].
  intros [= <-]. split; [done|]. by intros [[? ?]|[? ?]].
Qed.

Lemma fetchTag_fails client w repoName re t :
  fetchFails client w repoName t -> fetchTag client w repoName re t = None.
Proof.
  unfold fetchTag. intros [[m ->]|[m Hd]]; [done|].
  rewrite Hd. by destruct (GetImageCreated client w repoName t).
Qed.

Lemma fetchImages_tags client w repoName re tags im :
  In im (fetchImages client w repoName re tags) ->
  In (imageInfo.Tag im) tags
  /\ ~ fetchFails client w repoName (imageInfo.Tag im).
Proof.
  unfold fetchImages. intros Hin.
  apply list_elem_of_In, list_elem_of_omap in Hin as (t & Ht & Hf).
  apply fetchTag_Some in Hf as [<- Hok]. split; [|done].
  by apply list_elem_of_In.
Qed.

Lemma fetchImages_without client w repoName re tags t :
  fetchFails client w repoName t ->
  fetchImages client w repoName re tags
  = fetchImages client w repoName re
      (List.filter (fun x => negb (String.eqb x t)) tags).
Proof.
  intros Hfail. unfold fetchImages.
  induction tags as [|x tags IH]; [done|]. simpl.
  destruct (String.eqb_spec x t) as [->|Hne]; simpl.
  - rewrite fetchTag_fails by done. exact IH.
  - destruct (fetchTag client w repoName re x); [f_equal|]; exact IH.
Qed.

(** A tag whose creation-time or digest fetch fails takes no part in the
    decisions. No entry of the returned log carries it; the sorted
    candidates (and with them the indices of rule 1 and [keptDigests])
    are those of a listing without the tag; and every [DeleteManifest]
    the call issues is the one of a logged candidate. Whether such a call
    removes the manifest of the dropped tag is another matter: see
    [failed_fetch_tag_loses_its_manifest]. *)
Theorem failed_fetch_drops_tag arrange client repoName policy now e tags logs
    e' (t : string) :
  permutes arrange ->
  processRepository arrange client repoName policy now e = (Ok logs, e') ->
  ListTags client (world e) repoName = Ok tags ->
  fetchFails client (world e) repoName t ->
  let re := compiled (RetentionPolicy.ExcludeTags policy) in
  (forall l, In l logs -> RetentionLog.Tag l <> t)
  /\ candidates arrange client (world e) repoName re tags
     = candidates arrange client (world e) repoName re
         (List.filter (fun x => negb (String.eqb x t)) tags)
  /\ exists evs,
       trace e' = trace e ++ evs
       /\ forall repo digest, In (DeleteCall repo digest) evs ->
            exists l, In l logs
              /\ repo = RetentionLog.Repository l
              /\ digest = RetentionLog.Digest l
              /\ (RetentionLog.Action l = "deleted"
                  \/ RetentionLog.Action l = "error_delete").
Proof.
  intros Hperm Hrun Htags Hfail re.
  destruct (processRepository_run _ _ _ _ _ _ _ _ _ Hperm Hrun Htags)
    as (Hlen & Hlog & [lines Htr] & _).
  fold re in Hlen, Hlog, Htr.
  set (images := candidates arrange client (world e) repoName re tags) in *.
  set (r := evaluateRules policy now 0 images ∅) in *.
  split; [|split].
  - intros l Hin Htag.
    apply list_elem_of_In, list_elem_of_lookup in Hin as [k Hk].
    assert (k < length logs)%nat as Hlt by (by eapply lookup_lt_Some).
    rewrite Hlen in Hlt. apply lookup_lt_is_Some in Hlt as [im Him].
    destruct (Hlog _ _ Him) as [e0 Hl]. rewrite Hl in Hk.
    destruct (executeAction_meta client repoName policy r.2
                (evaluateTag policy now k im) e0) as (a & rs & Hmeta).
    rewrite Hmeta in Hk. injection Hk as <-. simpl in Htag.
    assert (In im images) as Hin
      by (apply list_elem_of_In, list_elem_of_lookup; eauto).
    unfold images, candidates in Hin.
    apply list_elem_of_In in Hin. rewrite (Hperm _) in Hin.
    apply list_elem_of_In, fetchImages_tags in Hin as [_ Hok].
    rewrite Htag in Hok. done.
  - unfold images, candidates. by rewrite <- fetchImages_without.
  - eexists. split; [exact Htr|]. intros repo digest Hin.
    apply in_app_or in Hin as [Hin|Hin].
    { apply in_map_iff in Hin as (? & ? & _). done. }
    apply in_map_iff in Hin as (d & [= <- <-] & Hf).
    apply filter_In in Hf as [Hd Hdel].
    apply decision_inv in Hd as (k & im & Him & ->).
    destruct (Hlog _ _ Him) as [e0 Hl].
    destruct (executeAction_delete client repoName policy r.2
                (evaluateTag policy now k im) e0 Hdel)
      as (a & rs & w & Heq & Ha).
    rewrite Heq in Hl. simpl in Hl.
    exists (logOf repoName im a rs). split.
    + apply list_elem_of_In, list_elem_of_lookup. eauto.
    + done.
Qed.

(** ** Patterns that do not compile *)










End RetentionFacts.

(** * Properties of the scan scheduler *)

Section TickFacts.
Import models database tasks.

Implicit Types (p q : ScanPolicy.t) (db : DB) (now : gotime.Time).

Lemma statement_quiet db : faults db = [] -> statement db = (None, db).
Proof. unfold statement. by intros ->. Qed.

Lemma setRunTime_ID id last next p :
  ScanPolicy.ID (setRunTime id last next p) = ScanPolicy.ID p.
Proof. unfold setRunTime. by destruct (ScanPolicy.ID p =? id). Qed.

Lemma setRunTime_Enabled id last next p :
  ScanPolicy.Enabled (setRunTime id last next p) = ScanPolicy.Enabled p.
Proof. unfold setRunTime. by destruct (ScanPolicy.ID p =? id). Qed.

Lemma setRunTime_other id last next p :
  ScanPolicy.ID p <> id -> setRunTime id last next p = p.
Proof.
  intros Hne. unfold setRunTime.
  by destruct (Z.eqb_spec (ScanPolicy.ID p) id).
Qed.

Lemma isDue_spec now p :
  isDue now p = true
  <-> ScanPolicy.NextRunAt p = 0 \/ ScanPolicy.NextRunAt p < now.
Proof.
  unfold isDue, gotime.IsZero, gotime.After.
  rewrite orb_true_iff, Z.eqb_eq, Z.ltb_lt. done.
Qed.

Lemma intervalOf_spec p :
  intervalOf p
  = if ScanPolicy.IntervalHours p <=? 0 then 24
    else ScanPolicy.IntervalHours p.
Proof.
  unfold intervalOf.
  destruct (Z.ltb_spec (ScanPolicy.IntervalHours p) 1);
    destruct (Z.leb_spec (ScanPolicy.IntervalHours p) 0); done || lia.
Qed.

Lemma intervalOf_pos p : 1 <= intervalOf p.
Proof.
  unfold intervalOf.
  destruct (Z.ltb_spec (ScanPolicy.IntervalHours p) 1); lia.
Qed.

Lemma wrap64_small (z : Z) : - 2 ^ 63 <= z < 2 ^ 63 -> gotime.wrap64 z = z.
Proof.
  intros Hz. unfold gotime.wrap64.
  rewrite Z.mod_small by lia. lia.
Qed.

(** Within the range of [Duration] the next run is [interval] hours
    after [now]. *)
Lemma nextRun_in_range now p :
  ScanPolicy.IntervalHours p <= maxIntervalHours ->
  nextRun now p = now + intervalOf p * gotime.Hour.
Proof.
  intros Hmax. unfold nextRun, gotime.Add.
  rewrite wrap64_small; [done|].
  pose proof (intervalOf_pos p) as Hpos.
  assert (intervalOf p <= maxIntervalHours) as Hle.
  { unfold intervalOf, maxIntervalHours in *.
    destruct (Z.ltb_spec (ScanPolicy.IntervalHours p) 1); lia. }
  unfold maxIntervalHours, gotime.Hour in *. lia.
Qed.

Lemma nextRun_later now p :
  ScanPolicy.IntervalHours p <= maxIntervalHours -> now < nextRun now p.
Proof.
  intros Hmax. rewrite nextRun_in_range by done.
  pose proof (intervalOf_pos p). unfold gotime.Hour. lia.
Qed.

(** ** One tick *)

Lemma checkLoop_triggered now policies db :
  triggered (checkLoop now policies db).2 = List.filter (isDue now) policies.
Proof.
  revert db. induction policies as [|p rest IH]; intros db; [done|].
  simpl. destruct (isDue now p); [|apply IH].
  destruct (UpdatePolicyRunTime db _ now _) as [err db1].
  specialize (IH db1). destruct (checkLoop now rest db1) as [db2 evs].
  simpl in *. by rewrite IH.
Qed.

Lemma checkLoop_order now policies db :
  storedBeforeDispatch now (checkLoop now policies db).2.
Proof.
  revert db. induction policies as [|p rest IH]; intros db.
  - intros [|? ?] ? ? ?; done.
  - simpl. destruct (isDue now p); [|apply IH].
    destruct (UpdatePolicyRunTime db _ now _) as [err db1].
    specialize (IH db1). destruct (checkLoop now rest db1) as [db2 evs].
    simpl in *. intros pre p' post Heq.
    destruct pre as [|a [|b [|c pre]]]; simpl in Heq; try done.
    + injection Heq as <- <- <- _. eexists [_]. reflexivity.
    + injection Heq as <- <- <- Heq.
      destruct (IH _ _ _ Heq) as [pre' ->].
      eexists (_ :: _ :: _ :: pre'). reflexivity.
Qed.

(** ** What a tick stores, when the statements go through *)

Lemma stamped_ID now ps q : ScanPolicy.ID (stamped now ps q) = ScanPolicy.ID q.
Proof.
  revert q. induction ps as [|p ps IH]; intros q; [done|].
  simpl. by rewrite IH, setRunTime_ID.
Qed.

Lemma stamped_Enabled now ps q :
  ScanPolicy.Enabled (stamped now ps q) = ScanPolicy.Enabled q.
Proof.
  revert q. induction ps as [|p ps IH]; intros q; [done|].
  simpl. by rewrite IH, setRunTime_Enabled.
Qed.

Lemma stamped_other now ps q :
  (forall p, In p ps -> ScanPolicy.ID p <> ScanPolicy.ID q) ->
  stamped now ps q = q.
Proof.
  revert q. induction ps as [|p ps IH]; intros q Hne; [done|].
  simpl. rewrite setRunTime_other.
  - apply IH. intros p' Hin. apply Hne. by right.
  - intros Heq. by apply (Hne p); [left|].
Qed.

Lemma stamped_hit now ps p q :
  List.NoDup (List.map ScanPolicy.ID ps) -> In p ps ->
  ScanPolicy.ID q = ScanPolicy.ID p ->
  stamped now ps q = setRunTime (ScanPolicy.ID p) now (nextRun now p) q.
Proof.
  revert q. induction ps as [|p' ps IH]; intros q Hnd Hin Hid; [done|].
  simpl in *. apply NoDup_cons_iff in Hnd as [Hfresh Hnd].
  destruct Hin as [->|Hin].
  - apply stamped_other. intros p'' Hin'. rewrite setRunTime_ID, Hid.
    intros Heq. apply Hfresh. rewrite <- Heq. by apply in_map.
  - rewrite setRunTime_other.
    + by apply IH.
    + rewrite Hid. intros Heq. apply Hfresh. rewrite <- Heq. by apply in_map.
Qed.

Lemma checkLoop_stores now policies db :
  faults db = [] ->
  faults (checkLoop now policies db).1 = []
  /\ scan_policies (checkLoop now policies db).1
     = List.map (stamped now (List.filter (isDue now) policies))
         (scan_policies db).
Proof.
  revert db. induction policies as [|p rest IH]; intros db Hq.
  - simpl. split; [done|]. by rewrite map_id.
  - simpl. destruct (isDue now p); [|by apply IH].
    unfold UpdatePolicyRunTime. rewrite statement_quiet by done.
    set (db1 := {| registries := _ |}).
    destruct (IH db1 Hq) as [Hf Hs].
    destruct (checkLoop now rest db1) as [db2 evs]. simpl in *.
    split; [done|]. rewrite Hs. unfold db1. simpl.
    by rewrite map_map.
Qed.

Lemma NoDup_map_filter {A B} (f : A -> B) (g : A -> bool) (l : list A) :
  List.NoDup (List.map f l) -> List.NoDup (List.map f (List.filter g l)).
Proof.
  induction l as [|x l IH]; intros Hnd; [done|]. simpl in *.
  apply NoDup_cons_iff in Hnd as [Hfresh Hnd].
  destruct (g x); [|by apply IH]. simpl.
  apply NoDup_cons_iff. split; [|by apply IH].
  intros Hin. apply Hfresh.
  apply in_map_iff in Hin as (y & Hy & Hin).
  apply filter_In in Hin as [Hin _]. rewrite <- Hy. by apply in_map.
Qed.

Lemma NoDup_map_inj {A B} (f : A -> B) (l : list A) (x y : A) :
  List.NoDup (List.map f l) -> In x l -> In y l -> f x = f y -> x = y.
Proof.
  induction l as [|z l IH]; intros Hnd Hx Hy Heq; [done|]. simpl in *.
  apply NoDup_cons_iff in Hnd as [Hfresh Hnd].
  destruct Hx as [->|Hx], Hy as [->|Hy]; try done.
  - exfalso. apply Hfresh. rewrite Heq. by apply in_map.
  - exfalso. apply Hfresh. rewrite <- Heq. by apply in_map.
  - by apply IH.
Qed.

Lemma checkSchedules_quiet now db :
  faults db = [] ->
  checkSchedules now db
  = checkLoop now (List.filter ScanPolicy.Enabled (scan_policies db)) db.
Proof.
  intros Hq. unfold checkSchedules, ListEnabledScanPolicies.
  by rewrite statement_quiet.
Qed.

(** One scheduler tick, for intervals that fit. Of the enabled policies
    that the store returns, the tick dispatches exactly those whose
    [NextRunAt] is zero or before [now]; each dispatch comes right after
    the call that stores [lastRunAt = now] and [nextRunAt = nextRun now p],
    which is [now + interval] hours (24 when [IntervalHours <= 0]) as long
    as [IntervalHours <= 2562047]. When the store executes the statements,
    the row of a dispatched policy holds these two times after the tick,
    and within that range of [IntervalHours] a second tick at the same
    [now] (not before the zero instant) does not dispatch the policy
    again. *)
Theorem tick_dispatches_due_policies now db policies db1 :
  ListEnabledScanPolicies db = (Ok policies, db1) ->
  let tick := checkSchedules now db in
  triggered tick.2 = List.filter (isDue now) policies
  /\ (forall p, isDue now p = true
         <-> ScanPolicy.NextRunAt p = 0 \/ ScanPolicy.NextRunAt p < now)
  /\ storedBeforeDispatch now tick.2
  /\ (forall p, ScanPolicy.IntervalHours p <= maxIntervalHours ->
        nextRun now p
        = now + (if ScanPolicy.IntervalHours p <=? 0 then 24
                 else ScanPolicy.IntervalHours p) * gotime.Hour)
  /\ (faults db = [] ->
      List.NoDup (List.map ScanPolicy.ID (scan_policies db)) ->
      forall p, In p (triggered tick.2) ->
        (forall q, In q (scan_policies tick.1) ->
           ScanPolicy.ID q = ScanPolicy.ID p ->
           ScanPolicy.LastRunAt q = now
           /\ ScanPolicy.NextRunAt q = nextRun now p)
        /\ (0 <= now ->
            ScanPolicy.IntervalHours p <= maxIntervalHours ->
            forall q, In q (triggered (checkSchedules now tick.1).2) ->
              ScanPolicy.ID q <> ScanPolicy.ID p)).
Proof.
  intros Hlist tick.
  assert (tick = checkLoop now policies db1) as Htick.
  { unfold tick, checkSchedules. by rewrite Hlist. }
  split; [|split; [|split; [|split]]].
  - rewrite Htick. apply checkLoop_triggered.
  - intros p. apply isDue_spec.
  - rewrite Htick. apply checkLoop_order.
  - intros p Hmax. rewrite nextRun_in_range by done.
    by rewrite intervalOf_spec.
  - intros Hq Hnd p Hp.
    assert (policies = List.filter ScanPolicy.Enabled (scan_policies db)
            /\ db1 = db) as [-> ->].
    { unfold ListEnabledScanPolicies in Hlist.
      rewrite statement_quiet in Hlist by done. by injection Hlist as <- <-. }
    set (rows := scan_policies db) in *.
    set (due := List.filter (isDue now) (List.filter ScanPolicy.Enabled rows)).
    destruct (checkLoop_stores now (List.filter ScanPolicy.Enabled rows) db Hq)
      as [Hq' Hrows]. fold due in Hrows. rewrite <- Htick in Hq', Hrows.
    assert (In p due) as Hdue.
    { rewrite Htick, checkLoop_triggered in Hp. exact Hp. }
    assert (In p rows) as Hrow.
    { unfold due in Hdue. apply filter_In in Hdue as [Hdue _].
      by apply filter_In in Hdue as [? _]. }
    assert (forall q, In q (scan_policies tick.1) ->
              ScanPolicy.ID q = ScanPolicy.ID p ->
              q = setRunTime (ScanPolicy.ID p) now (nextRun now p) p)
      as Hstored.
    { intros q Hin Hid. rewrite Hrows in Hin.
      apply in_map_iff in Hin as (q0 & <- & Hin0).
      rewrite stamped_ID in Hid.
      assert (q0 = p) as -> by (by eapply NoDup_map_inj).
      apply stamped_hit; [|done..].
      unfold due. by do 2 apply NoDup_map_filter. }
    assert (forall q, In q (scan_policies tick.1) ->
              ScanPolicy.ID q = ScanPolicy.ID p ->
              ScanPolicy.LastRunAt q = now
              /\ ScanPolicy.NextRunAt q = nextRun now p) as Htimes.
    { intros q Hin Hid. rewrite (Hstored q Hin Hid).
      unfold setRunTime. by rewrite Z.eqb_refl. }
    split; [exact Htimes|].
    intros Hnow Hmax q Hin Hid.
    rewrite checkSchedules_quiet, checkLoop_triggered in Hin by done.
    apply filter_In in Hin as [Hin Hisdue].
    apply filter_In in Hin as [Hin _].
    destruct (Htimes q Hin Hid) as [_ Hnext].
    apply isDue_spec in Hisdue. rewrite Hnext in Hisdue.
    pose proof (nextRun_later now p Hmax). lia.
Qed.

End TickFacts.

Section DispatchFacts.
Import models database tasks.
Context {W : Type} `{RegexpPkg}.
Variable NewClient : string -> string -> string -> bool -> registry.Client W.
Variable ready : nat -> bool.

Lemma sent_app (evs evs' : list Event) :
  sent (evs ++ evs') = sent evs ++ sent evs'.
Proof. unfold sent. apply omap_app. Qed.

Lemma queueTags_count reg repoName tags n count :
  (queueTags ready reg repoName tags n count).1.2
  = count
    + Z.of_nat
        (length (sent (queueTags ready reg repoName tags n count).2)).
Proof.
  revert n count. induction tags as [|tag rest IH]; intros n count.
  - simpl. lia.
  - simpl. destruct (ready n).
    + specialize (IH (S n) (count + 1)).
      destruct (queueTags ready reg repoName rest (S n) (count + 1))
        as [[n' count'] evs]. simpl in *. lia.
    + specialize (IH (S n) count).
      destruct (queueTags ready reg repoName rest (S n) count)
        as [[n' count'] evs]. simpl in *. lia.
Qed.

(** The counter of [triggerPolicy] is the number of jobs that went onto
    the queue: a send that lost against the timer adds a warning and
    leaves the counter alone. *)
Lemma queueRepos_count (client : registry.Client W) w reg filterRe repos n
    count :
  (queueRepos ready client w reg filterRe repos n count).1
  = count
    + Z.of_nat
        (length
           (sent (queueRepos ready client w reg filterRe repos n count).2)).
Proof.
  revert n count. induction repos as [|repoName rest IH]; intros n count.
  - simpl. lia.
  - simpl. destruct (registry.notNilAnd filterRe _); [apply IH|].
    destruct (registry.ListTags client w repoName) as [tags|msg]; [|apply IH].
    pose proof (queueTags_count reg repoName tags n count) as Ht.
    destruct (queueTags ready reg repoName tags n count) as [[n' count'] evs].
    specialize (IH n' count').
    destruct (queueRepos ready client w reg filterRe rest n' count')
      as [count'' evs'].
    simpl in *. rewrite sent_app, length_app. lia.
Qed.



End DispatchFacts.

Section WorkerFacts.
Import models database tasks.
Context {X : Type}.
Variable ScanImage :
  X -> string -> string -> string -> result (string * string) * X.

Lemma statement_rows db o db' :
  statement db = (o, db') -> vuln_scans db' = vuln_scans db.
Proof.
  unfold statement. destruct (faults db); by intros [= _ <-].
Qed.

(** A [SaveScan] that returns an error has changed no row. *)
Lemma SaveScan_error_rows db s msg s' db' :
  SaveScan db s = (Some msg, s', db') -> vuln_scans db' = vuln_scans db.
Proof.
  unfold SaveScan.
  destruct (statement db) as [[m|] db1] eqn:E1.
  - intros [= _ _ <-]. by eapply statement_rows.
  - apply statement_rows in E1.
    destruct (List.find _ _);
      destruct (statement db1) as [[m|] db2] eqn:E2;
      intros [=]; subst; apply statement_rows in E2; congruence.
Qed.

(** C10 — when storing the "scanning" record of a job fails, the worker
    logs the error and goes on with the next job: the scanner is not
    called for the job, no second [SaveScan] is made, and the table of
    scans holds the rows it held before. *)
Theorem failed_first_save_skips_scan job t1 t2 db x msg scan' db' :
  SaveScan db (newScan job t1) = (Some msg, scan', db') ->
  workerJob ScanImage job t1 t2 (db, x)
  = (db', x, [SaveScanCall (newScan job t1);
              LogLine ("Worker DB Error: " +:+ msg)])
  /\ vuln_scans db' = vuln_scans db
  /\ forall clock k rest,
       clock (2 * k)%nat = t1 ->
       workerLoop ScanImage clock k (job :: rest) (db, x)
       = (let r := workerLoop ScanImage clock (S k) rest (db', x) in
          (r.1, [SaveScanCall (newScan job t1);
                 LogLine ("Worker DB Error: " +:+ msg)] ++ r.2)).
Proof.
  intros Hsave.
  assert (workerJob ScanImage job t1 t2 (db, x)
          = (db', x, [SaveScanCall (newScan job t1);
                      LogLine ("Worker DB Error: " +:+ msg)])) as Hjob.
  { unfold workerJob. by rewrite Hsave. }
  split; [exact Hjob|]. split; [by eapply SaveScan_error_rows|].
  intros clock k rest Hclock.
  cbn [workerLoop]. rewrite Hclock.
  assert (workerJob ScanImage job t1 (clock (2 * k + 1)%nat) (db, x)
          = (db', x, [SaveScanCall (newScan job t1);
                      LogLine ("Worker DB Error: " +:+ msg)])) as ->.
  { unfold workerJob. by rewrite Hsave. }
  by destruct (workerLoop ScanImage clock (S k) rest (db', x)).
Qed.

End WorkerFacts.


(** * The model at work *)

Section Examples.
Import models database registry fixtures.

Lemma sortNewestFirst_permutes : permutes sortNewestFirst.
Proof. intros images. apply merge_sort_Permutation. Qed.

#[local] Instance newerFirst_total : Total newerFirst.
Proof. intros a b. unfold newerFirst. lia. Qed.

Lemma sortNewestFirst_sorted images :
  Sorted newerFirst (sortNewestFirst images).
Proof. apply Sorted_merge_sort. apply _. Qed.

(** "old" (30 days, not protected) shares its digest with the protected
    "latest": it is kept and nothing is deleted. *)
Lemma shared_digest_is_kept_witness :
  let run :=
    processRepository sortNewestFirst memClient "app" sharedPolicy today
      (start sharedDigest) in
  let logs := match run.1 with Ok logs => logs | Err _ => [] end in
  logs !! 1%nat
  = Some (RetentionLog.mk "app" "old" "sha256:aa" (today - 30 * day)
            "kept" "digest shared with retained tag")
  /\ exists evs,
       trace run.2 = [] ++ evs /\ ~ In (DeleteCall "app" "sha256:aa") evs.
Proof.
  intros run logs.
  assert (run = (Ok logs, run.2)) as Hrun by (vm_compute; reflexivity).
  exact (shared_digest_is_kept sortNewestFirst memClient "app" sharedPolicy
           today (start sharedDigest) ["latest"; "old"; "new"] logs run.2
           2%nat 1%nat
           (imageInfo.mk "latest" "sha256:aa" (today - 40 * day) true)
           (imageInfo.mk "old" "sha256:aa" (today - 30 * day) false)
           sortNewestFirst_permutes Hrun eq_refl eq_refl eq_refl eq_refl
           eq_refl eq_refl).
Defined.

(** Without rules, a run over the five images deletes nothing. *)
Lemma no_policy_keeps_every_tag_witness :
  let run :=
    RunRetention memNewClient (fun _ => sortNewestFirst) localRegistry
      noPolicy (fun _ => today) (start fiveTags) in
  world run.2 = fiveTags
  /\ deletes (trace run.2) = []
  /\ forall logs l, run.1 = Ok logs -> In l logs ->
       RetentionLog.Action l = "kept"
       /\ RetentionLog.Reason l = "no policy set".
Proof.
  intros run.
  exact (proj2 (no_policy_keeps_every_tag memNewClient noPolicy
                  ltac:(simpl; lia) ltac:(simpl; lia))
           (fun _ => sortNewestFirst) localRegistry (fun _ => today)
           (start fiveTags) run.1 run.2
           (fun _ => sortNewestFirst_permutes) (surjective_pairing run)).
Defined.

(** A dry run with keep-last-2 over the five images deletes nothing. *)
Lemma dry_run_deletes_nothing_witness :
  let run :=
    RunRetention memNewClient (fun _ => sortNewestFirst) localRegistry
      dryPolicy (fun _ => today) (start fiveTags) in
  world run.2 = fiveTags /\ deletes (trace run.2) = [].
Proof.
  intros run.
  exact (proj2 (dry_run_deletes_nothing memNewClient dryPolicy eq_refl)
           (fun _ => sortNewestFirst) localRegistry (fun _ => today)
           (start fiveTags) run.1 run.2
           (fun _ => sortNewestFirst_permutes) (surjective_pairing run)).
Defined.

(** Keep-last-2 over the five images: v5 (index 0) is kept with the
    reason "within last 2 images". *)
Lemma keep_last_keeps_first_N_witness :
  let run :=
    processRepository sortNewestFirst memClient "app" dryPolicy today
      (start fiveTags) in
  let logs := match run.1 with Ok logs => logs | Err _ => [] end in
  ruleKeepLast dryPolicy 0 (false, "default keep")
  = (true, "within last 2 images")
  /\ logs !! 0%nat
     = Some (RetentionLog.mk "app" "v5" "sha256:05" (today - 10 * day)
               "kept" "within last 2 images").
Proof.
  intros run logs.
  assert (run = (Ok logs, run.2)) as Hrun by (vm_compute; reflexivity).
  destruct (keep_last_keeps_first_N sortNewestFirst memClient "app" dryPolicy
              today (start fiveTags) ["v1"; "v2"; "v3"; "v4"; "v5"] logs run.2
              ltac:(simpl; lia) sortNewestFirst_permutes Hrun eq_refl
              0%nat (imageInfo.mk "v5" "sha256:05" (today - 10 * day) false)
              eq_refl) as [Hrule Hrest].
  split; [exact Hrule|].
  refine (proj2 (Hrest ltac:(simpl; lia) _) ltac:(simpl; lia)).
  intros im' Hin. simpl in Hin.
  repeat (destruct Hin as [<-|Hin]; [reflexivity|]). destruct Hin.
Defined.

(** [KeepDays = 7]: six days old is kept, eight days old is not. *)
Lemma keep_days_counts_whole_days_witness :
  keep (evaluateTag weekPolicy today 0
          (imageInfo.mk "a" "sha256:0a" (today - 6 * (24 * gotime.Hour)) false))
  = true
  /\ keep (evaluateTag weekPolicy today 0
             (imageInfo.mk "b" "sha256:0b" (today - 8 * (24 * gotime.Hour))
                false))
     = false.
Proof.
  split.
  - exact (proj1 (proj1 (proj2 (keep_days_counts_whole_days weekPolicy
                                  today 0
                                  (imageInfo.mk "a" "sha256:0a"
                                     (today - 6 * (24 * gotime.Hour)) false)
                                  ltac:(simpl; lia))) eq_refl) eq_refl).
  - exact (proj2 (proj1 (proj2 (keep_days_counts_whole_days weekPolicy
                                  today 0
                                  (imageInfo.mk "b" "sha256:0b"
                                     (today - 8 * (24 * gotime.Hour)) false)
                                  ltac:(simpl; lia))) eq_refl)
             eq_refl ltac:(simpl; lia) eq_refl).
Defined.

(** C5 — the age rule at a day boundary. [KeepDays = 171] and an image
    created one nanosecond less than 171 days before [now]: its age is
    below 171 days, but [age.Hours()] rounds to 4104 hours, so the rule
    counts 171 whole days and does not keep the image, and a run that is
    not a dry run deletes it. The count itself truncates: an image of six
    and a half days counts 6 days and is kept by [KeepDays = 7]. *)
Theorem keep_days_boundary_deletes_younger_image :
  let policy := policyOf 0 171 false EmptyString EmptyString EmptyString in
  let created := today - (171 * day - 1) in
  let im := imageInfo.mk "old" "sha256:01" created false in
  let run :=
    processRepository sortNewestFirst memClient "app" policy today
      (start almost171) in
  0 < RetentionPolicy.KeepDays policy
  /\ gotime.Sub today created < RetentionPolicy.KeepDays policy * day
  /\ gotime.Hours (gotime.Sub today created) = gotime.float_of_Z 4104
  /\ days today created = 171
  /\ (ruleKeepDays policy today im (false, "default keep")).1 = false
  /\ keep (evaluateTag policy today 0 im) = false
  /\ run.1
     = Ok [RetentionLog.mk "app" "old" "sha256:01" created "deleted"
             "exceeds retention limits"]
  /\ trace run.2 = [DeleteCall "app" "sha256:01"]
  /\ days today (today - (6 * day + 12 * gotime.Hour)) = 6
  /\ keep (evaluateTag weekPolicy today 0
             (imageInfo.mk "mid" "sha256:02"
                (today - (6 * day + 12 * gotime.Hour)) false))
     = true.
Proof. vm_compute. repeat split. Qed.

(** The listing fails to fetch "broken": it is in no entry, and the one
    delete of the run is the one of v1. *)
Lemma failed_fetch_drops_tag_witness :
  let run :=
    processRepository sortNewestFirst memClient "app"
      (policyOf 1 0 false EmptyString EmptyString EmptyString) today
      (start brokenTag) in
  let logs := match run.1 with Ok logs => logs | Err _ => [] end in
  (forall l, In l logs -> RetentionLog.Tag l <> "broken")
  /\ candidates sortNewestFirst memClient brokenTag "app" None
       ["v1"; "broken"; "v3"]
     = candidates sortNewestFirst memClient brokenTag "app" None
         ["v1"; "v3"].
Proof.
  intros run logs.
  assert (run = (Ok logs, run.2)) as Hrun by (vm_compute; reflexivity).
  destruct (failed_fetch_drops_tag sortNewestFirst memClient "app"
              (policyOf 1 0 false EmptyString EmptyString EmptyString) today
              (start brokenTag) ["v1"; "broken"; "v3"] logs run.2 "broken"
              sortNewestFirst_permutes Hrun eq_refl
              (or_introl (ex_intro _ "blob fetch failed" eq_refl)))
    as (Hlogs & Hcand & _).
  split; [exact Hlogs | exact Hcand].
Defined.

(** A policy that never ran and has [IntervalHours = 0] is dispatched,
    stored with the next run 24 hours later, and not dispatched by a
    second tick at the same time. *)
Lemma tick_dispatches_due_policies_witness :
  let tick := tasks.checkSchedules today (withPolicies [dailyPolicy]) in
  tasks.triggered tick.2 = [dailyPolicy]
  /\ (forall q, In q (scan_policies tick.1) ->
        ScanPolicy.ID q = 1 ->
        ScanPolicy.LastRunAt q = today
        /\ ScanPolicy.NextRunAt q = today + 24 * gotime.Hour)
  /\ forall q, In q (tasks.triggered (tasks.checkSchedules today tick.1).2) ->
       ScanPolicy.ID q <> 1.
Proof.
  intros tick.
  destruct (tick_dispatches_due_policies today (withPolicies [dailyPolicy])
              [dailyPolicy] (withPolicies [dailyPolicy]) eq_refl)
    as (Htrig & _ & _ & _ & Hstore).
  split; [exact Htrig|].
  destruct (Hstore eq_refl
              ltac:(simpl; constructor; [intros []|constructor])
              dailyPolicy ltac:(simpl; left; reflexivity))
    as [Hrow Hagain].
  split; [exact Hrow|].
  exact (Hagain ltac:(vm_compute; discriminate)
           ltac:(vm_compute; discriminate)).
Defined.

(** C6 — a double trigger. [IntervalHours = 2562048]: the product with
    [time.Hour] wraps around, the tick stores a next run that lies before
    [now], and the second tick at the same [now] dispatches the policy
    again. *)
Theorem tick_interval_overflow_double_trigger :
  let tick := tasks.checkSchedules today (withPolicies [overflowPolicy]) in
  let again := tasks.checkSchedules today tick.1 in
  ScanPolicy.Enabled overflowPolicy = true
  /\ ScanPolicy.IntervalHours overflowPolicy = 2562048
  /\ tasks.triggered tick.2 = [overflowPolicy]
  /\ tasks.nextRun today overflowPolicy
     <> today + ScanPolicy.IntervalHours overflowPolicy * gotime.Hour
  /\ tasks.nextRun today overflowPolicy < today
  /\ List.map ScanPolicy.LastRunAt (scan_policies tick.1) = [today]
  /\ List.map ScanPolicy.NextRunAt (scan_policies tick.1)
     = [tasks.nextRun today overflowPolicy]
  /\ List.map ScanPolicy.ID (tasks.triggered again.2)
     = [ScanPolicy.ID overflowPolicy].
Proof.
  vm_compute. split; [reflexivity|]. split; [reflexivity|].
  split; [reflexivity|]. split; [discriminate|]. repeat split.
Qed.

(** C8 — a dropped tag loses its manifest. The creation time of "latest"
    cannot be fetched, so the tag is dropped: it has no entry, although
    its name matches the whitelist. Its digest is the digest of "v1",
    which "keep the last 1" deletes: the run issues [DeleteManifest] for
    that digest, and afterwards the registry lists neither "v1" nor
    "latest". *)
Theorem failed_fetch_tag_loses_its_manifest :
  let policy := policyOf 1 0 false EmptyString EmptyString "^latest$" in
  let run :=
    processRepository sortNewestFirst memClient "app" policy today
      (start sharedWithBroken) in
  ListTags memClient sharedWithBroken "app" = Ok ["latest"; "v1"; "v2"]
  /\ GetImageCreated memClient sharedWithBroken "app" "latest"
     = Err "blob fetch failed"
  /\ GetDigestForTag memClient sharedWithBroken "app" "latest"
     = Ok "sha256:01"
  /\ MatchString [{| atStart := true; atEnd := true; body := "latest" |}]
       "latest" = true
  /\ run.1
     = Ok [RetentionLog.mk "app" "v2" "sha256:02" (today - 1 * day) "kept"
             "within last 1 images";
           RetentionLog.mk "app" "v1" "sha256:01" (today - 50 * day)
             "deleted" "exceeds retention limits"]
  /\ trace run.2 = [DeleteCall "app" "sha256:01"]
  /\ ListTags memClient (world run.2) "app" = Ok ["v2"].
Proof. vm_compute. repeat split. Qed.



(** The first statement of [SaveScan] fails: the job is given up and the
    next one is scanned. *)
Lemma failed_first_save_skips_scan_witness :
  tasks.workerJob noScanner job1 today today
    (withFaults [Some "disk I/O error"], tt)
  = (withFaults [], tt,
     [tasks.SaveScanCall (tasks.newScan job1 today);
      tasks.LogLine ("Worker DB Error: " +:+ "disk I/O error")])
  /\ vuln_scans (withFaults []) = [].
Proof.
  destruct (failed_first_save_skips_scan noScanner job1 today today
              (withFaults [Some "disk I/O error"]) tt "disk I/O error"
              (tasks.newScan job1 today) (withFaults []) eq_refl)
    as (Hjob & Hrows & _).
  split; [exact Hjob | exact Hrows].
Defined.

End Examples.

(** * More on the retention engine *)

Section RetentionLogFacts.
Import models registry.
Context {W : Type} `{RegexpPkg}.

Implicit Types (client : Client W) (policy : RetentionPolicy.t).
Implicit Types (e : Env W) (d : tagDecision) (im : imageInfo.t).
Implicit Types (keptDigests : gmap string bool).
Implicit Types (arrange : list imageInfo.t -> list imageInfo.t).
Implicit Types (arrangeAt : nat -> list imageInfo.t -> list imageInfo.t).

(** The decision of the first loop as one boolean expression. *)
Lemma keep_evaluateTag policy now i im :
  keep (evaluateTag policy now i im)
  = (0 <? RetentionPolicy.KeepLastCount policy)
    && (Z.of_nat i <? RetentionPolicy.KeepLastCount policy)
    || (0 <? RetentionPolicy.KeepDays policy)
       && (days now (imageInfo.Created im) <? RetentionPolicy.KeepDays policy)
    || imageInfo.Protected im
    || (RetentionPolicy.KeepLastCount policy <=? 0)
       && (RetentionPolicy.KeepDays policy <=? 0).
Proof.
  unfold evaluateTag, ruleNoPolicy, ruleWhitelist, ruleKeepDays, ruleKeepLast.
  destruct (0 <? RetentionPolicy.KeepLastCount policy) eqn:HN,
    (Z.of_nat i <? RetentionPolicy.KeepLastCount policy),
    (0 <? RetentionPolicy.KeepDays policy) eqn:HD,
    (days now (imageInfo.Created im) <? RetentionPolicy.KeepDays policy),
    (imageInfo.Protected im),
    (RetentionPolicy.KeepLastCount policy <=? 0) eqn:HN',
    (RetentionPolicy.KeepDays policy <=? 0) eqn:HD';
    cbn; try reflexivity; lia.
Qed.

(** X1. A tag is marked to keep exactly when one of the rules speaks for
    it: it is among the first [KeepLastCount] candidates, it is younger
    than [KeepDays] whole days, its name matches the whitelist, or the
    policy sets neither limit. *)
Theorem keep_decision_is_disjunction_of_rules policy now i im :
  keep (evaluateTag policy now i im) = true
  <-> (0 < RetentionPolicy.KeepLastCount policy
       /\ Z.of_nat i < RetentionPolicy.KeepLastCount policy)
      \/ (0 < RetentionPolicy.KeepDays policy
          /\ days now (imageInfo.Created im) < RetentionPolicy.KeepDays policy)
      \/ imageInfo.Protected im = true
      \/ (RetentionPolicy.KeepLastCount policy <= 0
          /\ RetentionPolicy.KeepDays policy <= 0).
Proof.
  rewrite keep_evaluateTag.
  rewrite !orb_true_iff, !andb_true_iff, !Z.ltb_lt, !Z.leb_le. tauto.
Qed.

(** X2. Raising [KeepLastCount] or [KeepDays] of a policy that sets a
    limit never turns a kept tag into one to delete. *)
Theorem raising_limits_keeps_more p q now i im :
  0 < RetentionPolicy.KeepLastCount p \/ 0 < RetentionPolicy.KeepDays p ->
  RetentionPolicy.KeepLastCount p <= RetentionPolicy.KeepLastCount q ->
  RetentionPolicy.KeepDays p <= RetentionPolicy.KeepDays q ->
  keep (evaluateTag p now i im) = true ->
  keep (evaluateTag q now i im) = true.
Proof.
  intros Hset HN HD. rewrite !keep_evaluateTag.
  rewrite !orb_true_iff, !andb_true_iff, !Z.ltb_lt, !Z.leb_le.
  intuition lia.
Qed.

(** ** The log and the calls *)

Lemma filter_drop {A} (f : A -> bool) (l : list A) (n : nat) :
  (forall k x, l !! k = Some x -> f x = negb (k <? n)%nat) ->
  List.filter f l = drop n l.
Proof.
  revert n. induction l as [|a l IH]; intros n Hf; [by destruct n|].
  pose proof (Hf 0%nat a eq_refl) as Ha. cbn [List.filter]. rewrite Ha.
  destruct n as [|n]; cbn.
  - f_equal. rewrite (IH 0%nat); [done|].
    intros k x Hk. by rewrite (Hf (S k) x Hk).
  - apply IH. intros k x Hk. by rewrite (Hf (S k) x Hk).
Qed.

Lemma processRepository_cases arrange client repoName policy now e logs e' :
  processRepository arrange client repoName policy now e = (Ok logs, e') ->
  (logs = [] /\ e' = e)
  \/ exists tags lines,
       ListTags client (world e) repoName = Ok tags
       /\ let images :=
            candidates arrange client (world e) repoName
              (compiled (RetentionPolicy.ExcludeTags policy)) tags in
          let r := evaluateRules policy now 0 images ∅ in
          let e1 := {| world := world e;
                       trace := trace e ++ List.map LogLine lines |} in
          (logs, e') = executeActions client repoName policy r.2 r.1 e1.
Proof.
  unfold processRepository.
  destruct (ListTags client (world e) repoName) as [tags|m]; [|congruence].
  destruct (length tags =? 0)%nat eqn:Hlen.
  - intros [= <- <-]. by left.
  - pose proof (compileLogged_fst "⚠️ Invalid ExcludeTags regex: "
                  (RetentionPolicy.ExcludeTags policy) e) as Hfst.
    destruct (compileLogged_trace "⚠️ Invalid ExcludeTags regex: "
                (RetentionPolicy.ExcludeTags policy) e) as [lines Hsnd].
    destruct (compileLogged _ _ e) as [re e1]. simpl in Hfst, Hsnd.
    subst re e1. cbn [world].
    destruct (evaluateRules _ _ _ _ _) as [ds kept] eqn:Ev.
    destruct (executeActions _ _ _ _ ds _) as [ls e2] eqn:E.
    intros [= <- <-]. right. exists tags, lines. split; [done|].
    cbn zeta. by rewrite Ev.
Qed.

Lemma executeAction_entry client repoName policy keptDigests d e :
  entryOf repoName policy keptDigests d
    (executeAction client repoName policy keptDigests d e).1.
Proof.
  destruct (toDelete policy keptDigests d) eqn:Htd.
  - destruct (executeAction_delete client repoName policy keptDigests d e Htd)
      as (action & reason & w & -> & Hact).
    unfold entryOf, knownAction, isDeletion. cbn.
    destruct Hact as [-> | ->]; cbn; repeat split; auto.
  - rewrite executeAction_static by done.
    unfold entryOf, knownAction, isDeletion. cbn.
    destruct (keep d), (isKept keptDigests (imageInfo.Digest (img d)));
      cbn; repeat split; auto.
Qed.

Lemma executeActions_entries client repoName policy keptDigests ds e :
  Forall2 (entryOf repoName policy keptDigests) ds
    (executeActions client repoName policy keptDigests ds e).1.
Proof.
  revert e. induction ds as [|d ds IH]; intros e; simpl; [constructor|].
  pose proof (executeAction_entry client repoName policy keptDigests d e)
    as Hd.
  destruct (executeAction _ _ _ _ d e) as [l e1].
  specialize (IH e1).
  destruct (executeActions _ _ _ _ ds e1) as [ls e2].
  by constructor.
Qed.

Lemma entries_deletions repoName policy keptDigests ds logs :
  Forall2 (entryOf repoName policy keptDigests) ds logs ->
  List.map deleteCallOf (List.filter isDeletion logs)
  = List.map (fun d => DeleteCall repoName (imageInfo.Digest (img d)))
      (List.filter (toDelete policy keptDigests) ds).
Proof.
  induction 1 as [|d l ds logs (Hr & _ & Hd & _ & _ & Hdel) _ IH];
    simpl; [done|].
  rewrite Hdel. destruct (toDelete policy keptDigests d); simpl; [|done].
  rewrite IH. unfold deleteCallOf. by rewrite Hr, Hd.
Qed.

Lemma entries_known repoName policy keptDigests ds logs :
  Forall2 (entryOf repoName policy keptDigests) ds logs ->
  Forall (fun l => RetentionLog.Repository l = repoName /\ knownAction l) logs.
Proof.
  induction 1 as [|d l ds logs Hd _ IH]; constructor; [|done].
  unfold entryOf in Hd. tauto.
Qed.

Lemma deletes_calls (logs : list RetentionLog.t) :
  deletes (List.map deleteCallOf logs) = List.map deleteCallOf logs.
Proof. induction logs as [|l logs IH]; simpl; [done|]. by rewrite IH. Qed.

Lemma processRepository_audit arrange client repoName policy now e logs e' :
  processRepository arrange client repoName policy now e = (Ok logs, e') ->
  Forall (fun l => RetentionLog.Repository l = repoName /\ knownAction l) logs
  /\ exists lines,
       trace e'
       = trace e ++ List.map LogLine lines
         ++ List.map deleteCallOf (List.filter isDeletion logs).
Proof.
  intros Hrun.
  destruct (processRepository_cases _ _ _ _ _ _ _ _ Hrun)
    as [[-> ->] | (tags & lines & _ & Hex)].
  - split; [constructor|]. exists []. simpl. by rewrite app_nil_r.
  - cbn zeta in Hex.
    set (r := evaluateRules policy now 0 _ ∅) in Hex.
    pose proof (executeActions_entries client repoName policy r.2 r.1
                  {| world := world e;
                     trace := trace e ++ List.map LogLine lines |}) as Hent.
    pose proof (executeActions_trace client repoName policy r.2 r.1
                  {| world := world e;
                     trace := trace e ++ List.map LogLine lines |}) as Htr.
    rewrite <- Hex in Hent, Htr. cbn [fst snd trace] in Hent, Htr.
    split.
    + by eapply entries_known.
    + exists lines. rewrite Htr, <- app_assoc. f_equal. f_equal.
      symmetry. by eapply entries_deletions.
Qed.

Lemma processRepos_audit arrangeAt client policy
    (filterRepoRe excludeRepoRe : option Regexp) clock repos :
  forall k e logs e',
    processRepos arrangeAt client policy filterRepoRe excludeRepoRe
      clock k repos e = (logs, e') ->
    Forall knownAction logs
    /\ deletes (trace e')
       = deletes (trace e)
         ++ List.map deleteCallOf (List.filter isDeletion logs).
Proof.
  induction repos as [|repo rest IH]; intros k e logs e'; simpl.
  - intros [= <- <-]. split; [constructor|]. simpl. by rewrite app_nil_r.
  - destruct (notNilAnd filterRepoRe _); [apply IH|].
    destruct (notNilAnd excludeRepoRe _); [apply IH|].
    destruct (processRepository (arrangeAt k) client repo policy (clock k) e)
      as [[repoLogs|msg] e1] eqn:E.
    + destruct (processRepos _ _ _ _ _ _ _ rest e1) as [ls e2] eqn:E2.
      intros [= <- <-].
      destruct (processRepository_audit _ _ _ _ _ _ _ _ E)
        as [Hknown [lines Htr]].
      destruct (IH _ _ _ _ E2) as [Hknown2 Htr2].
      split.
      * apply Forall_app. split; [|done].
        eapply Forall_impl; [exact Hknown|]. simpl. tauto.
      * rewrite Htr2, Htr, !deletes_app, deletes_log_lines, deletes_calls.
        simpl. rewrite List.filter_app, List.map_app. by rewrite app_assoc.
    + apply processRepository_err in E as ->. intros Hrest.
      destruct (IH _ _ _ _ Hrest) as [Hknown Htr]. split; [done|].
      rewrite Htr. simpl. rewrite deletes_app. simpl. by rewrite app_nil_r.
Qed.

(** ** The candidates and their entries *)

Lemma fetchTag_inv client w repoName re t im :
  fetchTag client w repoName re t = Some im ->
  imageInfo.Tag im = t
  /\ GetImageCreated client w repoName t = Ok (imageInfo.Created im)
  /\ GetDigestForTag client w repoName t = Ok (imageInfo.Digest im)
  /\ imageInfo.Protected im = notNilAnd re (fun r => MatchString r t).
Proof.
  unfold fetchTag.
  destruct (GetImageCreated client w repoName t) as [created|]; [|done].
  destruct (GetDigestForTag client w repoName t) as [digest|]; [|done].
  by intros [= <-].
Qed.

Lemma fetched_fetchTag client w repoName re t :
  fetched client w repoName t = true ->
  exists im, fetchTag client w repoName re t = Some im.
Proof.
  unfold fetched, fetchTag.
  destruct (GetImageCreated client w repoName t) as [created|]; [|done].
  destruct (GetDigestForTag client w repoName t) as [digest|]; [|done].
  intros _. by eexists.
Qed.

Lemma fetchImages_fetched client w repoName re tags :
  List.map imageInfo.Tag (fetchImages client w repoName re tags)
  = List.filter (fetched client w repoName) tags.
Proof.
  unfold fetchImages.
  induction tags as [|t tags IH]; [done|].
  cbn [List.filter]. unfold fetched at 1.
  change (omap (fetchTag client w repoName re) (t :: tags))
    with (match fetchTag client w repoName re t with
          | Some im => im :: omap (fetchTag client w repoName re) tags
          | None => omap (fetchTag client w repoName re) tags
          end).
  unfold fetchTag at 1.
  destruct (GetImageCreated client w repoName t) as [created|]; [|exact IH].
  destruct (GetDigestForTag client w repoName t) as [digest|]; [|exact IH].
  cbn. by rewrite <- IH.
Qed.

Lemma In_fetchImages client w repoName re tags im :
  In im (fetchImages client w repoName re tags)
  <-> exists t, In t tags /\ fetchTag client w repoName re t = Some im.
Proof.
  unfold fetchImages. rewrite <- list_elem_of_In, list_elem_of_omap.
  split; intros (t & Ht & Hf); exists t; split; try done;
    by apply list_elem_of_In.
Qed.

Lemma evaluateRules_imgs policy now images i keptDigests :
  List.map img (evaluateRules policy now i images keptDigests).1 = images.
Proof.
  revert i keptDigests.
  induction images as [|im rest IH]; intros i keptDigests; [done|].
  rewrite evaluateRules_cons. cbn [fst List.map].
  by rewrite evaluateTag_img, IH.
Qed.

Lemma entries_fields repoName policy keptDigests ds logs :
  Forall2 (entryOf repoName policy keptDigests) ds logs ->
  List.map (fun l => (RetentionLog.Tag l, RetentionLog.Digest l,
                      RetentionLog.Created l)) logs
  = List.map (fun im => (imageInfo.Tag im, imageInfo.Digest im,
                         imageInfo.Created im)) (List.map img ds).
Proof.
  induction 1 as [|d l ds logs (_ & Ht & Hd & Hc & _) _ IH]; simpl; [done|].
  by rewrite Ht, Hd, Hc, IH.
Qed.

Lemma entries_tags repoName policy keptDigests ds logs :
  Forall2 (entryOf repoName policy keptDigests) ds logs ->
  List.map RetentionLog.Tag logs
  = List.map imageInfo.Tag (List.map img ds).
Proof.
  induction 1 as [|d l ds logs (_ & Ht & _) _ IH]; simpl; [done|].
  by rewrite Ht, IH.
Qed.

(** X4. The log of a repository has one entry for each listed tag whose
    creation time and digest could both be fetched, as often as the tag
    is listed; the entries come in the order of the sorted candidates, and
    each carries the repository, the creation time and the digest that the
    registry gave for its tag. *)
Theorem log_lists_the_fetched_tags arrange client repoName policy now e tags
    logs e' :
  permutes arrange ->
  processRepository arrange client repoName policy now e = (Ok logs, e') ->
  ListTags client (world e) repoName = Ok tags ->
  let images :=
    candidates arrange client (world e) repoName
      (compiled (RetentionPolicy.ExcludeTags policy)) tags in
  List.map (fun l => (RetentionLog.Tag l, RetentionLog.Digest l,
                      RetentionLog.Created l)) logs
  = List.map (fun im => (imageInfo.Tag im, imageInfo.Digest im,
                         imageInfo.Created im)) images
  /\ List.map RetentionLog.Tag logs
     ≡ₚ List.filter (fetched client (world e) repoName) tags
  /\ forall l, In l logs ->
       RetentionLog.Repository l = repoName
       /\ In (RetentionLog.Tag l) tags
       /\ GetImageCreated client (world e) repoName (RetentionLog.Tag l)
          = Ok (RetentionLog.Created l)
       /\ GetDigestForTag client (world e) repoName (RetentionLog.Tag l)
          = Ok (RetentionLog.Digest l).
Proof.
  intros Hperm Hrun Htags images.
  destruct (processRepository_ok _ _ _ _ _ _ _ _ Hperm Hrun)
    as (tags' & lines & Htags' & Hex).
  assert (tags' = tags) as -> by congruence.
  cbn zeta in Hex. fold images in Hex.
  set (r := evaluateRules policy now 0 images ∅) in Hex.
  pose proof (executeActions_entries client repoName policy r.2 r.1
                {| world := world e;
                   trace := trace e ++ List.map LogLine lines |}) as Hent.
  rewrite <- Hex in Hent. cbn [fst] in Hent.
  pose proof (entries_fields _ _ _ _ _ Hent) as Hfields.
  unfold r in Hfields. rewrite evaluateRules_imgs in Hfields.
  split; [exact Hfields|]. split.
  - transitivity (List.map imageInfo.Tag images).
    + rewrite (entries_tags _ _ _ _ _ Hent). unfold r.
      by rewrite evaluateRules_imgs.
    + rewrite <- (fetchImages_fetched client (world e) repoName
                   (compiled (RetentionPolicy.ExcludeTags policy)) tags).
      apply Permutation_map, Hperm.
  - intros l Hl.
    split.
    { apply entries_known in Hent.
      rewrite Forall_forall in Hent.
      by apply Hent, list_elem_of_In. }
    apply (in_map (fun l => (RetentionLog.Tag l, RetentionLog.Digest l,
                             RetentionLog.Created l))) in Hl.
    rewrite Hfields in Hl. apply in_map_iff in Hl as (im & Heq & Him).
    injection Heq as Ht Hd Hc.
    apply list_elem_of_In in Him. unfold images, candidates in Him.
    rewrite (Hperm _) in Him. apply list_elem_of_In in Him.
    apply In_fetchImages in Him as (t & Hin & Hf).
    apply fetchTag_inv in Hf as (Ht' & Hcr & Hdg & _).
    rewrite <- Ht, Ht', <- Hd, <- Hc. done.
Qed.

(** X5. A listed tag whose name matches [ExcludeTags] and whose fetches
    succeed has an entry with the action "kept", and the call deletes no
    manifest with the digest of that entry. *)
Theorem whitelisted_tag_is_kept arrange client repoName policy now e tags
    logs e' (re : Regexp) (t : string) :
  permutes arrange ->
  processRepository arrange client repoName policy now e = (Ok logs, e') ->
  ListTags client (world e) repoName = Ok tags ->
  compiled (RetentionPolicy.ExcludeTags policy) = Some re ->
  In t tags ->
  MatchString re t = true ->
  fetched client (world e) repoName t = true ->
  exists l,
    In l logs /\ RetentionLog.Tag l = t /\ RetentionLog.Action l = "kept"
    /\ exists evs,
         trace e' = trace e ++ evs
         /\ ~ In (DeleteCall repoName (RetentionLog.Digest l)) evs.
Proof.
  intros Hperm Hrun Htags Hre Hin Hmatch Hfetched.
  destruct (fetched_fetchTag client (world e) repoName (Some re) t Hfetched)
    as [im Hf].
  destruct (fetchTag_inv _ _ _ _ _ _ Hf) as (Ht & _ & _ & Hprot).
  cbn in Hprot. rewrite Hmatch in Hprot.
  destruct (processRepository_run _ _ _ _ _ _ _ _ _ Hperm Hrun Htags)
    as (_ & Hlook & [lines Htr] & _).
  cbn zeta in Hlook, Htr. rewrite Hre in Hlook, Htr.
  set (images := candidates arrange client (world e) repoName (Some re) tags)
    in *.
  set (r := evaluateRules policy now 0 images ∅) in *.
  assert (im ∈ images) as Him.
  { unfold images, candidates. rewrite (Hperm _).
    apply list_elem_of_In, In_fetchImages. by exists t. }
  apply list_elem_of_lookup in Him as [k Hk].
  assert (keep (evaluateTag policy now k im) = true) as Hkeep.
  { rewrite keep_evaluateTag, Hprot.
    by rewrite orb_true_r. }
  destruct (Hlook k im Hk) as [e0 Hl].
  rewrite executeAction_static in Hl
    by (unfold toDelete; by rewrite Hkeep).
  rewrite Hkeep, evaluateTag_img in Hl.
  eexists. split; [eapply list_elem_of_In, list_elem_of_lookup_2, Hl|].
  split; [exact Ht|]. split; [reflexivity|].
  eexists. split; [exact Htr|]. cbn.
  intros [Hlog | Hdel]%in_app_or.
  - apply in_map_iff in Hlog as (x & Hx & _). discriminate.
  - apply in_map_iff in Hdel as (d & Hd & Hfil).
    injection Hd as Hd. apply filter_In in Hfil as [_ Htd].
    unfold toDelete in Htd. rewrite Hd in Htd.
    pose proof (kept_of_keep policy now images k im Hk Hkeep) as Hkept.
    fold r in Hkept. rewrite Hkept in Htd.
    by rewrite andb_false_r in Htd.
Qed.

(** X6. With [KeepLastCount] as the only rule, no whitelist match and
    pairwise different digests, a run that is not a dry run deletes
    exactly the candidates from position [KeepLastCount] on, oldest last,
    and records a deletion for each of them and for no other. *)
Theorem keep_last_deletes_the_rest arrange client repoName policy now e tags
    logs e' :
  let N := RetentionPolicy.KeepLastCount policy in
  0 < N ->
  RetentionPolicy.KeepDays policy <= 0 ->
  RetentionPolicy.DryRun policy = false ->
  permutes arrange ->
  processRepository arrange client repoName policy now e = (Ok logs, e') ->
  ListTags client (world e) repoName = Ok tags ->
  let images :=
    candidates arrange client (world e) repoName
      (compiled (RetentionPolicy.ExcludeTags policy)) tags in
  (forall im, In im images -> imageInfo.Protected im = false) ->
  List.NoDup (List.map imageInfo.Digest images) ->
  deletes (trace e')
  = deletes (trace e)
    ++ List.map (fun im => DeleteCall repoName (imageInfo.Digest im))
         (drop (Z.to_nat N) images)
  /\ forall k l, logs !! k = Some l ->
       isDeletion l = negb (Z.of_nat k <? N).
Proof.
  intros N HN HD Hwet Hperm Hrun Htags images Hprot Hnodup.
  destruct (processRepository_run _ _ _ _ _ _ _ _ _ Hperm Hrun Htags)
    as (Hlen & Hlook & [lines Htr] & _).
  cbn zeta in Hlen, Hlook, Htr. fold images in Hlen, Hlook, Htr.
  set (r := evaluateRules policy now 0 images ∅) in *.
  assert (forall k im, images !! k = Some im ->
            keep (evaluateTag policy now k im) = (Z.of_nat k <? N))
    as Hkeep.
  { intros k im Hk. rewrite keep_evaluateTag.
    rewrite (Hprot im) by (eapply list_elem_of_In, list_elem_of_lookup_2, Hk).
    fold N. destruct (Z.ltb_spec 0 N); [|lia].
    destruct (Z.ltb_spec 0 (RetentionPolicy.KeepDays policy)); [lia|].
    destruct (Z.leb_spec N 0); [lia|].
    cbn. by rewrite !orb_false_r. }
  assert (forall k im, images !! k = Some im ->
            toDelete policy r.2 (evaluateTag policy now k im)
            = negb (Z.of_nat k <? N)) as Htd.
  { intros k im Hk. unfold toDelete.
    rewrite (Hkeep k im Hk), evaluateTag_img, Hwet.
    destruct (Z.of_nat k <? N) eqn:Hlt; [done|]. cbn.
    rewrite andb_true_r. apply negb_true_iff.
    apply not_kept_of_unshared. intros j imj Hj Hkj Heq.
    assert (j = k) as ->.
    { apply NoDup_ListNoDup in Hnodup.
      eapply (NoDup_lookup _ _ _ _ Hnodup).
      - rewrite list_lookup_fmap, Hj. reflexivity.
      - rewrite list_lookup_fmap, Hk. cbn. by rewrite Heq. }
    rewrite (Hkeep k imj Hj) in Hkj. congruence. }
  assert (List.filter (toDelete policy r.2) r.1 = drop (Z.to_nat N) r.1)
    as Hfilter.
  { apply filter_drop. intros k d Hd.
    assert (exists im, images !! k = Some im) as [im Hk].
    { apply lookup_lt_is_Some.
      apply lookup_lt_Some in Hd.
      rewrite <- (evaluateRules_imgs policy now images 0 ∅).
      fold r. by rewrite length_map. }
    unfold r in Hd. rewrite (lookup_decision _ _ _ _ _ _ Hk) in Hd.
    injection Hd as <-. rewrite (Htd k im Hk).
    f_equal. destruct (Z.ltb_spec (Z.of_nat k) N), (Nat.ltb_spec k (Z.to_nat N));
      done || lia. }
  split.
  - rewrite Htr, Hfilter, !deletes_app, deletes_log_lines. cbn [app].
    f_equal.
    assert (List.map img r.1 = images) as Himgs
      by apply evaluateRules_imgs.
    rewrite <- Himgs, skipn_map, List.map_map.
    generalize (drop (Z.to_nat N) r.1). intros ds.
    induction ds as [|d ds IH]; [done|]. cbn. f_equal. exact IH.
  - intros k l Hl.
    assert (exists im, images !! k = Some im) as [im Hk].
    { apply lookup_lt_is_Some. rewrite <- Hlen. by eapply lookup_lt_Some. }
    destruct (Hlook k im Hk) as [e0 Hl'].
    rewrite Hl in Hl'. injection Hl' as ->.
    destruct (executeAction_entry client repoName policy r.2
                (evaluateTag policy now k im) e0) as (_ & _ & _ & _ & _ & ->).
    by apply Htd.
Qed.

Lemma processRepos_scope arrangeAt client policy
    (filterRepoRe excludeRepoRe : option Regexp) clock repos :
  forall k e logs e',
    processRepos arrangeAt client policy filterRepoRe excludeRepoRe
      clock k repos e = (logs, e') ->
    Forall
      (fun l =>
         In (RetentionLog.Repository l) repos
         /\ notNilAnd filterRepoRe
              (fun re => negb (MatchString re (RetentionLog.Repository l)))
            = false
         /\ notNilAnd excludeRepoRe
              (fun re => MatchString re (RetentionLog.Repository l))
            = false)
      logs.
Proof.
  induction repos as [|repo rest IH]; intros k e logs e'; simpl.
  - intros [= <- <-]. constructor.
  - assert (forall k e logs e',
              processRepos arrangeAt client policy filterRepoRe excludeRepoRe
                clock k rest e = (logs, e') ->
              Forall
                (fun l =>
                   (repo = RetentionLog.Repository l
                    \/ In (RetentionLog.Repository l) rest)
                   /\ notNilAnd filterRepoRe
                        (fun re =>
                           negb (MatchString re (RetentionLog.Repository l)))
                      = false
                   /\ notNilAnd excludeRepoRe
                        (fun re => MatchString re (RetentionLog.Repository l))
                      = false)
                logs) as IH'.
    { intros k0 e0 logs0 e0' Hrun.
      eapply Forall_impl; [exact (IH _ _ _ _ Hrun)|]. simpl. tauto. }
    destruct (notNilAnd filterRepoRe _) eqn:Hf; [apply IH'|].
    destruct (notNilAnd excludeRepoRe _) eqn:Hx; [apply IH'|].
    destruct (processRepository (arrangeAt k) client repo policy (clock k) e)
      as [[repoLogs|msg] e1] eqn:E.
    + destruct (processRepos _ _ _ _ _ _ _ rest e1) as [ls e2] eqn:E2.
      intros [= <- <-].
      destruct (processRepository_audit _ _ _ _ _ _ _ _ E) as [Hrepo _].
      apply Forall_app. split; [|by eapply IH'].
      eapply Forall_impl; [exact Hrepo|]. simpl.
      intros l [-> _]. auto.
    + apply IH'.
Qed.

(** ** A dry run and the run it announces *)

Lemma evaluateTag_limits p q now i im :
  RetentionPolicy.KeepLastCount p = RetentionPolicy.KeepLastCount q ->
  RetentionPolicy.KeepDays p = RetentionPolicy.KeepDays q ->
  evaluateTag p now i im = evaluateTag q now i im.
Proof.
  intros HN HD.
  unfold evaluateTag, ruleNoPolicy, ruleWhitelist, ruleKeepDays, ruleKeepLast.
  by rewrite HN, HD.
Qed.

Lemma evaluateRules_limits p q now images i keptDigests :
  RetentionPolicy.KeepLastCount p = RetentionPolicy.KeepLastCount q ->
  RetentionPolicy.KeepDays p = RetentionPolicy.KeepDays q ->
  evaluateRules p now i images keptDigests
  = evaluateRules q now i images keptDigests.
Proof.
  intros HN HD. revert i keptDigests.
  induction images as [|im rest IH]; intros i keptDigests; [done|].
  rewrite !evaluateRules_cons. cbn zeta.
  by rewrite (evaluateTag_limits p q now i im HN HD), IH.
Qed.

Lemma executeAction_previews client repoName p q keptDigests d e1 e2 :
  RetentionPolicy.DryRun p = true ->
  RetentionPolicy.DryRun q = false ->
  previews (executeAction client repoName p keptDigests d e1).1
    (executeAction client repoName q keptDigests d e2).1.
Proof.
  intros Hdry Hwet.
  rewrite (executeAction_static client repoName p)
    by (unfold toDelete; by rewrite Hdry, andb_false_r).
  destruct (toDelete q keptDigests d) eqn:Htd.
  - destruct (executeAction_delete client repoName q keptDigests d e2 Htd)
      as (action & reason & w & -> & Hact).
    unfold toDelete in Htd. rewrite Hwet in Htd.
    apply andb_true_iff in Htd as [[Hk Hs]%andb_true_iff _].
    apply negb_true_iff in Hk, Hs. rewrite Hk, Hs.
    unfold previews, isDeletion. cbn. split_and!; try done.
    left. split; [done|]. by destruct Hact as [-> | ->].
  - rewrite (executeAction_static client repoName q) by done.
    unfold toDelete in Htd. rewrite Hwet in Htd.
    unfold previews. cbn. split_and!; try done. right.
    destruct (keep d); [done|].
    destruct (isKept keptDigests (imageInfo.Digest (img d))); [done|].
    done.
Qed.

Lemma executeActions_previews client repoName p q keptDigests ds e1 e2 :
  RetentionPolicy.DryRun p = true ->
  RetentionPolicy.DryRun q = false ->
  Forall2 previews
    (executeActions client repoName p keptDigests ds e1).1
    (executeActions client repoName q keptDigests ds e2).1.
Proof.
  intros Hdry Hwet. revert e1 e2.
  induction ds as [|d ds IH]; intros e1 e2; simpl; [constructor|].
  pose proof (executeAction_previews client repoName p q keptDigests d e1 e2
                Hdry Hwet) as Hd.
  destruct (executeAction _ _ p _ d e1) as [l1 e1'].
  destruct (executeAction _ _ q _ d e2) as [l2 e2'].
  specialize (IH e1' e2').
  destruct (executeActions _ _ p _ ds e1') as [ls1 e1''].
  destruct (executeActions _ _ q _ ds e2') as [ls2 e2''].
  by constructor.
Qed.

(** X23. A dry run is a faithful preview: for two policies that differ
    in [DryRun] only (as far as a repository is concerned), processing a
    repository from the same state with the same clock reading and the
    same order of the candidates gives logs of the same images in the
    same order, in which the dry run says "would_delete" exactly where
    the other run records a deletion ("deleted" or "error_delete") and
    both have the same "kept" entry everywhere else; and one fails iff
    the other does, with the same error. *)
Theorem dry_run_previews_real_run arrange client repoName p q now e :
  RetentionPolicy.DryRun p = true ->
  RetentionPolicy.DryRun q = false ->
  RetentionPolicy.KeepLastCount p = RetentionPolicy.KeepLastCount q ->
  RetentionPolicy.KeepDays p = RetentionPolicy.KeepDays q ->
  RetentionPolicy.ExcludeTags p = RetentionPolicy.ExcludeTags q ->
  match (processRepository arrange client repoName p now e).1,
        (processRepository arrange client repoName q now e).1 with
  | Ok dry, Ok wet => Forall2 previews dry wet
  | Err msg, Err msg' => msg = msg'
  | _, _ => False
  end.
Proof.
  intros Hdry Hwet HN HD HX. unfold processRepository. rewrite <- HX.
  destruct (ListTags client (world e) repoName) as [tags|msg]; [|done].
  destruct (length tags =? 0)%nat; [constructor|].
  destruct (compileLogged _ (RetentionPolicy.ExcludeTags p) e) as [re e1].
  rewrite <- (evaluateRules_limits p q) by done.
  destruct (evaluateRules p now 0 _ ∅) as [ds kept].
  pose proof (executeActions_previews client repoName p q kept ds e1 e1
                Hdry Hwet) as Hprev.
  destruct (executeActions _ _ p _ ds e1) as [ls1 e1'].
  by destruct (executeActions _ _ q _ ds e1) as [ls2 e2'].
Qed.

Section Run.
Variable NewClient : string -> string -> string -> bool -> Client W.

(** X3. The log of a run is a faithful record of its deletions: the
    [DeleteManifest] calls of the run are, in order, the entries with the
    action "deleted" or "error_delete", each with the repository and the
    digest of its entry; every entry carries one of the four actions; and
    a run that returns an error has done nothing. *)
Theorem deletions_are_the_logged_ones arrangeAt reg policy clock e :
  let run := RunRetention NewClient arrangeAt reg policy clock e in
  match run.1 with
  | Ok logs =>
      Forall knownAction logs
      /\ deletes (trace run.2)
         = deletes (trace e)
           ++ List.map deleteCallOf (List.filter isDeletion logs)
  | Err _ => run.2 = e
  end.
Proof.
  unfold RunRetention.
  destruct (ListRepositories _ (world e)) as [repos|msg]; [|done].
  pose proof (compileLogged_deletes "⚠️ Invalid FilterRepos regex: "
                (RetentionPolicy.FilterRepos policy) e) as Hs1.
  destruct (compileLogged _ (RetentionPolicy.FilterRepos policy) e)
    as [fre e1]. simpl in Hs1.
  pose proof (compileLogged_deletes "⚠️ Invalid ExcludeRepos regex: "
                (RetentionPolicy.ExcludeRepos policy) e1) as Hs2.
  destruct (compileLogged _ (RetentionPolicy.ExcludeRepos policy) e1)
    as [ere e2]. simpl in Hs2.
  destruct (processRepos _ _ _ _ _ _ _ repos e2) as [logs e3] eqn:E.
  destruct (processRepos_audit _ _ _ _ _ _ _ _ _ _ _ E) as [Hknown Htr].
  cbn. split; [done|]. by rewrite Htr, Hs2, Hs1.
Qed.

(** X7. A run touches only the repositories of the listing that match
    [FilterRepos] and do not match [ExcludeRepos] (a pattern that is empty
    or does not compile excludes nothing): every entry of the log and
    every [DeleteManifest] call of the run names such a repository; and a
    run whose listing succeeds returns a log. *)
Theorem only_repositories_in_scope_are_touched arrangeAt reg policy clock e
    repos :
  ListRepositories (NewClientFromRegistry NewClient reg) (world e)
  = Ok repos ->
  let run := RunRetention NewClient arrangeAt reg policy clock e in
  exists logs,
    run.1 = Ok logs
    /\ Forall (fun l => inScope policy repos (RetentionLog.Repository l)) logs
    /\ forall repo digest,
         In (DeleteCall repo digest) (deletes (trace run.2)) ->
         In (DeleteCall repo digest) (deletes (trace e))
         \/ inScope policy repos repo.
Proof.
  intros Hrepos. unfold RunRetention. rewrite Hrepos.
  pose proof (compileLogged_deletes "⚠️ Invalid FilterRepos regex: "
                (RetentionPolicy.FilterRepos policy) e) as Hs1.
  pose proof (compileLogged_fst "⚠️ Invalid FilterRepos regex: "
                (RetentionPolicy.FilterRepos policy) e) as Hf1.
  destruct (compileLogged _ (RetentionPolicy.FilterRepos policy) e)
    as [fre e1]. simpl in Hs1, Hf1.
  pose proof (compileLogged_deletes "⚠️ Invalid ExcludeRepos regex: "
                (RetentionPolicy.ExcludeRepos policy) e1) as Hs2.
  pose proof (compileLogged_fst "⚠️ Invalid ExcludeRepos regex: "
                (RetentionPolicy.ExcludeRepos policy) e1) as Hf2.
  destruct (compileLogged _ (RetentionPolicy.ExcludeRepos policy) e1)
    as [ere e2]. simpl in Hs2, Hf2.
  destruct (processRepos _ _ _ _ _ _ _ repos e2) as [logs e3] eqn:E.
  destruct (processRepos_audit _ _ _ _ _ _ _ _ _ _ _ E) as [_ Htr].
  pose proof (processRepos_scope _ _ _ _ _ _ _ _ _ _ _ E) as Hscope.
  cbn. exists logs. split; [done|].
  assert (Forall (fun l => inScope policy repos (RetentionLog.Repository l))
            logs) as Hin.
  { eapply Forall_impl; [exact Hscope|]. simpl.
    intros l (Hl & Hf & Hx). unfold inScope. rewrite <- Hf1, <- Hf2.
    split; [done|]. split; intros re ->; cbn in *.
    - by apply negb_false_iff.
    - done. }
  split; [done|].
  intros repo digest. rewrite Htr, Hs2, Hs1.
  intros [Hold | Hnew]%in_app_or; [by left|right].
  apply in_map_iff in Hnew as (l & Hl & Hfil).
  injection Hl as <- _. apply filter_In in Hfil as [Hfil _].
  rewrite Forall_forall in Hin. by apply Hin, list_elem_of_In.
Qed.

End Run.

End RetentionLogFacts.

(** * More on the scan scheduler *)

Section TickerFacts.
Import models database tasks.

Implicit Types (p q : ScanPolicy.t) (db : DB) (now : gotime.Time).

Lemma statement_frame db :
  registries (statement db).2 = registries db
  /\ scan_policies (statement db).2 = scan_policies db
  /\ vuln_scans (statement db).2 = vuln_scans db
  /\ vuln_scans_seq (statement db).2 = vuln_scans_seq db.
Proof. unfold statement. by destruct (faults db). Qed.

Lemma sameSchedule_refl q : sameSchedule q q.
Proof. by repeat split. Qed.

Lemma sameSchedule_trans p q r :
  sameSchedule p q -> sameSchedule q r -> sameSchedule p r.
Proof. unfold sameSchedule. intuition congruence. Qed.

Lemma sameSchedule_setRunTime id last next q :
  sameSchedule q (setRunTime id last next q).
Proof. unfold setRunTime. destruct (ScanPolicy.ID q =? id); by repeat split. Qed.

(** What the loop of a tick does to the tables: the rows of
    [scan_policies] are rewritten one by one by some [g] that changes run
    times only and leaves the rows of the policies not dispatched as they
    are. *)
Lemma checkLoop_frame now policies db :
  exists g,
    scan_policies (checkLoop now policies db).1
    = List.map g (scan_policies db)
    /\ (forall q, sameSchedule q (g q))
    /\ (forall q,
         (forall p, In p (List.filter (isDue now) policies) ->
            ScanPolicy.ID p <> ScanPolicy.ID q) ->
         g q = q)
    /\ registries (checkLoop now policies db).1 = registries db
    /\ vuln_scans (checkLoop now policies db).1 = vuln_scans db
    /\ vuln_scans_seq (checkLoop now policies db).1 = vuln_scans_seq db.
Proof.
  revert db. induction policies as [|p rest IH]; intros db.
  - exists id. simpl. rewrite map_id. split_and!; try done.
  - simpl. destruct (isDue now p); [|by apply IH].
    assert (exists h db1,
              UpdatePolicyRunTime db (ScanPolicy.ID p) now (nextRun now p)
              = (h.1, db1)
              /\ scan_policies db1 = List.map h.2 (scan_policies db)
              /\ (forall q, sameSchedule q (h.2 q))
              /\ (forall q, ScanPolicy.ID p <> ScanPolicy.ID q -> h.2 q = q)
              /\ registries db1 = registries db
              /\ vuln_scans db1 = vuln_scans db
              /\ vuln_scans_seq db1 = vuln_scans_seq db)
      as (h & db1 & -> & Hrows & Hsame & Hother & Hr & Hv & Hs).
    { unfold UpdatePolicyRunTime.
      destruct (statement_frame db) as (Hr & Hp & Hv & Hs).
      destruct (statement db) as [[msg|] db1]; simpl in *.
      - exists (Some msg, id), db1. simpl. rewrite map_id.
        split_and!; try done.
      - eexists (None,
                 setRunTime (ScanPolicy.ID p) now (nextRun now p)), _.
        simpl. split; [reflexivity|]. simpl.
        rewrite Hp. split_and!; try done.
        + intros q. apply sameSchedule_setRunTime.
        + intros q Hq. apply setRunTime_other. congruence. }
    destruct (IH db1) as (g & Hg & Hgsame & Hgother & Hgr & Hgv & Hgs).
    destruct (checkLoop now rest db1) as [db2 evs]. simpl in *.
    exists (fun q => g (h.2 q)).
    rewrite Hg, Hrows, map_map, Hgr, Hgv, Hgs.
    split_and!; try done.
    + intros q.
      apply (sameSchedule_trans _ (h.2 q)); [apply Hsame | apply Hgsame].
    + intros q Hq. rewrite Hother by (apply Hq; by left).
      apply Hgother. intros p' Hp'. apply Hq. by right.
Qed.

(** X8. A tick writes run times only: it leaves the tables of the
    registries and of the scans as they are, every policy row keeps its
    id, registry, switch, interval and filters, and the row of a policy
    that the tick does not dispatch is not changed at all. What it
    dispatches are enabled, due rows of the table; when the policies
    cannot be listed it dispatches nothing. *)
Theorem tick_writes_run_times_only now db :
  let tick := checkSchedules now db in
  registries tick.1 = registries db
  /\ vuln_scans tick.1 = vuln_scans db
  /\ vuln_scans_seq tick.1 = vuln_scans_seq db
  /\ Forall2 sameSchedule (scan_policies db) (scan_policies tick.1)
  /\ (forall k q q',
        scan_policies db !! k = Some q ->
        scan_policies tick.1 !! k = Some q' ->
        (forall p, In p (triggered tick.2) ->
           ScanPolicy.ID p <> ScanPolicy.ID q) ->
        q' = q)
  /\ (forall p, In p (triggered tick.2) ->
        In p (scan_policies db) /\ ScanPolicy.Enabled p = true
        /\ isDue now p = true)
  /\ (forall msg db1, ListEnabledScanPolicies db = (Err msg, db1) ->
        triggered tick.2 = []).
Proof.
  unfold checkSchedules, ListEnabledScanPolicies.
  destruct (statement_frame db) as (Hr & Hp & Hv & Hs).
  destruct (statement db) as [[msg|] db1]; simpl in *.
  - rewrite Hr, Hp, Hv, Hs. split_and!; try done.
    + clear. induction (scan_policies db); constructor; [|done].
      apply sameSchedule_refl.
    + congruence.
  - destruct (checkLoop_frame now
                (List.filter ScanPolicy.Enabled (scan_policies db1)) db1)
      as (g & Hg & Hsame & Hother & Hgr & Hgv & Hgs).
    pose proof (checkLoop_triggered now
                  (List.filter ScanPolicy.Enabled (scan_policies db1)) db1)
      as Htrig.
    destruct (checkLoop now _ db1) as [db2 evs]. simpl in *.
    rewrite Hp in Hg, Hother, Htrig.
    rewrite Hg, Hgr, Hgv, Hgs, Htrig, Hr, Hv, Hs.
    split_and!; try done.
    + clear -Hsame. induction (scan_policies db); constructor; [|done].
      apply Hsame.
    + intros k q q' Hq Hq' Hnot.
      rewrite list_lookup_fmap, Hq in Hq'. injection Hq' as <-.
      by apply Hother.
    + by intros p [[Hin Hen]%filter_In Hdue]%filter_In.
Qed.

(** ** Successive ticks *)

Lemma tick_stores now db :
  faults db = [] ->
  let trig :=
    List.filter (isDue now)
      (List.filter ScanPolicy.Enabled (scan_policies db)) in
  let tick := checkSchedules now db in
  faults tick.1 = []
  /\ triggered tick.2 = trig
  /\ scan_policies tick.1 = List.map (stamped now trig) (scan_policies db).
Proof.
  intros Hq trig tick. unfold tick. rewrite checkSchedules_quiet by done.
  destruct (checkLoop_stores now
              (List.filter ScanPolicy.Enabled (scan_policies db)) db Hq)
    as [Hf Hs].
  split; [done|]. split; [apply checkLoop_triggered | exact Hs].
Qed.









End TickerFacts.

(** * The tables of the scans and of the policies *)

Section StoreFacts.
Import models database tasks.

Implicit Types (db : DB) (s r : VulnerabilityScan.t) (p q : ScanPolicy.t).

Lemma find_map_same {A} (f : A -> bool) (g : A -> A) (l : list A) :
  (forall y, f (g y) = f y) ->
  List.find f (List.map g l) = option_map g (List.find f l).
Proof.
  intros Hfg. induction l as [|a l IH]; [done|]. simpl.
  rewrite Hfg. by destruct (f a).
Qed.

Lemma find_snoc {A} (f : A -> bool) (l : list A) (x : A) :
  List.find f (l ++ [x])
  = match List.find f l with
    | Some y => Some y
    | None => if f x then Some x else None
    end.
Proof. induction l as [|a l IH]; simpl; [done|]. by destruct (f a). Qed.

Lemma existsb_find {A} (f : A -> bool) (l : list A) :
  existsb f l = match List.find f l with Some _ => true | None => false end.
Proof. induction l as [|a l IH]; simpl; [done|]. by destruct (f a). Qed.

Lemma hasKey_updateScan id s registryID repo tag r :
  hasKey registryID repo tag (updateScan id s r) = hasKey registryID repo tag r.
Proof. unfold updateScan. by destruct (VulnerabilityScan.ID r =? id). Qed.

Lemma sameImage_eq s r : sameImage s r = true -> scanKeyOf r = scanKeyOf s.
Proof.
  unfold sameImage, scanKeyOf.
  intros [[H1 H2]%andb_true_iff H3]%andb_true_iff.
  apply Z.eqb_eq in H1. apply String.eqb_eq in H2, H3. congruence.
Qed.

Lemma sameImage_neq s r : sameImage s r = false -> scanKeyOf r <> scanKeyOf s.
Proof.
  unfold sameImage, scanKeyOf. intros Hf [= H1 H2 H3].
  by rewrite H1, H2, H3, Z.eqb_refl, !String.eqb_refl in Hf.
Qed.

Lemma updateScan_hit s row :
  sameImage s row = true ->
  updateScan (VulnerabilityScan.ID row) s row
  = withID (VulnerabilityScan.ID row) s.
Proof.
  intros Hk%sameImage_eq. unfold scanKeyOf in Hk. injection Hk as H1 H2 H3.
  unfold updateScan, withID. rewrite Z.eqb_refl. by rewrite H1, H2, H3.
Qed.

Lemma updateScan_key id s r :
  scanKeyOf (updateScan id s r) = scanKeyOf r
  /\ VulnerabilityScan.ID (updateScan id s r) = VulnerabilityScan.ID r.
Proof. unfold updateScan. by destruct (VulnerabilityScan.ID r =? id). Qed.

(** After a call of [SaveScan] that returns no error, the row of the
    image is the record that the caller holds. *)
Lemma SaveScan_stored db s s' db' :
  SaveScan db s = (None, s', db') ->
  s' = withID (VulnerabilityScan.ID s') s
  /\ List.find
       (hasKey (VulnerabilityScan.RegistryID s)
          (VulnerabilityScan.Repository s) (VulnerabilityScan.Tag s))
       (vuln_scans db')
     = Some s'.
Proof.
  unfold SaveScan.
  destruct (statement db) as [[msg|] db1] eqn:E1; [done|].
  change (sameImage s)
    with (hasKey (VulnerabilityScan.RegistryID s)
            (VulnerabilityScan.Repository s) (VulnerabilityScan.Tag s)).
  destruct (List.find _ (vuln_scans db1)) as [row|] eqn:Hfind.
  - destruct (statement db1) as [[msg|] db2] eqn:E2; [done|].
    intros [= <- <-]. cbn. split; [done|].
    rewrite find_map_same by (intros; apply hasKey_updateScan).
    rewrite (statement_rows _ _ _ E2), Hfind. cbn. f_equal.
    apply updateScan_hit. by apply find_some in Hfind as [_ ?].
  - destruct (statement db1) as [[msg|] db2] eqn:E2; [done|].
    intros [= <- <-]. cbn. split; [done|].
    rewrite find_snoc, (statement_rows _ _ _ E2), Hfind.
    unfold hasKey. cbn. by rewrite Z.eqb_refl, !String.eqb_refl.
Qed.

Lemma SaveScan_quiet db s :
  faults db = [] ->
  exists s' db', SaveScan db s = (None, s', db') /\ faults db' = [].
Proof.
  intros Hq. unfold SaveScan. rewrite !statement_quiet by done.
  destruct (List.find _ (vuln_scans db)); eexists _, _; by split.
Qed.

(** X10. While the statements succeed, a saved scan is read back: after
    [SaveScan], [GetScan] for the image returns the record as the caller
    holds it after the call, which is the saved record with the id of its
    row. *)
Theorem saved_scan_is_read_back db s :
  faults db = [] ->
  let saved := SaveScan db s in
  saved.1.1 = None
  /\ saved.1.2 = withID (VulnerabilityScan.ID saved.1.2) s
  /\ GetScan saved.2 (VulnerabilityScan.RegistryID s)
       (VulnerabilityScan.Repository s) (VulnerabilityScan.Tag s)
     = (Ok saved.1.2, saved.2).
Proof.
  intros Hq saved.
  destruct (SaveScan_quiet db s Hq) as (s' & db' & Hsave & Hq').
  unfold saved. rewrite Hsave. cbn [fst snd].
  destruct (SaveScan_stored _ _ _ _ Hsave) as [Hs' Hfind].
  split; [done|]. split; [done|].
  unfold GetScan. rewrite statement_quiet by done. by rewrite Hfind.
Qed.

Lemma SaveScan_seq_rows db s msg s' db' :
  SaveScan db s = (Some msg, s', db') ->
  vuln_scans db' = vuln_scans db /\ vuln_scans_seq db' = vuln_scans_seq db.
Proof.
  unfold SaveScan.
  destruct (statement_frame db) as (_ & _ & Hv1 & Hs1).
  destruct (statement db) as [[m|] db1]; cbn in Hv1, Hs1.
  { intros [= _ _ <-]. done. }
  destruct (statement_frame db1) as (_ & _ & Hv2 & Hs2).
  destruct (List.find _ (vuln_scans db1));
    destruct (statement db1) as [[m|] db2]; cbn in Hv2, Hs2;
    intros [= _ _ <-]; split; congruence.
Qed.

(** X11. [SaveScan] keeps one row per image: if no two rows of the table
    are for the same image, ids are unique and none exceeds the counter,
    then the same holds after the call, whether it fails or not, and the
    rows of the other images are the same as before. *)
Theorem save_scan_keeps_one_row_per_image db s o s' db' :
  scansWellFormed db ->
  SaveScan db s = (o, s', db') ->
  scansWellFormed db'
  /\ forall r, scanKeyOf r <> scanKeyOf s ->
       In r (vuln_scans db') <-> In r (vuln_scans db).
Proof.
  intros (Hkeys & Hids & Hseq) Hsave.
  destruct o as [msg|].
  { destruct (SaveScan_seq_rows _ _ _ _ _ Hsave) as [Hv Hs].
    unfold scansWellFormed. rewrite Hv, Hs. done. }
  revert Hsave. unfold SaveScan.
  destruct (statement_frame db) as (_ & _ & Hv1 & Hs1).
  destruct (statement db) as [[m|] db1]; [done|]. cbn in Hv1, Hs1.
  destruct (statement_frame db1) as (_ & _ & Hv2 & Hs2).
  destruct (List.find (sameImage s) (vuln_scans db1)) as [row|] eqn:Hfind;
    destruct (statement db1) as [[m|] db2]; try done; cbn in Hv2, Hs2;
    intros [= <- <-]; unfold scansWellFormed; cbn;
    rewrite Hv2, Hs2, Hv1, Hs1; rewrite Hv1 in Hfind.
  - apply find_some in Hfind as [Hrow Hsame].
    apply sameImage_eq in Hsame.
    assert (List.map scanKeyOf
              (List.map (updateScan (VulnerabilityScan.ID row) s)
                 (vuln_scans db))
            = List.map scanKeyOf (vuln_scans db)) as Hk.
    { rewrite List.map_map. apply List.map_ext. intros r.
      apply updateScan_key. }
    assert (List.map VulnerabilityScan.ID
              (List.map (updateScan (VulnerabilityScan.ID row) s)
                 (vuln_scans db))
            = List.map VulnerabilityScan.ID (vuln_scans db)) as Hi.
    { rewrite List.map_map. apply List.map_ext. intros r.
      apply updateScan_key. }
    rewrite Hk, Hi. split; [split_and!; try done|].
    + intros r (x & <- & Hx)%in_map_iff.
      destruct (updateScan_key (VulnerabilityScan.ID row) s x) as [_ ->].
      by apply Hseq.
    + intros r Hr. split.
      * intros (x & <- & Hx)%in_map_iff.
        unfold updateScan in *.
        destruct (VulnerabilityScan.ID x =? VulnerabilityScan.ID row)
          eqn:Hid; [|done].
        apply Z.eqb_eq in Hid.
        assert (x = row) as ->
          by (by apply (NoDup_map_inj VulnerabilityScan.ID (vuln_scans db))).
        exfalso. apply Hr. rewrite <- Hsame. done.
      * intros Hin. apply in_map_iff. exists r. split; [|done].
        unfold updateScan.
        destruct (VulnerabilityScan.ID r =? VulnerabilityScan.ID row)
          eqn:Hid; [|done].
        apply Z.eqb_eq in Hid.
        assert (r = row) as ->
          by (by apply (NoDup_map_inj VulnerabilityScan.ID (vuln_scans db))).
        by rewrite Hsame in Hr.
  - pose proof (find_none _ _ Hfind) as Hnone.
    rewrite !List.map_app. cbn [List.map].
    split; [split_and!|].
    + apply List.NoDup_app; [done|repeat constructor; by intros []|].
      intros k (x & <- & Hx)%in_map_iff [Heq|[]].
      apply (sameImage_neq s x); [by apply Hnone|]. by rewrite <- Heq.
    + apply List.NoDup_app; [done|repeat constructor; by intros []|].
      intros k (x & <- & Hx)%in_map_iff [Heq|[]].
      cbn in Heq. specialize (Hseq x Hx). lia.
    + intros r [Hr|[<-|[]]]%in_app_or; [|cbn; lia].
      specialize (Hseq r Hr). lia.
    + intros r Hr. rewrite in_app_iff. split; [|by left].
      intros [Hin|[<-|[]]]; [done|]. by destruct Hr.
Qed.

End StoreFacts.

(** * More on the scan workers *)

Section WorkerOutcomeFacts.
Import models database tasks.
Context {X : Type}.
Variable ScanImage :
  X -> string -> string -> string -> result (string * string) * X.

Implicit Types (db : DB) (job : ScanJob).

Lemma withOutcome_key r t scan :
  VulnerabilityScan.ID (withOutcome r t scan) = VulnerabilityScan.ID scan
  /\ VulnerabilityScan.RegistryID (withOutcome r t scan)
     = VulnerabilityScan.RegistryID scan
  /\ VulnerabilityScan.Repository (withOutcome r t scan)
     = VulnerabilityScan.Repository scan
  /\ VulnerabilityScan.Tag (withOutcome r t scan) = VulnerabilityScan.Tag scan.
Proof. unfold withOutcome. by destruct r as [[report summary]|msg]. Qed.

Lemma withID_same scan :
  withID (VulnerabilityScan.ID scan) scan = scan.
Proof. by destruct scan. Qed.

(** X12. While the statements succeed, a job leaves its outcome in the
    table: after [workerJob] the row of the image has the status
    "completed" with the report and the summary of the scanner, or the
    status "failed" with the error of the scanner as its report, and in
    both cases the time of the second reading of the clock; the calls are
    the first save, the scan, and the save of the outcome. *)
Theorem worker_records_outcome job t1 t2 db x :
  faults db = [] ->
  let run := workerJob ScanImage job t1 t2 (db, x) in
  let scanned := ScanImage x (RegistryURL job) (Repo job) (Tag job) in
  exists row,
    GetScan run.1.1 (RegistryID job) (Repo job) (Tag job)
    = (Ok row, run.1.1)
    /\ row
       = withID (VulnerabilityScan.ID row)
           (withOutcome scanned.1 t2 (newScan job t1))
    /\ VulnerabilityScan.ScannedAt row = t2
    /\ match scanned.1 with
       | Ok (report, summary) =>
           VulnerabilityScan.Status row = "completed"
           /\ VulnerabilityScan.Report row = report
           /\ VulnerabilityScan.Summary row = summary
       | Err msg =>
           VulnerabilityScan.Status row = "failed"
           /\ VulnerabilityScan.Report row
              = "{" +:+ dquote +:+ "error" +:+ dquote +:+ ": " +:+ dquote
                +:+ msg +:+ dquote +:+ "}"
       end
    /\ run.1.2 = scanned.2
    /\ run.2
       = [SaveScanCall (newScan job t1);
          ScanImageCall (RegistryURL job) (Repo job) (Tag job);
          SaveScanCall row].
Proof.
  intros Hq run scanned.
  destruct (SaveScan_quiet db (newScan job t1) Hq)
    as (scan1 & db1 & Hsave1 & Hq1).
  destruct (SaveScan_stored _ _ _ _ Hsave1) as [Hscan1 _].
  set (final := withOutcome scanned.1 t2 scan1).
  destruct (SaveScan_quiet db1 final Hq1) as (scan2 & db2 & Hsave2 & Hq2).
  destruct (SaveScan_stored _ _ _ _ Hsave2) as [Hscan2 Hfind].
  destruct (withOutcome_key scanned.1 t2 scan1) as (Hid & Hrid & Hrepo & Htag).
  fold final in Hid, Hrid, Hrepo, Htag.
  rewrite Hrid, Hrepo, Htag, Hscan1 in Hfind. cbn in Hfind.
  assert (run = (db2, scanned.2,
                 [SaveScanCall (newScan job t1);
                  ScanImageCall (RegistryURL job) (Repo job) (Tag job);
                  SaveScanCall final])) as Hrun.
  { unfold run, workerJob. rewrite Hsave1.
    unfold final, scanned in Hsave2.
    destruct (ScanImage x (RegistryURL job) (Repo job) (Tag job))
      as [r x']. cbn [fst snd] in *. by rewrite Hsave2. }
  assert (scan2 = final) as ->.
  { rewrite Hscan2.
    assert (VulnerabilityScan.ID scan2 = VulnerabilityScan.ID final) as ->.
    { revert Hsave2. unfold SaveScan. rewrite !statement_quiet by done.
      pose proof (SaveScan_stored _ _ _ _ Hsave1) as [_ Hrow1].
      cbn in Hrow1.
      change (sameImage final)
        with (hasKey (VulnerabilityScan.RegistryID final)
                (VulnerabilityScan.Repository final)
                (VulnerabilityScan.Tag final)).
      rewrite Hrid, Hrepo, Htag, Hscan1. cbn. rewrite Hrow1.
      intros [= <- _]. cbn. by rewrite Hid. }
    apply withID_same. }
  exists final. rewrite Hrun. cbn [fst snd].
  split.
  { unfold GetScan. rewrite statement_quiet by done. by rewrite Hfind. }
  split.
  { unfold final. rewrite Hscan1. unfold withOutcome.
    by destruct scanned.1 as [[report summary]|msg]. }
  split.
  { unfold final, withOutcome.
    by destruct scanned.1 as [[report summary]|msg]. }
  split; [|done].
  unfold final, withOutcome.
  by destruct scanned.1 as [[report summary]|msg].
Qed.

(** X13. When the record of a job was created but the save of the outcome
    fails, the error is only logged: the row of the image stays as the
    first save left it, with the status "scanning". *)
Theorem failed_result_save_leaves_scanning job t1 t2 db x scan1 db1 msg
    scan2 db2 :
  SaveScan db (newScan job t1) = (None, scan1, db1) ->
  let scanned := ScanImage x (RegistryURL job) (Repo job) (Tag job) in
  let final := withOutcome scanned.1 t2 scan1 in
  SaveScan db1 final = (Some msg, scan2, db2) ->
  workerJob ScanImage job t1 t2 (db, x)
  = (db2, scanned.2,
     [SaveScanCall (newScan job t1);
      ScanImageCall (RegistryURL job) (Repo job) (Tag job);
      SaveScanCall final;
      LogLine ("Worker DB Error saving result: " +:+ msg)])
  /\ List.find (hasKey (RegistryID job) (Repo job) (Tag job)) (vuln_scans db2)
     = Some scan1
  /\ VulnerabilityScan.Status scan1 = "scanning".
Proof.
  intros Hsave1 scanned final Hsave2.
  destruct (SaveScan_stored _ _ _ _ Hsave1) as [Hscan1 Hfind].
  destruct (SaveScan_seq_rows _ _ _ _ _ Hsave2) as [Hrows _].
  split.
  - unfold workerJob. rewrite Hsave1.
    unfold final, scanned in Hsave2.
    destruct (ScanImage x (RegistryURL job) (Repo job) (Tag job))
      as [r x']. cbn [fst snd] in *. by rewrite Hsave2.
  - rewrite Hrows. split; [exact Hfind|]. by rewrite Hscan1.
Qed.

End WorkerOutcomeFacts.

(** * Saving and loading policies *)

Section PolicyStoreFacts.
Import models database tasks.

Implicit Types (db : DB) (pdb : PolicyDB) (p q : ScanPolicy.t).

Lemma find_ext {A} (f g : A -> bool) (l : list A) :
  (forall x, f x = g x) -> List.find f l = List.find g l.
Proof.
  intros Hfg. induction l as [|a l IH]; [done|]. simpl.
  by rewrite Hfg, IH.
Qed.

Lemma find_map_fixed {A} (f : A -> bool) (g : A -> A) (l : list A) :
  (forall y, f (g y) = f y) -> (forall y, f y = true -> g y = y) ->
  List.find f (List.map g l) = List.find f l.
Proof.
  intros Hfg Hfix. rewrite find_map_same by done.
  destruct (List.find f l) as [y|] eqn:Hfind; [|done]. cbn.
  f_equal. apply Hfix. by apply find_some in Hfind as [_ ?].
Qed.

(** The rows of [scan_policies] after a successful [SaveScanPolicy]. *)
Lemma SaveScanPolicy_rows rowid db p :
  faults db = [] ->
  let saved := SaveScanPolicy rowid db p in
  let old :=
    List.find (fun r => ScanPolicy.RegistryID r =? ScanPolicy.RegistryID p)
      (scan_policies db) in
  let row :=
    ScanPolicy.mk
      (match old with Some r => ScanPolicy.ID r | None => rowid end)
      (ScanPolicy.RegistryID p) (ScanPolicy.Enabled p)
      (ScanPolicy.IntervalHours p) (ScanPolicy.NextRunAt p)
      (match old with
       | Some r => ScanPolicy.LastRunAt r
       | None => ScanPolicy.LastRunAt p
       end)
      (ScanPolicy.FilterRepos p) (ScanPolicy.FilterTags p) in
  saved.1 = None
  /\ faults saved.2 = []
  /\ List.find (fun r => ScanPolicy.RegistryID r =? ScanPolicy.RegistryID p)
       (scan_policies saved.2)
     = Some row
  /\ forall registryID, registryID <> ScanPolicy.RegistryID p ->
       List.find (fun r => ScanPolicy.RegistryID r =? registryID)
         (scan_policies saved.2)
       = List.find (fun r => ScanPolicy.RegistryID r =? registryID)
           (scan_policies db).
Proof.
  intros Hq saved old row. unfold saved, SaveScanPolicy.
  rewrite statement_quiet by done. rewrite existsb_find. fold old.
  assert (forall registryID y,
            (ScanPolicy.RegistryID (upsertPolicy p y) =? registryID)
            = (ScanPolicy.RegistryID y =? registryID)) as Hkey.
  { intros registryID y. unfold upsertPolicy.
    by destruct (ScanPolicy.RegistryID y =? ScanPolicy.RegistryID p). }
  unfold row. destruct old as [r|] eqn:Hold; cbn.
  - split_and!; try done.
    + rewrite find_map_same by (intros; apply Hkey).
      fold old in Hold. unfold old in Hold. rewrite Hold. cbn.
      apply find_some in Hold as [_ Hr]. unfold upsertPolicy.
      rewrite Hr. apply Z.eqb_eq in Hr. congruence.
    + intros registryID Hne. apply find_map_fixed; [by intros; apply Hkey|].
      intros y Hy. unfold upsertPolicy.
      destruct (ScanPolicy.RegistryID y =? ScanPolicy.RegistryID p)
        eqn:Hyp; [|done].
      apply Z.eqb_eq in Hy, Hyp. congruence.
  - split_and!; try done.
    + rewrite find_snoc. fold old in Hold. unfold old in Hold.
      rewrite Hold. cbn. by rewrite Z.eqb_refl.
    + intros registryID Hne. rewrite find_snoc. cbn.
      destruct (List.find
                  (fun r => ScanPolicy.RegistryID r =? registryID)
                  (scan_policies db)); [done|].
      destruct (ScanPolicy.RegistryID p =? registryID) eqn:Hp; [|done].
      apply Z.eqb_eq in Hp. congruence.
Qed.

(** X14. While the statements succeed, a saved scan policy is read back
    with its switch, interval, next run and filters; the id and the last
    run of a row that existed are kept, the next run is overwritten, and
    the policies of the other registries are read as before. *)
Theorem scan_policy_round_trip rowid db p :
  faults db = [] ->
  let saved := SaveScanPolicy rowid db p in
  let old :=
    List.find (fun r => ScanPolicy.RegistryID r =? ScanPolicy.RegistryID p)
      (scan_policies db) in
  saved.1 = None
  /\ GetScanPolicy saved.2 (ScanPolicy.RegistryID p)
     = (Ok (ScanPolicy.mk
              (match old with Some r => ScanPolicy.ID r | None => rowid end)
              (ScanPolicy.RegistryID p) (ScanPolicy.Enabled p)
              (ScanPolicy.IntervalHours p) (ScanPolicy.NextRunAt p)
              (match old with
               | Some r => ScanPolicy.LastRunAt r
               | None => ScanPolicy.LastRunAt p
               end)
              (ScanPolicy.FilterRepos p) (ScanPolicy.FilterTags p)),
        saved.2)
  /\ forall registryID, registryID <> ScanPolicy.RegistryID p ->
       (GetScanPolicy saved.2 registryID).1 = (GetScanPolicy db registryID).1.
Proof.
  intros Hq saved old.
  destruct (SaveScanPolicy_rows rowid db p Hq) as (Hok & Hq' & Hrow & Hother).
  fold saved in Hok, Hq', Hrow, Hother. fold old in Hrow.
  split; [done|]. unfold GetScanPolicy.
  rewrite !statement_quiet by done. rewrite Hrow. split; [done|].
  intros registryID Hne. rewrite (Hother registryID Hne).
  by destruct (List.find (fun r => ScanPolicy.RegistryID r =? registryID)
                 (scan_policies db)).
Qed.

(** X15. Saving an enabled policy whose [NextRunAt] is the zero time makes
    the next tick dispatch it, whatever run times its row held before:
    the policy for the registry is among the dispatched ones, with the
    saved interval and filter. *)
Theorem saved_policy_without_next_run_is_dispatched rowid db p now :
  faults db = [] ->
  ScanPolicy.Enabled p = true ->
  ScanPolicy.NextRunAt p = 0 ->
  let saved := SaveScanPolicy rowid db p in
  exists q,
    In q (triggered (checkSchedules now saved.2).2)
    /\ ScanPolicy.RegistryID q = ScanPolicy.RegistryID p
    /\ ScanPolicy.IntervalHours q = ScanPolicy.IntervalHours p
    /\ ScanPolicy.FilterRepos q = ScanPolicy.FilterRepos p.
Proof.
  intros Hq Hen Hnext saved.
  destruct (SaveScanPolicy_rows rowid db p Hq) as (_ & Hq' & Hrow & _).
  fold saved in Hq', Hrow.
  apply find_some in Hrow as [Hin _].
  destruct (tick_stores now saved.2 Hq') as (_ & -> & _).
  match type of Hin with In ?row _ => exists row end.
  split; [|by cbn].
  apply filter_In. split.
  - apply filter_In. split; [exact Hin | exact Hen].
  - unfold isDue. cbn. by rewrite Hnext.
Qed.

Lemma find_retention_upsert (p : RetentionPolicy.t)
    (rows : list RetentionPolicy.t) registryID :
  List.find (fun r => RetentionPolicy.RegistryID r =? registryID)
    (List.map (upsertRetention p) rows)
  = option_map (upsertRetention p)
      (List.find (fun r => RetentionPolicy.RegistryID r =? registryID) rows).
Proof.
  apply (find_map_same
           (fun r => RetentionPolicy.RegistryID r =? registryID)).
  intros y. unfold upsertRetention.
  by destruct (RetentionPolicy.RegistryID y =? RetentionPolicy.RegistryID p).
Qed.

(** X16. While the statements succeed, a saved retention policy is read
    back with its limits, its dry-run switch and its three patterns; the
    id and the last run of a row that existed are kept, a new row has no
    last run; and a registry without a row is given the default policy:
    keep the last 5, dry run, whitelist "^latest$|^main$|^master$". *)
Theorem retention_policy_round_trip rowid pdb (p : RetentionPolicy.t) :
  faults (conn pdb) = [] ->
  let saved := SaveRetentionPolicy rowid pdb p in
  let old :=
    List.find
      (fun r => RetentionPolicy.RegistryID r =? RetentionPolicy.RegistryID p)
      (retention_policies pdb) in
  saved.1 = None
  /\ GetRetentionPolicy saved.2 (RetentionPolicy.RegistryID p)
     = (Ok (RetentionPolicy.mk
              (match old with
               | Some r => RetentionPolicy.ID r
               | None => rowid
               end)
              (RetentionPolicy.RegistryID p)
              (RetentionPolicy.KeepLastCount p) (RetentionPolicy.KeepDays p)
              (RetentionPolicy.DryRun p)
              (match old with
               | Some r => RetentionPolicy.LastRunAt r
               | None => 0
               end)
              (RetentionPolicy.FilterRepos p)
              (RetentionPolicy.ExcludeRepos p)
              (RetentionPolicy.ExcludeTags p)),
        saved.2)
  /\ forall registryID,
       List.find (fun r => RetentionPolicy.RegistryID r =? registryID)
         (retention_policies pdb) = None ->
       (GetRetentionPolicy pdb registryID).1
       = Ok (RetentionPolicy.mk 0 registryID 5 0 true 0 EmptyString
               EmptyString "^latest$|^main$|^master$").
Proof.
  intros Hq saved old. unfold saved, SaveRetentionPolicy, GetRetentionPolicy.
  rewrite !statement_quiet by done. rewrite existsb_find. fold old.
  destruct old as [r|] eqn:Hold; cbn; rewrite !statement_quiet by done.
  - split; [done|]. split.
    + rewrite find_retention_upsert.
      fold old in Hold. unfold old in Hold. rewrite Hold. cbn.
      apply find_some in Hold as [_ Hr]. unfold upsertRetention at 1.
      rewrite Hr. apply Z.eqb_eq in Hr. unfold withConn. cbn.
      by rewrite Hr.
    + by intros registryID ->.
  - split; [done|]. split.
    + rewrite find_snoc. fold old in Hold. unfold old in Hold.
      rewrite Hold. cbn. by rewrite Z.eqb_refl.
    + by intros registryID ->.
Qed.

End PolicyStoreFacts.

(** * More on the dispatch of a policy *)

Section QueueFacts.
Import models database tasks.
Context {W : Type} `{RegexpPkg}.
Variable NewClient : string -> string -> string -> bool -> registry.Client W.
Variable ready : nat -> bool.

Lemma delivered_app n (l1 l2 : list ScanJob) :
  delivered ready n (l1 ++ l2)
  = delivered ready n l1 ++ delivered ready (n + length l1) l2.
Proof.
  revert n. induction l1 as [|j l1 IH]; intros n; simpl.
  - by rewrite Nat.add_0_r.
  - rewrite IH, Nat.add_succ_r. by destruct (ready n).
Qed.

Lemma delivered_sublist n (jobs : list ScanJob) :
  sublist (delivered ready n jobs) jobs.
Proof.
  revert n. induction jobs as [|j jobs IH]; intros n; simpl; [constructor|].
  destruct (ready n); by constructor.
Qed.

Lemma delivered_all n (jobs : list ScanJob) :
  (forall k, ready k = true) -> delivered ready n jobs = jobs.
Proof.
  intros Hall. revert n. induction jobs as [|j jobs IH]; intros n; [done|].
  simpl. by rewrite Hall, IH.
Qed.

Lemma queueTags_sent reg repoName tags n count :
  let run := queueTags ready reg repoName tags n count in
  sent run.2 = delivered ready n (List.map (mkJob reg repoName) tags)
  /\ run.1.1 = (n + length tags)%nat.
Proof.
  revert n count. induction tags as [|tag rest IH]; intros n count.
  - simpl. by rewrite Nat.add_0_r.
  - simpl. destruct (ready n).
    + specialize (IH (S n) (count + 1)).
      destruct (queueTags ready reg repoName rest (S n) (count + 1))
        as [[n' count'] evs]. simpl in *. destruct IH as [-> ->].
      split; [done|lia].
    + specialize (IH (S n) count).
      destruct (queueTags ready reg repoName rest (S n) count)
        as [[n' count'] evs]. simpl in *. destruct IH as [-> ->].
      split; [done|lia].
Qed.

Lemma queueRepos_sent (client : registry.Client W) w reg filterRe repos n
    count :
  sent (queueRepos ready client w reg filterRe repos n count).2
  = delivered ready n (eligibleJobs client w reg filterRe repos).
Proof.
  revert n count. induction repos as [|repoName rest IH]; intros n count.
  - done.
  - unfold eligibleJobs. cbn [queueRepos flat_map].
    fold (eligibleJobs client w reg filterRe rest).
    destruct (registry.notNilAnd filterRe _); [apply IH|].
    destruct (registry.ListTags client w repoName) as [tags|msg]; [|apply IH].
    destruct (queueTags_sent reg repoName tags n count) as [Hs Hn].
    destruct (queueTags ready reg repoName tags n count) as [[n' count'] evs].
    specialize (IH n' count').
    destruct (queueRepos ready client w reg filterRe rest n' count')
      as [count'' evs'].
    simpl in *. rewrite sent_app, delivered_app, length_map, Hs, IH, Hn.
    done.
Qed.

(** X17. A dispatch queues the listed tags of the repositories that pass
    the filter, in the order of the listings, each as a job with the URL
    and the id of the registry: the jobs sent are those whose send went
    through before the timer, and all of them when every send goes
    through. Repositories whose tags cannot be listed are skipped. The
    last line logged gives the number of jobs sent. Only the registry,
    the id and the repository filter of the policy are used: policies
    that agree on them are dispatched alike, whatever their tag
    filter is. *)
Theorem dispatch_queues_eligible_jobs p w db reg db1 repos :
  GetRegistry db (ScanPolicy.RegistryID p) = (Ok reg, db1) ->
  let client :=
    NewClient (Registry.URL reg) (Registry.Username reg)
      (Registry.Password reg) (Registry.Insecure reg) in
  registry.ListRepositories client w = Ok repos ->
  (ScanPolicy.FilterRepos p = EmptyString
   \/ exists re, Compile (ScanPolicy.FilterRepos p) = Ok re) ->
  let run := triggerPolicy NewClient ready p w db in
  let jobs :=
    eligibleJobs client w reg (registry.compiled (ScanPolicy.FilterRepos p))
      repos in
  run.1 = db1
  /\ sent run.2 = delivered ready 0 jobs
  /\ sublist (sent run.2) jobs
  /\ ((forall n, ready n = true) -> sent run.2 = jobs)
  /\ (exists evs,
        run.2
        = evs ++ [LogLine ("✅ Scheduler queued "
                           +:+ fmt.itoa (Z.of_nat (length (sent run.2)))
                           +:+ " images for registry "
                           +:+ fmt.itoa (ScanPolicy.RegistryID p))])
  /\ forall p',
       ScanPolicy.RegistryID p' = ScanPolicy.RegistryID p ->
       ScanPolicy.ID p' = ScanPolicy.ID p ->
       ScanPolicy.FilterRepos p' = ScanPolicy.FilterRepos p ->
       triggerPolicy NewClient ready p' w db = run.
Proof.
  intros Hreg client Hrepos Hfilter run jobs.
  assert ((if String.eqb (ScanPolicy.FilterRepos p) EmptyString
           then Ok None
           else match Compile (ScanPolicy.FilterRepos p) with
                | Ok re => Ok (Some re)
                | Err msg => Err msg
                end)
          = Ok (registry.compiled (ScanPolicy.FilterRepos p))) as Hcomp.
  { unfold registry.compiled.
    destruct (String.eqb (ScanPolicy.FilterRepos p) EmptyString) eqn:Hempty;
      [done|].
    destruct Hfilter as [Hf | [re Hre]].
    - apply String.eqb_neq in Hempty. done.
    - by rewrite Hre. }
  assert (sent run.2 = delivered ready 0 jobs
          /\ run.1 = db1
          /\ exists evs,
               run.2
               = evs ++ [LogLine ("✅ Scheduler queued "
                                  +:+ fmt.itoa
                                        (Z.of_nat (length (sent run.2)))
                                  +:+ " images for registry "
                                  +:+ fmt.itoa (ScanPolicy.RegistryID p))])
    as (Hsent & Hdb & Hlast).
  { unfold run, triggerPolicy. rewrite Hreg. fold client. rewrite Hrepos.
    rewrite Hcomp.
    pose proof (queueRepos_sent client w reg
                  (registry.compiled (ScanPolicy.FilterRepos p)) repos
                  0%nat 0) as Hs.
    pose proof (queueRepos_count ready client w reg
                  (registry.compiled (ScanPolicy.FilterRepos p)) repos
                  0%nat 0) as Hc.
    destruct (queueRepos ready client w reg _ repos 0 0) as [count evs].
    cbn [fst snd] in *. rewrite sent_app. cbn. rewrite app_nil_r.
    split; [exact Hs|]. split; [done|].
    exists evs. by rewrite Hc. }
  split; [done|]. split; [done|]. split.
  { rewrite Hsent. apply delivered_sublist. }
  split.
  { intros Hall. rewrite Hsent. by apply delivered_all. }
  split; [done|].
  intros p' Hr Hi Hf. unfold run, triggerPolicy. by rewrite Hr, Hi, Hf.
Qed.

End QueueFacts.

(** * The retention endpoint *)

Section HandlerFacts.
Import models database registry.
Context {W : Type} `{RegexpPkg}.
Variable NewClient : string -> string -> string -> bool -> Client W.
Variable ParseInt : string -> result Z.

Implicit Types (pdb : PolicyDB) (e : Env W).
Implicit Types (arrangeAt : nat -> list imageInfo.t -> list imageInfo.t).

Lemma RunRetention_dry arrangeAt reg (policy : RetentionPolicy.t) clock e :
  RetentionPolicy.DryRun policy = true ->
  (forall k, permutes (arrangeAt k)) ->
  sameEffects (RunRetention NewClient arrangeAt reg policy clock e).2 e.
Proof.
  intros Hdry Hperm.
  destruct (RunRetention NewClient arrangeAt reg policy clock e)
    as [r e'] eqn:Hrun.
  eapply (RunRetention_preserves NewClient (fun _ => True)) in Hrun
    as (Hs & _); [exact Hs|].
  intros k repoName now e0 logs e0' Hcall. split.
  - by apply List.Forall_forall.
  - eapply processRepository_quiet; [apply (Hperm k) | done |].
    intros kd i im. unfold toDelete. by rewrite Hdry, andb_false_r.
Qed.

Lemma RunRetention_error arrangeAt reg (policy : RetentionPolicy.t) clock e
    msg e' :
  RunRetention NewClient arrangeAt reg policy clock e = (Err msg, e') ->
  e' = e.
Proof.
  unfold RunRetention.
  destruct (ListRepositories _ (world e)) as [repos|m]; [|congruence].
  destruct (compileLogged _ (RetentionPolicy.FilterRepos policy) e)
    as [fre e1].
  destruct (compileLogged _ (RetentionPolicy.ExcludeRepos policy) e1)
    as [ere e2].
  by destruct (processRepos _ _ _ _ _ _ _ repos e2).
Qed.

Lemma GetRetentionPolicy_rows pdb registryID :
  retention_policies (GetRetentionPolicy pdb registryID).2
  = retention_policies pdb
  /\ forall policy,
       (GetRetentionPolicy pdb registryID).1 = Ok policy ->
       (In policy (retention_policies pdb)
        /\ RetentionPolicy.RegistryID policy = registryID)
       \/ (policy = defaultRetentionPolicy registryID
           /\ List.find
                (fun r => RetentionPolicy.RegistryID r =? registryID)
                (retention_policies pdb) = None).
Proof.
  unfold GetRetentionPolicy.
  destruct (statement (conn pdb)) as [[msg|] db]; [done|].
  destruct (List.find _ (retention_policies pdb)) as [r|] eqn:Hfind; cbn.
  - split; [done|]. intros policy [= <-]. left.
    apply find_some in Hfind as [Hin Hid]. by apply Z.eqb_eq in Hid.
  - split; [done|]. intros policy [= <-]. by right.
Qed.

Lemma GetRetentionPolicy_quiet pdb registryID :
  faults (conn pdb) = [] ->
  exists policy,
    GetRetentionPolicy pdb registryID = (Ok policy, pdb)
    /\ (List.find (fun r => RetentionPolicy.RegistryID r =? registryID)
          (retention_policies pdb) = None ->
        policy = defaultRetentionPolicy registryID).
Proof.
  intros Hq. unfold GetRetentionPolicy. rewrite statement_quiet by done.
  assert (withConn pdb (conn pdb) = pdb) as -> by (by destruct pdb).
  destruct (List.find _ (retention_policies pdb)) as [r|];
    eexists; by split.
Qed.

Lemma GetRegistry_frame (db : DB) (id : Z) :
  faults db = [] -> exists r, GetRegistry db id = (r, db).
Proof.
  intros Hq. unfold GetRegistry. rewrite statement_quiet by done.
  destruct (List.find _ (registries db)); by eexists.
Qed.

(** X18. A dry run through the endpoint is safe: when the request says
    [dry_run=true], or does not say [dry_run=false] while the stored
    policy of the registry, if there is one, is a dry-run policy (the
    default policy is), the handler deletes no manifest, leaves the
    registry as it is and does not touch the stored policies. *)
Theorem endpoint_dry_run_is_safe idStr dryRunStr arrangeAt clock stamp pdb
    e :
  (forall k, permutes (arrangeAt k)) ->
  dryRunStr = "true"
  \/ (dryRunStr <> "false"
      /\ forall r, In r (retention_policies pdb) ->
           ParseInt idStr = Ok (RetentionPolicy.RegistryID r) ->
           RetentionPolicy.DryRun r = true) ->
  let run :=
    handlers.RunRetention NewClient ParseInt idStr dryRunStr arrangeAt clock
      stamp (pdb, e) in
  world run.2.2 = world e
  /\ deletes (trace run.2.2) = deletes (trace e)
  /\ retention_policies run.2.1 = retention_policies pdb.
Proof.
  intros Hperm Hdry run. unfold run, handlers.RunRetention.
  destruct (ParseInt idStr) as [id|msg] eqn:Hid; [|done].
  destruct (GetRetentionPolicy_rows pdb id) as [Hrows Hpolicy].
  destruct (GetRetentionPolicy pdb id) as [[policy|msg] pdb1];
    cbn [fst snd] in *; [|done].
  assert (RetentionPolicy.DryRun (handlers.overrideDryRun dryRunStr policy)
          = true) as Hd.
  { unfold handlers.overrideDryRun.
    destruct Hdry as [-> | [Hne Hstored]]; [done|].
    destruct (String.eqb dryRunStr "true"); [done|].
    apply String.eqb_neq in Hne. rewrite Hne.
    destruct (Hpolicy policy eq_refl) as [[Hin <-] | [-> _]]; [|done].
    by apply Hstored. }
  destruct (GetRegistry (conn pdb1) id) as [[reg|msg] db]; [|done].
  pose proof (RunRetention_dry arrangeAt reg
                (handlers.overrideDryRun dryRunStr policy) clock e Hd Hperm)
    as [Hw Hdel].
  destruct (RunRetention NewClient arrangeAt reg _ clock e)
    as [[logs|msg] e']; cbn [fst snd] in *.
  - rewrite Hd. by cbn.
  - by cbn.
Qed.

(** X19. A request that is answered with an error has changed nothing:
    the status is 400, 404 or 500, the state of the registry is as
    before, the run issued no [DeleteManifest] call and logged no line,
    and the stored policies are as before. (The registry may have been
    read: a run that fails has asked it for its repositories.) *)
Theorem endpoint_error_changes_nothing idStr dryRunStr arrangeAt clock
    stamp pdb e :
  let run :=
    handlers.RunRetention NewClient ParseInt idStr dryRunStr arrangeAt clock
      stamp (pdb, e) in
  forall status err,
    run.1 = handlers.errorResponse status err ->
    (status = 400 \/ status = 404 \/ status = 500)
    /\ run.2.2 = e
    /\ retention_policies run.2.1 = retention_policies pdb.
Proof.
  intros run status err. unfold run, handlers.RunRetention.
  destruct (ParseInt idStr) as [id|msg]; [|intros [= <- _]; auto].
  destruct (GetRetentionPolicy_rows pdb id) as [Hrows _].
  destruct (GetRetentionPolicy pdb id) as [[policy|msg] pdb1];
    cbn [fst snd] in *; [|intros [= <- _]; auto].
  destruct (GetRegistry (conn pdb1) id) as [[reg|msg] db];
    [|intros [= <- _]; auto].
  destruct (RunRetention NewClient arrangeAt reg _ clock e)
    as [[logs|msg] e'] eqn:Hrun; [done|].
  apply RunRetention_error in Hrun as ->.
  intros [= <- _]. auto.
Qed.

(** X20. While the statements succeed, the endpoint stamps [last_run_at]
    of the registry's row after a run that was not a dry run and returned
    a log, and only then; a dry run leaves the rows as they are, and so
    does a real run for a registry that has no stored policy. *)
Theorem endpoint_records_real_runs idStr dryRunStr arrangeAt clock stamp
    pdb e logs :
  faults (conn pdb) = [] ->
  let run :=
    handlers.RunRetention NewClient ParseInt idStr dryRunStr arrangeAt clock
      stamp (pdb, e) in
  run.1 = handlers.successResponse logs ->
  exists id policy,
    ParseInt idStr = Ok id
    /\ (GetRetentionPolicy pdb id).1 = Ok policy
    /\ retention_policies run.2.1
       = (if RetentionPolicy.DryRun (handlers.overrideDryRun dryRunStr policy)
          then retention_policies pdb
          else List.map (setLastRun id stamp) (retention_policies pdb))
    /\ (List.find (fun r => RetentionPolicy.RegistryID r =? id)
          (retention_policies pdb) = None ->
        retention_policies run.2.1 = retention_policies pdb).
Proof.
  intros Hq run. unfold run, handlers.RunRetention.
  destruct (ParseInt idStr) as [id|msg]; [|done].
  destruct (GetRetentionPolicy_quiet pdb id Hq) as [policy [Hget Hnone]].
  rewrite Hget.
  destruct (GetRegistry_frame (conn pdb) id Hq) as [r Hreg].
  rewrite Hreg. destruct r as [reg|msg]; [|by intros [=]].
  destruct (RunRetention NewClient arrangeAt reg _ clock e)
    as [[logs'|msg] e']; [|by intros [=]].
  intros _. exists id, policy. split; [done|]. split; [by rewrite Hget|].
  cbn [fst snd].
  assert (withConn pdb (conn pdb) = pdb) as -> by (by destruct pdb).
  destruct (RetentionPolicy.DryRun (handlers.overrideDryRun dryRunStr policy))
    eqn:Hdry; [done|].
  unfold UpdateRetentionLastRun. rewrite statement_quiet by done.
  cbn. split; [done|].
  intros Hfind. rewrite <- (map_id (retention_policies pdb)) at 2.
  apply List.map_ext_in. intros r Hr. unfold setLastRun.
  by rewrite (find_none _ _ Hfind r Hr).
Qed.

End HandlerFacts.


(** * The summary of a scan report *)

Section SummaryFacts.
Import scanner.

Variable Unmarshal : string -> result TrivyReport.

Lemma tally_counts (sum : SeveritySummary) (v : TrivyVulnerability) :
  Critical (tally sum v)
  = Critical sum + (if String.eqb (Severity v) "CRITICAL" then 1 else 0)
  /\ High (tally sum v)
     = High sum + (if String.eqb (Severity v) "HIGH" then 1 else 0)
  /\ Medium (tally sum v)
     = Medium sum + (if String.eqb (Severity v) "MEDIUM" then 1 else 0)
  /\ Low (tally sum v)
     = Low sum + (if String.eqb (Severity v) "LOW" then 1 else 0)
  /\ total (tally sum v) = total sum + 1.
Proof.
  unfold tally, total.
  destruct (String.eqb_spec (Severity v) "CRITICAL") as [Heq|_];
    [rewrite ?Heq; cbn; lia|].
  destruct (String.eqb_spec (Severity v) "HIGH") as [Heq|_];
    [rewrite ?Heq; cbn; lia|].
  destruct (String.eqb_spec (Severity v) "MEDIUM") as [Heq|_];
    [rewrite ?Heq; cbn; lia|].
  destruct (String.eqb_spec (Severity v) "LOW") as [Heq|_];
    rewrite ?Heq; cbn; lia.
Qed.

Lemma summarize_measure (m : SeveritySummary -> Z)
    (c : TrivyVulnerability -> bool) :
  (forall sum v, m (tally sum v) = m sum + (if c v then 1 else 0)) ->
  forall results sum,
    m (fold_left
         (fun sum res => fold_left tally (Vulnerabilities res) sum)
         results sum)
    = m sum
      + Z.of_nat
          (length (List.filter c (flat_map Vulnerabilities results))).
Proof.
  intros Hstep.
  assert (forall vs sum,
            m (fold_left tally vs sum)
            = m sum + Z.of_nat (length (List.filter c vs))) as Hinner.
  { induction vs as [|v vs IH]; intros sum; simpl; [lia|].
    rewrite IH, Hstep. destruct (c v); simpl; lia. }
  induction results as [|res results IH]; intros sum; simpl; [lia|].
  rewrite IH, Hinner, List.filter_app, length_app. lia.
Qed.

Lemma filter_always {A} (l : list A) : List.filter (fun _ => true) l = l.
Proof. induction l as [|a l IH]; [done|]. cbn. by rewrite IH. Qed.

(** X21. The summary of a report counts every finding once: the counts
    for "CRITICAL", "HIGH", "MEDIUM" and "LOW" are the numbers of
    vulnerabilities with exactly that severity, in all results together,
    and the five counts add up to the number of vulnerabilities, so that
    [Unknown] counts all the others. Output that cannot be parsed gives
    the error of the parser. *)
Theorem summary_counts_every_finding (jsonStr : string) :
  match Unmarshal jsonStr with
  | Ok report =>
      parseSummary Unmarshal jsonStr = Ok (marshal (summarize report))
      /\ Critical (summarize report) = countSeverity "CRITICAL" report
      /\ High (summarize report) = countSeverity "HIGH" report
      /\ Medium (summarize report) = countSeverity "MEDIUM" report
      /\ Low (summarize report) = countSeverity "LOW" report
      /\ total (summarize report) = findings report
  | Err msg => parseSummary Unmarshal jsonStr = Err msg
  end.
Proof.
  unfold parseSummary.
  destruct (Unmarshal jsonStr) as [report|msg]; [|done].
  split; [done|]. unfold summarize, countSeverity, findings.
  split_and!.
  - rewrite (summarize_measure Critical
               (fun v => String.eqb (Severity v) "CRITICAL")); [done|].
    intros sum v. apply tally_counts.
  - rewrite (summarize_measure High
               (fun v => String.eqb (Severity v) "HIGH")); [done|].
    intros sum v. apply tally_counts.
  - rewrite (summarize_measure Medium
               (fun v => String.eqb (Severity v) "MEDIUM")); [done|].
    intros sum v. apply tally_counts.
  - rewrite (summarize_measure Low
               (fun v => String.eqb (Severity v) "LOW")); [done|].
    intros sum v. apply tally_counts.
  - rewrite (summarize_measure total (fun _ => true)).
    + by rewrite filter_always.
    + intros sum v. apply tally_counts.
Qed.

End SummaryFacts.

(** * The scan endpoint *)

Section ScanEndpointFacts.
Import models database.
Context {X : Type}.
Variable ScanImage ScanImageOSV :
  X -> string -> string -> string -> result (string * string) * X.
Variable mergeScanData : string -> string -> string -> string.
Variable listed : list Registry.t -> list Registry.t.

Lemma SaveScan_record (db : DB) (s : VulnerabilityScan.t) :
  exists id, (SaveScan db s).1.2 = withID id s.
Proof.
  unfold SaveScan.
  destruct (statement db) as [[msg|] db1].
  { exists (VulnerabilityScan.ID s). by destruct s. }
  destruct (List.find _ (vuln_scans db1)) as [row|];
    destruct (statement db1) as [[msg|] db2]; cbn; try by eexists.
  exists (VulnerabilityScan.ID s). by destruct s.
Qed.

(** What the goroutine reads back right after the record was created:
    nothing, or the record with its empty report and summary. *)
Lemma GetScan_after_create (db : DB) (s s' : VulnerabilityScan.t)
    (db' : DB) :
  SaveScan db s = (None, s', db') ->
  match (GetScan db' (VulnerabilityScan.RegistryID s')
           (VulnerabilityScan.Repository s') (VulnerabilityScan.Tag s')).1
  with
  | Ok e =>
      VulnerabilityScan.Report e = VulnerabilityScan.Report s
      /\ VulnerabilityScan.Summary e = VulnerabilityScan.Summary s
  | Err _ => True
  end.
Proof.
  intros Hsave. destruct (SaveScan_stored _ _ _ _ Hsave) as [Hs' Hfind].
  unfold GetScan.
  destruct (statement db') as [[msg|] db2] eqn:E; [done|].
  rewrite (statement_rows _ _ _ E), Hs'. cbn.
  rewrite Hfind, Hs'. by cbn.
Qed.

(** X22. A scan started through the endpoint never merges with a stored
    result: the request first saves the record with an empty report and
    summary over the row of the image, so when the goroutine, run with no
    other write to the row in between, fetches "the existing scan to
    merge", it merges the new result into the empty text, whatever the
    row held before the request; and a scan that fails is always recorded
    as "failed". *)
Theorem manual_scan_merges_into_blank body t1 t2 db x scan db1 regURL
    scannerType :
  handlers.TriggerScan listed body t1 db
  = (handlers.successResponse scan, db1, Some (scan, regURL, scannerType)) ->
  let fin :=
    handlers.scanRoutine ScanImage ScanImageOSV mergeScanData scan regURL
      scannerType t2 (db1, x) in
  let key := handlers.scannerKey scannerType in
  let scanned :=
    if String.eqb scannerType "osv"
    then ScanImageOSV x regURL (VulnerabilityScan.Repository scan)
           (VulnerabilityScan.Tag scan)
    else ScanImage x regURL (VulnerabilityScan.Repository scan)
           (VulnerabilityScan.Tag scan) in
  VulnerabilityScan.Status scan = "scanning"
  /\ fin.2.2 = scanned.2
  /\ VulnerabilityScan.ScannedAt fin.1 = t2
  /\ match scanned.1 with
     | Ok (report, summary) =>
         VulnerabilityScan.Status fin.1 = "completed"
         /\ VulnerabilityScan.Report fin.1
            = mergeScanData EmptyString key report
         /\ VulnerabilityScan.Summary fin.1
            = mergeScanData EmptyString key summary
     | Err msg =>
         VulnerabilityScan.Status fin.1 = "failed"
         /\ VulnerabilityScan.Report fin.1
            = mergeScanData EmptyString key (handlers.errorJson msg)
         /\ VulnerabilityScan.Summary fin.1
            = mergeScanData EmptyString key handlers.unknownZero
     end.
Proof.
  unfold handlers.TriggerScan.
  destruct body as [req|msg]; [|done].
  destruct (ListRegistries listed db) as [[registries|msg] db0]; [|done].
  destruct (List.find _ registries) as [reg|]; [|done].
  destruct (SaveScan db0 (handlers.requested req t1))
    as [[[msg|] scan0] db2] eqn:Hsave; [done|].
  intros [= H1 H2 _ H4 H5]. subst scan db1 regURL scannerType.
  destruct (SaveScan_stored _ _ _ _ Hsave) as [Hscan _].
  pose proof (GetScan_after_create _ _ _ _ Hsave) as Hget.
  split; [by rewrite Hscan|].
  set (key := handlers.scannerKey (handlers.Scanner req)).
  unfold handlers.scanRoutine.
  destruct (if String.eqb (handlers.Scanner req) "osv"
            then ScanImageOSV x (Registry.URL reg)
                   (VulnerabilityScan.Repository scan0)
                   (VulnerabilityScan.Tag scan0)
            else ScanImage x (Registry.URL reg)
                   (VulnerabilityScan.Repository scan0)
                   (VulnerabilityScan.Tag scan0)) as [r x'].
  destruct (GetScan db2 _ _ _) as [existing db3]. cbn [fst snd] in *.
  assert (match existing with
          | Ok e => (VulnerabilityScan.Report e, VulnerabilityScan.Summary e)
          | Err _ => (EmptyString, EmptyString)
          end = (EmptyString, EmptyString)) as Hblank.
  { destruct existing as [e|]; [|done]. destruct Hget as [-> ->]. done. }
  destruct (SaveScan_record db3
              (handlers.merged mergeScanData r existing key t2 scan0))
    as [id Hrec].
  destruct (SaveScan db3 _) as [[o s'] db4]. cbn [fst snd] in *.
  subst s'. unfold handlers.merged. rewrite Hblank.
  split; [done|].
  destruct r as [[report summary]|msg]; by cbn.
Qed.

End ScanEndpointFacts.

(** * The model at work, continued *)

Section MoreExamples.
Import models database registry fixtures.

(** The second of five images is kept by "keep the last 2", so it is kept
    by "keep the last 3 and a week". *)
Lemma raising_limits_keeps_more_witness :
  keep (evaluateTag (policyOf 3 7 true EmptyString EmptyString EmptyString)
          today 1
          (imageInfo.mk "v4" "sha256:04" (today - 20 * day) false))
  = true.
Proof.
  apply (raising_limits_keeps_more dryPolicy).
  - left. simpl. lia.
  - simpl. lia.
  - simpl. lia.
  - vm_compute. reflexivity.
Defined.

(** Of the three listed tags the log names "v1" and "v3"; "broken",
    whose creation time cannot be fetched, has no entry. *)
Lemma log_lists_the_fetched_tags_witness :
  let run :=
    processRepository sortNewestFirst memClient "app" dryPolicy today
      (start brokenTag) in
  let logs := match run.1 with Ok logs => logs | Err _ => [] end in
  List.map RetentionLog.Tag logs ≡ₚ ["v1"; "v3"]
  /\ forall l, In l logs ->
       RetentionLog.Repository l = "app"
       /\ In (RetentionLog.Tag l) ["v1"; "broken"; "v3"].
Proof.
  intros run logs.
  assert (run = (Ok logs, run.2)) as Hrun by (vm_compute; reflexivity).
  destruct (log_lists_the_fetched_tags sortNewestFirst memClient "app"
              dryPolicy today (start brokenTag) ["v1"; "broken"; "v3"] logs
              run.2 sortNewestFirst_permutes Hrun eq_refl)
    as (_ & Htags & Hentries).
  split; [exact Htags|].
  intros l Hl. destruct (Hentries l Hl) as (Hrepo & Hin & _).
  split; [exact Hrepo | exact Hin].
Defined.

(** "latest" is 40 days old under a 7-day policy, but matches the
    whitelist: it is kept and its digest is not deleted. *)
Lemma whitelisted_tag_is_kept_witness :
  let run :=
    processRepository sortNewestFirst memClient "app" sharedPolicy today
      (start sharedDigest) in
  let logs := match run.1 with Ok logs => logs | Err _ => [] end in
  exists l,
    In l logs /\ RetentionLog.Tag l = "latest"
    /\ RetentionLog.Action l = "kept"
    /\ exists evs,
         trace run.2 = [] ++ evs
         /\ ~ In (DeleteCall "app" (RetentionLog.Digest l)) evs.
Proof.
  intros run logs.
  assert (run = (Ok logs, run.2)) as Hrun by (vm_compute; reflexivity).
  exact (whitelisted_tag_is_kept sortNewestFirst memClient "app" sharedPolicy
           today (start sharedDigest) ["latest"; "old"; "new"] logs run.2
           [{| atStart := true; atEnd := true; body := "latest" |}] "latest"
           sortNewestFirst_permutes Hrun eq_refl eq_refl
           ltac:(simpl; tauto) eq_refl eq_refl).
Defined.

(** "Keep the last 2" over the five images deletes v3, v2 and v1. *)
Lemma keep_last_deletes_the_rest_witness :
  let run :=
    processRepository sortNewestFirst memClient "app" lastTwoPolicy today
      (start fiveTags) in
  let logs := match run.1 with Ok logs => logs | Err _ => [] end in
  deletes (trace run.2)
  = [DeleteCall "app" "sha256:03"; DeleteCall "app" "sha256:02";
     DeleteCall "app" "sha256:01"]
  /\ forall k l, logs !! k = Some l -> isDeletion l = negb (Z.of_nat k <? 2).
Proof.
  intros run logs.
  assert (run = (Ok logs, run.2)) as Hrun by (vm_compute; reflexivity).
  refine (keep_last_deletes_the_rest sortNewestFirst memClient "app"
            lastTwoPolicy today (start fiveTags)
            ["v1"; "v2"; "v3"; "v4"; "v5"] logs run.2
            ltac:(simpl; lia) ltac:(simpl; lia) eq_refl
            sortNewestFirst_permutes Hrun eq_refl _ _).
  - intros im Hin. vm_compute in Hin.
    repeat (destruct Hin as [<-|Hin]; [reflexivity|]). destruct Hin.
  - vm_compute.
    repeat (constructor; [simpl; intuition discriminate|]). constructor.
Defined.

(** "Keep the last 2" over the five images, as a dry run and for real. *)
Lemma dry_run_previews_real_run_witness :
  let dry :=
    processRepository sortNewestFirst memClient "app" dryPolicy today
      (start fiveTags) in
  let wet :=
    processRepository sortNewestFirst memClient "app" lastTwoPolicy today
      (start fiveTags) in
  match dry.1, wet.1 with
  | Ok dry, Ok wet => Forall2 previews dry wet
  | Err msg, Err msg' => msg = msg'
  | _, _ => False
  end.
Proof.
  exact (dry_run_previews_real_run sortNewestFirst memClient "app" dryPolicy
           lastTwoPolicy today (start fiveTags) eq_refl eq_refl eq_refl
           eq_refl eq_refl).
Defined.

(** Of "app", "app-old" and "lib", only "app" is in the scope of the
    policy; the run touches no other repository. *)
Lemma only_repositories_in_scope_are_touched_witness :
  let run :=
    RunRetention memNewClient (fun _ => sortNewestFirst) localRegistry
      scopedPolicy (fun _ => today) (start threeRepos) in
  exists logs,
    run.1 = Ok logs
    /\ Forall
         (fun l =>
            inScope scopedPolicy ["app"; "app-old"; "lib"]
              (RetentionLog.Repository l)) logs
    /\ forall repo digest,
         In (DeleteCall repo digest) (deletes (trace run.2)) ->
         In (DeleteCall repo digest) (deletes [])
         \/ inScope scopedPolicy ["app"; "app-old"; "lib"] repo.
Proof.
  exact (only_repositories_in_scope_are_touched memNewClient
           (fun _ => sortNewestFirst) localRegistry scopedPolicy
           (fun _ => today) (start threeRepos) ["app"; "app-old"; "lib"]
           eq_refl).
Defined.


(** A first scan of app:v1 is stored with id 1 and read back. *)
Lemma saved_scan_is_read_back_witness :
  let s := tasks.newScan job1 today in
  let saved := SaveScan emptyDB s in
  saved.1.1 = None
  /\ saved.1.2 = withID (VulnerabilityScan.ID saved.1.2) s
  /\ GetScan saved.2 1 "app" "v1" = (Ok saved.1.2, saved.2).
Proof.
  intros s saved. exact (saved_scan_is_read_back emptyDB s eq_refl).
Defined.

(** A second scan of app:v1 updates the row and adds none. *)
Lemma save_scan_keeps_one_row_per_image_witness :
  let s := tasks.newScan job1 (today + minute) in
  let saved := SaveScan oneScan s in
  scansWellFormed saved.2
  /\ forall r, scanKeyOf r <> scanKeyOf s ->
       In r (vuln_scans saved.2) <-> In r (vuln_scans oneScan).
Proof.
  intros s saved.
  refine (save_scan_keeps_one_row_per_image oneScan s saved.1.1 saved.1.2
            saved.2 _ eq_refl).
  split; [|split].
  - simpl. repeat (constructor; [simpl; tauto|]). constructor.
  - simpl. repeat (constructor; [simpl; tauto|]). constructor.
  - intros r [<-|[]]. simpl. lia.
Defined.

(** The job for app:v1 with a scanner that reports "{}". *)
Lemma worker_records_outcome_witness :
  let run :=
    tasks.workerJob noScanner job1 today (today + minute) (emptyDB, tt) in
  exists row,
    GetScan run.1.1 1 "app" "v1" = (Ok row, run.1.1)
    /\ VulnerabilityScan.ScannedAt row = today + minute
    /\ VulnerabilityScan.Status row = "completed"
    /\ VulnerabilityScan.Report row = "{}".
Proof.
  intros run.
  destruct (worker_records_outcome noScanner job1 today (today + minute)
              emptyDB tt eq_refl)
    as (row & Hget & _ & Hat & Hout & _).
  exists row. split; [exact Hget|]. split; [exact Hat|].
  exact (conj (proj1 Hout) (proj1 (proj2 Hout))).
Defined.

(** The fourth statement fails: the record was created, its update is
    lost, and the row keeps the status "scanning". *)
Lemma failed_result_save_leaves_scanning_witness :
  let db := withFaults [None; None; None; Some "disk full"] in
  let first := SaveScan db (tasks.newScan job1 today) in
  let run := tasks.workerJob noScanner job1 today (today + minute) (db, tt) in
  List.find (hasKey 1 "app" "v1") (vuln_scans run.1.1) = Some first.1.2
  /\ VulnerabilityScan.Status first.1.2 = "scanning".
Proof.
  intros db first run.
  pose (second :=
          SaveScan first.2
            (tasks.withOutcome (Ok ("{}", "{}")) (today + minute) first.1.2)).
  destruct (failed_result_save_leaves_scanning noScanner job1 today
              (today + minute) db tt first.1.2 first.2 "disk full"
              second.1.2 second.2 eq_refl eq_refl)
    as (Hrun & Hfind & Hstatus).
  split; [|exact Hstatus].
  unfold run. rewrite Hrun. exact Hfind.
Defined.

(** Editing the policy of registry 1 keeps its id and its last run and
    overwrites its next run. *)
Lemma scan_policy_round_trip_witness :
  let saved := SaveScanPolicy 2 (withPolicies [ranPolicy]) editedPolicy in
  saved.1 = None
  /\ GetScanPolicy saved.2 1
     = (Ok (ScanPolicy.mk 1 1 true 6 0 today "^app$" EmptyString), saved.2)
  /\ forall registryID, registryID <> 1 ->
       (GetScanPolicy saved.2 registryID).1
       = (GetScanPolicy (withPolicies [ranPolicy]) registryID).1.
Proof.
  exact (scan_policy_round_trip 2 (withPolicies [ranPolicy]) editedPolicy
           eq_refl).
Defined.

(** The edited policy ran today and was due tomorrow; a minute after the
    edit it is dispatched again. *)
Lemma saved_policy_without_next_run_is_dispatched_witness :
  let saved := SaveScanPolicy 2 (withPolicies [ranPolicy]) editedPolicy in
  exists q,
    In q (tasks.triggered (tasks.checkSchedules (today + minute) saved.2).2)
    /\ ScanPolicy.RegistryID q = 1
    /\ ScanPolicy.IntervalHours q = 6
    /\ ScanPolicy.FilterRepos q = "^app$".
Proof.
  exact (saved_policy_without_next_run_is_dispatched 2
           (withPolicies [ranPolicy]) editedPolicy (today + minute)
           eq_refl eq_refl eq_refl).
Defined.

(** The first policy saved for registry 1. *)
Lemma retention_policy_round_trip_witness :
  let saved := SaveRetentionPolicy 1 (policyDB []) weekPolicy in
  saved.1 = None
  /\ GetRetentionPolicy saved.2 1
     = (Ok (RetentionPolicy.mk 1 1 0 7 true 0 EmptyString EmptyString
              EmptyString), saved.2)
  /\ forall registryID,
       List.find (fun r => RetentionPolicy.RegistryID r =? registryID) []
       = None ->
       (GetRetentionPolicy (policyDB []) registryID).1
       = Ok (RetentionPolicy.mk 0 registryID 5 0 true 0 EmptyString
               EmptyString "^latest$|^main$|^master$").
Proof.
  exact (retention_policy_round_trip 1 (policyDB []) weekPolicy eq_refl).
Defined.

(** Five tags and a queue that is full at the third send: four jobs. *)
Lemma dispatch_queues_eligible_jobs_witness :
  let run :=
    tasks.triggerPolicy memNewClient busyAtThird dailyPolicy fiveTags
      emptyDB in
  let job tag := tasks.mkJob localRegistry "app" tag in
  tasks.sent run.2 = [job "v1"; job "v2"; job "v4"; job "v5"]
  /\ sublist (tasks.sent run.2)
       [job "v1"; job "v2"; job "v3"; job "v4"; job "v5"].
Proof.
  intros run job.
  destruct (dispatch_queues_eligible_jobs memNewClient busyAtThird
              dailyPolicy fiveTags emptyDB localRegistry emptyDB ["app"]
              eq_refl eq_refl (or_introl eq_refl))
    as (_ & Hsent & Hsub & _).
  split; [exact Hsent | exact Hsub].
Defined.

(** The stored policy would delete three images; with [dry_run=true]
    nothing is deleted and no last run is recorded. *)
Lemma endpoint_dry_run_is_safe_witness :
  let run :=
    handlers.RunRetention memNewClient parseInt "1" "true"
      (fun _ => sortNewestFirst) (fun _ => today) (today + minute)
      (policyDB [lastTwoPolicy], start fiveTags) in
  world run.2.2 = fiveTags
  /\ deletes (trace run.2.2) = []
  /\ retention_policies run.2.1 = [lastTwoPolicy].
Proof.
  exact (endpoint_dry_run_is_safe memNewClient parseInt "1" "true"
           (fun _ => sortNewestFirst) (fun _ => today) (today + minute)
           (policyDB [lastTwoPolicy]) (start fiveTags)
           (fun _ => sortNewestFirst_permutes) (or_introl eq_refl)).
Defined.

(** There is no registry 7. *)
Lemma endpoint_error_changes_nothing_witness :
  let run :=
    handlers.RunRetention memNewClient parseInt "7" "false"
      (fun _ => sortNewestFirst) (fun _ => today) (today + minute)
      (policyDB [lastTwoPolicy], start fiveTags) in
  run.1 = handlers.errorResponse 404 "Registry not found"
  /\ run.2.2 = start fiveTags
  /\ retention_policies run.2.1 = [lastTwoPolicy].
Proof.
  intros run. split; [reflexivity|].
  exact (proj2 (endpoint_error_changes_nothing memNewClient parseInt "7"
                  "false" (fun _ => sortNewestFirst) (fun _ => today)
                  (today + minute) (policyDB [lastTwoPolicy])
                  (start fiveTags) 404 "Registry not found" eq_refl)).
Defined.

(** A real run for registry 1 stamps the row of its policy. *)
Lemma endpoint_records_real_runs_witness :
  let run :=
    handlers.RunRetention memNewClient parseInt "1" "false"
      (fun _ => sortNewestFirst) (fun _ => today) (today + minute)
      (policyDB [dryPolicy], start fiveTags) in
  exists id policy,
    parseInt "1" = Ok id
    /\ (GetRetentionPolicy (policyDB [dryPolicy]) id).1 = Ok policy
    /\ retention_policies run.2.1
       = (if RetentionPolicy.DryRun (handlers.overrideDryRun "false" policy)
          then [dryPolicy]
          else List.map (setLastRun id (today + minute)) [dryPolicy])
    /\ (List.find (fun r => RetentionPolicy.RegistryID r =? id) [dryPolicy]
        = None ->
        retention_policies run.2.1 = [dryPolicy]).
Proof.
  intros run.
  pose (logs :=
          match run.1 with
          | handlers.successResponse logs => logs
          | handlers.errorResponse _ _ => []
          end).
  assert (run.1 = handlers.successResponse logs) as Hrun
    by (vm_compute; reflexivity).
  exact (endpoint_records_real_runs memNewClient parseInt "1" "false"
           (fun _ => sortNewestFirst) (fun _ => today) (today + minute)
           (policyDB [dryPolicy]) (start fiveTags) logs eq_refl Hrun).
Defined.

(** app:v1 has a stored report "[1]"; a failing OSV scan leaves the
    merge of the empty text with the error, and the status "failed". *)
Lemma manual_scan_merges_into_blank_witness :
  let started :=
    handlers.TriggerScan (fun l => l) (Ok scanRequest) today scannedBefore in
  let scan :=
    match started.1.1 with
    | handlers.successResponse scan => scan
    | handlers.errorResponse _ _ => tasks.newScan job1 today
    end in
  let fin :=
    handlers.scanRoutine noScanner brokenScanner sideBySide scan
      "http://localhost:5000" "osv" (today + minute) (started.1.2, tt) in
  VulnerabilityScan.Status scan = "scanning"
  /\ VulnerabilityScan.Status fin.1 = "failed"
  /\ VulnerabilityScan.Report fin.1
     = sideBySide EmptyString "osv" (handlers.errorJson "exit status 1").
Proof.
  intros started scan fin.
  destruct (manual_scan_merges_into_blank noScanner brokenScanner sideBySide
              (fun l => l) (Ok scanRequest) today (today + minute)
              scannedBefore tt scan started.1.2 "http://localhost:5000" "osv"
              eq_refl)
    as (Hstatus & _ & _ & Hout).
  split; [exact Hstatus|].
  exact (conj (proj1 Hout) (proj1 (proj2 Hout))).
Defined.

End MoreExamples.
